(** * Traffic analysis: crossing detection, speed estimation, reporting

    A shallow embedding of the v2 pipeline of the repository:

    - [detect_cars.run_detection]  (the producer),
    - [analyze.analyze_stream]     (the consumer),
    - [analyze.write_report]       (the statistical report).

    Numbers.  The Python code computes with floats.  In the modules
    [Detector], [Analyzer] and [Summary] they are idealised as exact
    rationals ([Q]): comparisons of finite floats agree with the
    comparisons of the rationals they denote, and rounding of the
    arithmetic results is outside that model; it carries the statements
    that do not depend on rounding.  The module [Analyzer64] embeds
    [analyze.py] a second time, over binary64 numbers with the
    operations of the interpreter, and carries the statements that do.
    Counters and list indices are Python integers and are modelled by
    [nat] and [Z].

    Effects.  The video source, the tracker, the clock and the
    coordinator ([run_traffic.py]) are external: their answers and
    actions are supplied by an explicit script.  The multiprocessing
    queue is the list of the values handed to [data_queue.put], oldest
    first.  Exceptions are values of [exn]; fallible code returns
    [result]. *)

From Stdlib Require Import ZArith QArith Qround Qabs Lia Lqa List.
From Stdlib Require Import Sorting.Permutation Sorting.Sorted.
From Stdlib Require Floats Uint63.
From stdpp Require Import base gmap.

Import ListNotations.
Local Open Scope Z_scope.

(** ** Python numbers *)

Module Py.

(** Strict comparison on rationals, as a boolean ([Qle_bool] is the
    library's non-strict one). *)
Definition Qlt_bool (x y : Q) : bool :=
  (Qnum x * QDen y <? Qnum y * QDen x)%Z.

(** The exceptions that occur in the modelled code.  [KeyboardInterrupt]
    and [SystemExit] derive from [BaseException] only; the others derive
    from [Exception]. *)
Inductive exn : Type :=
| KeyboardInterrupt
| SystemExit
| ZeroDivisionError
| IndexError
| OSError
| RuntimeError.

Definition is_Exception (e : exn) : bool :=
  match e with
  | KeyboardInterrupt | SystemExit => false
  | _ => true
  end.

Inductive result (A : Type) : Type :=
| Ok (a : A)
| Raise (e : exn).
Arguments Ok {A} a.
Arguments Raise {A} e.

Definition bind {A B : Type} (r : result A) (k : A -> result B) : result B :=
  match r with
  | Ok a => k a
  | Raise e => Raise e
  end.

(** [x / y] on Python numbers: a zero divisor raises. *)
Definition truediv (x y : Q) : result Q :=
  if Qeq_bool y 0 then Raise ZeroDivisionError else Ok (x / y)%Q.

(** [a % b] on Python integers. *)
Definition mod_ (a b : Z) : result Z :=
  if (b =? 0)%Z then Raise ZeroDivisionError else Ok (a mod b)%Z.

(** [int(x)] on a float: truncation towards zero. *)
Definition int (x : Q) : Z :=
  if Qle_bool 0 x then Qfloor x else Qceiling x.

(** [l[i]] on a list: negative indices count from the end, anything
    outside [-len, len) raises. *)
Definition getitem {A : Type} (l : list A) (i : Z) : result A :=
  let n := Z.of_nat (length l) in
  let j := if (i <? 0)%Z then (i + n)%Z else i in
  if ((j <? 0) || (n <=? j))%Z then Raise IndexError
  else match nth_error l (Z.to_nat j) with
       | Some a => Ok a
       | None => Raise IndexError
       end.

End Py.

#[global] Instance result_ret : MRet Py.result := @Py.Ok.
#[global] Instance result_bind : MBind Py.result :=
  fun A B k r => Py.bind r k.

(** ** Data carried on the queue *)

(** The two values of the ['direction'] entry. *)
Inductive heading : Type := LTR | RTL.

Definition heading_eqb (a b : heading) : bool :=
  match a, b with
  | LTR, LTR | RTL, RTL => true
  | _, _ => false
  end.

(** The dictionary that the detector puts on the queue
    (detect_cars.py, lines 156-163). *)
Record crossing : Type := mkCrossing {
  vehicle_number : nat;
  track_id : Z;
  direction : heading;
  distance_pixels : Q;
  time_elapsed : Q;
  timestamp : Q
}.

(** What [data_queue.put] receives: a dictionary or [None]. *)
Inductive item : Type :=
| Data (c : crossing)
| PyNone.

(** The dictionaries among the items of a queue, in order. *)
Fixpoint events (queue : list item) : list crossing :=
  match queue with
  | [] => []
  | Data c :: rest => c :: events rest
  | PyNone :: rest => events rest
  end.

(** ** The detector (detect_cars.py) *)

Module Detector.

(** The part of [config] that [run_detection] reads and that decides
    what is counted. *)
Record config : Type := mkConfig {
  vehicle_classes : list Z;
  min_time_before_count : Q;
  use_left_half : bool;
  save_frames : bool
}.

(** One row of the tracker result: [(track_id, box, cls)] of the [zip]
    on line 120, the box being [(x1, y1, x2, y2)]. *)
Record detection : Type := mkDetection {
  det_track_id : Z;
  det_box : Q * Q * Q * Q;
  det_cls : Z
}.

(** The four variables of lines 52-55. *)
Record state : Type := mkState {
  vehicle_count : nat;
  crossed_ids : gset Z;
  previous_positions : gmap Z (Q * Q);
  first_seen_position : gmap Z (Q * Q * Q)
}.

Definition initial_state : state :=
  {| vehicle_count := 0;
     crossed_ids := ∅;
     previous_positions := ∅;
     first_seen_position := ∅ |}.

(** Lines 126-128: the centre point of a box. *)
Definition center (box : Q * Q * Q * Q) : Q * Q :=
  let '(x1, y1, x2, y2) := box in
  (((x1 + x2) / 2)%Q, ((y1 + y2) / 2)%Q).

(** Lines 138-139.  [line_x] is an integer; the comparisons are Python's
    chained comparisons. *)
Definition crossed_right (prev_x : Q) (line_x : Z) (center_x : Q) : bool :=
  Py.Qlt_bool prev_x (inject_Z line_x) && Qle_bool (inject_Z line_x) center_x.

Definition crossed_left (prev_x : Q) (line_x : Z) (center_x : Q) : bool :=
  Py.Qlt_bool (inject_Z line_x) prev_x && Qle_bool center_x (inject_Z line_x).

(** The body of the [for] loop, lines 120-169, for one detection.  It
    returns the new state and the dictionaries put on the queue (none or
    one).

    [first_seen_position[track_id]] on line 142 is read after lines
    131-132 have stored an entry when there was none, so it is the stored
    entry if there is one and the current observation otherwise. *)
Definition process_detection (cfg : config) (line_x : Z)
    (current_time start_time : Q) (st : state) (d : detection)
    : state * list crossing :=
  let tid := det_track_id d in
  if negb (existsb (Z.eqb (det_cls d)) (vehicle_classes cfg)) then (st, [])
  else
    let '(center_x, center_y) := center (det_box d) in
    let first_seen :=
      match first_seen_position st !! tid with
      | None => <[tid := (center_x, center_y, current_time)]>
                  (first_seen_position st)
      | Some _ => first_seen_position st
      end in
    let prev := <[tid := (center_x, center_y)]> (previous_positions st) in
    let uncounted :=
      ({| vehicle_count := vehicle_count st; crossed_ids := crossed_ids st;
          previous_positions := prev; first_seen_position := first_seen |},
       []) in
    match previous_positions st !! tid with
    | Some (prev_x, prev_y) =>
        let cr := crossed_right prev_x line_x center_x in
        let cl := crossed_left prev_x line_x center_x in
        if (cr || cl) && bool_decide (tid ∉ crossed_ids st) then
          let '(first_x, first_y, first_time) :=
            match first_seen_position st !! tid with
            | None => (center_x, center_y, current_time)
            | Some e => e
            end in
          let distance := Qabs (center_x - first_x) in
          let elapsed := (current_time - first_time)%Q in
          if Py.Qlt_bool (min_time_before_count cfg) elapsed then
            let n := S (vehicle_count st) in
            ({| vehicle_count := n; crossed_ids := {[tid]} ∪ crossed_ids st;
                previous_positions := prev;
                first_seen_position := first_seen |},
             [ {| vehicle_number := n;
                  track_id := tid;
                  direction := if cl then RTL else LTR;
                  distance_pixels := distance;
                  time_elapsed := elapsed;
                  timestamp := (current_time - start_time)%Q |} ])
          else uncounted
        else uncounted
    | None => uncounted
    end.

(** The [for] loop of line 120 over the rows of one frame. *)
Fixpoint process_boxes (cfg : config) (line_x : Z)
    (current_time start_time : Q) (st : state) (ds : list detection)
    : state * list crossing :=
  match ds with
  | [] => (st, [])
  | d :: ds' =>
      let '(st1, out1) :=
        process_detection cfg line_x current_time start_time st d in
      let '(st2, out2) :=
        process_boxes cfg line_x current_time start_time st1 ds' in
      (st2, out1 ++ out2)
  end.

(** What the camera and the tracker answer for one frame: the width of
    the frame, the tracked rows ([None] when the tracker reports no boxes
    or no ids, line 111) and the clock reading of line 116. *)
Record frame : Type := mkFrame {
  frame_width : Z;
  boxes : option (list detection);
  frame_time : Q
}.

(** Lines 86-93. *)
Definition line_of (cfg : config) (f : frame) : Z :=
  let crop_width :=
    if use_left_half cfg then frame_width f / 2 else frame_width f in
  crop_width / 2.

(** One iteration of the [while] loop as the environment scripts it:
    [cap.read()] fails, or it delivers a frame.  A frame may carry an
    exception raised inside the [try] block while that frame is handled,
    after so many of its rows have been processed (an error of the
    tracker, of the drawing code, or an interrupt of the operator).

    [Sigterm] is the coordinator stopping the producer
    (run_traffic.py, line 116: [detector.terminate()]): the process
    receives SIGTERM, for which no handler is installed, and ends at
    once; neither an [except] nor the [finally] clause runs. *)
Inductive step : Type :=
| ReadFails
| Frame (f : frame) (abort : option (nat * Py.exn))
| Sigterm.

(** How the [while] loop is left. *)
Inductive loop_exit : Type :=
| Break
| Raised (e : Py.exn)
| Killed.

Definition process_frame (cfg : config) (start_time : Q) (st : state)
    (f : frame) (abort : option (nat * Py.exn))
    : state * list crossing * option Py.exn :=
  let rows := match boxes f with Some l => l | None => [] end in
  match abort with
  | None =>
      (process_boxes cfg (line_of cfg f) (frame_time f) start_time st rows,
       None)
  | Some (k, e) =>
      (process_boxes cfg (line_of cfg f) (frame_time f) start_time st
         (firstn k rows),
       Some e)
  end.

(** The [while True] loop of lines 76-202.  A script that is used up is
    the end of the input: [cap.read()] returns [ret = False] and the loop
    breaks, like a read failure. *)
Fixpoint detection_loop (cfg : config) (start_time : Q) (st : state)
    (script : list step) : state * list crossing * loop_exit :=
  match script with
  | [] => (st, [], Break)
  | ReadFails :: _ => (st, [], Break)
  | Sigterm :: _ => (st, [], Killed)
  | Frame f abort :: rest =>
      match process_frame cfg start_time st f abort with
      | (st1, out1, Some e) => (st1, out1, Raised e)
      | (st1, out1, None) =>
          let '(st2, out2, r) := detection_loop cfg start_time st1 rest in
          (st2, out1 ++ out2, r)
      end
  end.

(** The environment of one run of the producer: whether the model loads
    (line 28), whether the camera opens (line 43), the clock reading of
    line 60, whether the frame directory can be made (line 68) and the
    frames. *)
Record world : Type := mkWorld {
  load_model : Py.result unit;
  is_opened : bool;
  start_time : Q;
  makedirs : Py.result unit;
  frames : list step
}.

(** How [run_detection] ends: it returns, an exception leaves it, or
    the process is killed. *)
Inductive ending : Type :=
| Returns
| Propagates (e : Py.exn)
| Dies.

(** [run_detection]: everything put on the queue, in order, and how the
    function ends.

    Lines 27-29 and 63-71 are outside the [try] statement.  Inside it,
    [KeyboardInterrupt] and the subclasses of [Exception] are caught; the
    [finally] clause puts [None] whenever it runs. *)
Definition run_detection (cfg : config) (w : world)
    : list item * ending :=
  match load_model w with
  | Py.Raise e => ([], Propagates e)
  | Py.Ok _ =>
      if negb (is_opened w) then ([PyNone], Returns)
      else
        match (if save_frames cfg then makedirs w else Py.Ok tt) with
        | Py.Raise e => ([], Propagates e)
        | Py.Ok _ =>
            let '(_, out, r) :=
              detection_loop cfg (start_time w) initial_state (frames w) in
            let queue := map Data out ++ [PyNone] in
            match r with
            | Break => (queue, Returns)
            | Raised Py.KeyboardInterrupt => (queue, Returns)
            | Raised e =>
                if Py.is_Exception e then (queue, Returns)
                else (queue, Propagates e)
            | Killed => (map Data out, Dies)
            end
        end
  end.

(** [emits cfg st out st']: what relates a state, the crossings put on
    the queue while the code runs from it, and the state reached.  It is
    the invariant of the loops above. *)
Record emits (cfg : config) (st : state) (out : list crossing)
    (st' : state) : Prop := mkEmits {
  em_count : vehicle_count st' = (vehicle_count st + length out)%nat;
  em_numbers :
    map vehicle_number out = seq (S (vehicle_count st)) (length out);
  em_mono : crossed_ids st ⊆ crossed_ids st';
  em_marked : forall c, In c out ->
    track_id c ∈ crossed_ids st' /\ track_id c ∉ crossed_ids st;
  em_nodup : NoDup (map track_id out);
  em_dwell : forall c, In c out ->
    (min_time_before_count cfg < time_elapsed c)%Q
}.

(** [anchored st]: a track with a last known position has a first-seen
    entry. *)
Definition anchored (st : state) : Prop :=
  forall tid,
    is_Some (previous_positions st !! tid) ->
    is_Some (first_seen_position st !! tid).

End Detector.

(** ** The analyzer (analyze.py) *)

Module Analyzer.

(** The part of [config] read by [analyze_stream] and by the numeric part
    of [write_report]. *)
Record config : Type := mkConfig {
  report_update_interval : Z;
  rtl_correction_factor : Q;
  percentile_low : Q;
  percentile_high : Q;
  normal_range_bins : nat
}.

(** The complete vehicle record of lines 80-89. *)
Record vehicle : Type := mkVehicle {
  v_vehicle_number : nat;
  v_track_id : Z;
  v_direction : heading;
  v_distance_pixels : Q;
  v_time_elapsed : Q;
  speed_raw : Q;
  speed_normalized : Q;
  v_timestamp : Q
}.

(** Lines 70-89: the speed computation and the record built from one
    dequeued dictionary. *)
Definition build_vehicle (rtl_factor : Q) (data : crossing)
    : Py.result vehicle :=
  raw ← Py.truediv (distance_pixels data) (time_elapsed data);
  let normalized :=
    if heading_eqb (direction data) RTL
    then (raw * rtl_factor)%Q else raw in
  mret {| v_vehicle_number := vehicle_number data;
          v_track_id := track_id data;
          v_direction := direction data;
          v_distance_pixels := distance_pixels data;
          v_time_elapsed := time_elapsed data;
          speed_raw := raw;
          speed_normalized := normalized;
          v_timestamp := timestamp data |}.

(** *** The report *)

(** [sorted]: Python's sort is stable, so its result is the one of any
    stable ascending sort; this is insertion sort. *)
Fixpoint insert_sorted (x : Q) (l : list Q) : list Q :=
  match l with
  | [] => [x]
  | y :: l' => if Qle_bool x y then x :: l else y :: insert_sorted x l'
  end.

Fixpoint sorted (l : list Q) : list Q :=
  match l with
  | [] => []
  | x :: l' => insert_sorted x (sorted l')
  end.

(** The upper end of a bin: a number, or [float('inf')]. *)
Inductive bound : Type :=
| Finite (q : Q)
| Infinity.

Definition below (speed : Q) (high : bound) : bool :=
  match high with
  | Finite h => Py.Qlt_bool speed h
  | Infinity => true
  end.

(** Lines 172-175: the normal bins, for [i] in [range(num_bins)]. *)
Definition normal_bin (min_speed_p bin_width : Q) (i : nat) : Q * bound :=
  ((min_speed_p + inject_Z (Z.of_nat i) * bin_width)%Q,
   Finite (min_speed_p + inject_Z (Z.of_nat i + 1) * bin_width)%Q).

(** Lines 170-177 (the labels are left out). *)
Definition make_bins (min_speed_p max_speed_p bin_width : Q) (num_bins : nat)
    : list (Q * bound) :=
  [(0%Q, Finite min_speed_p)]
  ++ map (normal_bin min_speed_p bin_width) (seq 0 num_bins)
  ++ [(max_speed_p, Infinity)].

(** Lines 183-190: the inner loop over [enumerate(bins)], from position
    [i] on; [last] is [len(bins) - 1].  It gives the index of the bin
    whose counter is incremented, if the loop reaches a [break]. *)
Fixpoint find_bin (speed : Q) (last i : nat) (bins : list (Q * bound))
    : option nat :=
  match bins with
  | [] => None
  | (low, high) :: rest =>
      if (i =? last)%nat then
        if Qle_bool low speed then Some i
        else find_bin speed last (S i) rest
      else if Qle_bool low speed && below speed high then Some i
      else find_bin speed last (S i) rest
  end.

(** Lines 180-190: the counters after the outer loop over the speeds. *)
Fixpoint count_bins (bins : list (Q * bound)) (bin_counts : list nat)
    (speeds : list Q) : list nat :=
  match speeds with
  | [] => bin_counts
  | speed :: rest =>
      let counts :=
        match find_bin speed (length bins - 1) 0 bins with
        | Some i => alter S i bin_counts
        | None => bin_counts
        end in
      count_bins bins counts rest
  end.

(** The numbers of the report (lines 147-190); the text written from them
    is not modelled. *)
Record report : Type := mkReport {
  sorted_speeds : list Q;
  p_low_idx : Z;
  p_high_idx : Z;
  min_speed_p : Q;
  max_speed_p : Q;
  bins : list (Q * bound);
  bin_counts : list nat
}.

(** Lines 157-158: [int(n * (p / 100))]. *)
Definition percentile_idx (n : nat) (p : Q) : Z :=
  Py.int (inject_Z (Z.of_nat n) * (p / 100))%Q.

(** [write_report]: [None] when fewer than four vehicles make it return
    at once (line 137), the numbers of the report otherwise. *)
Definition write_report (vehicles : list vehicle) (cfg : config)
    : Py.result (option report) :=
  if (length vehicles <? 4)%nat then mret None
  else
    let num_bins := normal_range_bins cfg in
    let speeds := map speed_normalized vehicles in
    let sorted_speeds := sorted speeds in
    let n := length sorted_speeds in
    let p_low_idx := percentile_idx n (percentile_low cfg) in
    let p_high_idx := percentile_idx n (percentile_high cfg) in
    min_speed_p ← Py.getitem sorted_speeds p_low_idx;
    max_speed_p ← Py.getitem sorted_speeds p_high_idx;
    let speed_range := (max_speed_p - min_speed_p)%Q in
    bin_width ← Py.truediv speed_range (inject_Z (Z.of_nat num_bins));
    let bins := make_bins min_speed_p max_speed_p bin_width num_bins in
    let bin_counts :=
      count_bins bins (repeat 0%nat (num_bins + 2)) speeds in
    mret (Some {| sorted_speeds := sorted_speeds;
                  p_low_idx := p_low_idx;
                  p_high_idx := p_high_idx;
                  min_speed_p := min_speed_p;
                  max_speed_p := max_speed_p;
                  bins := bins;
                  bin_counts := bin_counts |}).

(** *** The receive loop *)

(** How the [while True] loop of lines 60-106 ends: it dequeues [None],
    an exception is raised inside the [try] block, or the queue stays
    empty and [get] blocks. *)
Inductive loop_end : Type :=
| Sentinel
| Raised (e : Py.exn)
| Blocks.

(** The loop, over the content of the queue.  The state is the list
    [vehicles] and the report file (the last report written, if any). *)
Fixpoint analyze_loop (cfg : config) (queue : list item)
    (vehicles : list vehicle) (file : option report)
    : list vehicle * option report * loop_end :=
  match queue with
  | [] => (vehicles, file, Blocks)
  | PyNone :: _ => (vehicles, file, Sentinel)
  | Data data :: rest =>
      match build_vehicle (rtl_correction_factor cfg) data with
      | Py.Raise e => (vehicles, file, Raised e)
      | Py.Ok vehicle =>
          let vehicles := vehicles ++ [vehicle] in
          match Py.mod_ (Z.of_nat (length vehicles))
                        (report_update_interval cfg) with
          | Py.Raise e => (vehicles, file, Raised e)
          | Py.Ok r =>
              if (r =? 0)%Z then
                match write_report vehicles cfg with
                | Py.Raise e => (vehicles, file, Raised e)
                | Py.Ok None => analyze_loop cfg rest vehicles file
                | Py.Ok (Some rep) =>
                    analyze_loop cfg rest vehicles (Some rep)
                end
              else analyze_loop cfg rest vehicles file
          end
      end
  end.

(** How [analyze_stream] ends. *)
Inductive outcome : Type :=
| Returns
| Propagates (e : Py.exn)
| Blocked.

(** [analyze_stream].  The exceptions of the loop are all subclasses of
    [Exception] and are caught on line 110; the [finally] clause writes
    the final report, and an exception of that call leaves the
    function. *)
Definition analyze_stream (cfg : config) (queue : list item)
    : list vehicle * option report * outcome :=
  match analyze_loop cfg queue [] None with
  | (vehicles, file, Blocks) => (vehicles, file, Blocked)
  | (vehicles, file, _) =>
      match vehicles with
      | [] => (vehicles, file, Returns)
      | _ :: _ =>
          match write_report vehicles cfg with
          | Py.Raise e => (vehicles, file, Propagates e)
          | Py.Ok None => (vehicles, file, Returns)
          | Py.Ok (Some rep) => (vehicles, Some rep, Returns)
          end
      end
  end.

(** [within b speed]: the speed lies in the bin [b], which is closed
    below and open above. *)
Definition within (b : Q * bound) (speed : Q) : Prop :=
  (fst b <= speed)%Q
  /\ match snd b with
     | Finite h => (speed < h)%Q
     | Infinity => True
     end.

End Analyzer.

(** ** Scenes used in the examples

    A camera whose frames are 200 pixels wide, not cropped, puts the
    counting line at [line_x = 100]; vehicles are of class 2; a track
    counts after half a second. *)

Module Scene.
Import Detector.

Definition config : Detector.config :=
  {| vehicle_classes := [2];
     min_time_before_count := 1 # 2;
     use_left_half := false;
     save_frames := false |}.

(** A vehicle of track [tid] whose box is centred at [x]. *)
Definition vehicle_at (tid x : Z) : detection :=
  {| det_track_id := tid;
     det_box := (inject_Z (x - 10), 0%Q, inject_Z (x + 10), 20%Q);
     det_cls := 2 |}.

(** The frame read at time [t], with its tracked rows. *)
Definition frame_at (t : Q) (rows : list detection) : step :=
  Frame {| frame_width := 200; boxes := Some rows; frame_time := t |}
        None.

(** A run in which the model loads and the camera opens at second 0. *)
Definition camera (script : list step) : world :=
  {| load_model := Py.Ok tt;
     is_opened := true;
     start_time := 0%Q;
     makedirs := Py.Ok tt;
     frames := script |}.

(** The same camera when frames are to be saved and the directory for
    them cannot be made. *)
Definition saving_config : Detector.config :=
  {| vehicle_classes := [2];
     min_time_before_count := 1 # 2;
     use_left_half := false;
     save_frames := true |}.

Definition camera_without_directory (script : list step) : world :=
  {| load_model := Py.Ok tt;
     is_opened := true;
     start_time := 0%Q;
     makedirs := Py.Raise Py.OSError;
     frames := script |}.

(** The state in which track 1, first seen at x = 90 at time 0, was last
    seen at x = 90. *)
Definition seen_at_90 : state :=
  {| vehicle_count := 0;
     crossed_ids := ∅;
     previous_positions := {[ 1 := (90%Q, 10%Q) ]};
     first_seen_position := {[ 1 := (90%Q, 10%Q, 0%Q) ]} |}.

(** Four tracks cross the line, two in each direction. *)
Definition four_crossings : list step :=
  [frame_at 0 [vehicle_at 1 60; vehicle_at 2 140];
   frame_at 1 [vehicle_at 1 90; vehicle_at 2 110;
                     vehicle_at 3 70; vehicle_at 4 150];
   frame_at 2 [vehicle_at 1 120; vehicle_at 2 80;
                     vehicle_at 3 95; vehicle_at 4 105];
   frame_at 3 [vehicle_at 3 130; vehicle_at 4 60]].

(** The directions of the crossings that a run puts on the queue. *)
Definition directions (cfg : Detector.config) (w : world) : list heading :=
  map direction (events (fst (run_detection cfg w))).

End Scene.

(** ** Analyses used in the examples *)

Module Desk.

(** The correction factor 1.15, a report every ten vehicles, the 5th and
    95th percentiles, four normal bins. *)
Definition config : Analyzer.config :=
  {| Analyzer.report_update_interval := 10;
     Analyzer.rtl_correction_factor := 115 # 100;
     Analyzer.percentile_low := 5;
     Analyzer.percentile_high := 95;
     Analyzer.normal_range_bins := 4 |}.

(** A crossing of 200 pixels in 2 seconds (100 pixels a second). *)
Definition crossing_100 (n : nat) (dir : heading) : crossing :=
  {| vehicle_number := n; track_id := Z.of_nat n; direction := dir;
     distance_pixels := 200; time_elapsed := 2; timestamp := 30 |}.

(** A vehicle record with a given normalized speed. *)
Definition vehicle_of_speed (s : Q) : Analyzer.vehicle :=
  {| Analyzer.v_vehicle_number := 1; Analyzer.v_track_id := 1;
     Analyzer.v_direction := LTR; Analyzer.v_distance_pixels := s;
     Analyzer.v_time_elapsed := 1; Analyzer.speed_raw := s;
     Analyzer.speed_normalized := s; Analyzer.v_timestamp := 0 |}.

(** The quartiles as percentiles, two normal bins. *)
Definition quartiles : Analyzer.config :=
  {| Analyzer.report_update_interval := 10;
     Analyzer.rtl_correction_factor := 115 # 100;
     Analyzer.percentile_low := 25;
     Analyzer.percentile_high := 75;
     Analyzer.normal_range_bins := 2 |}.

(** The upper percentile set to 100. *)
Definition up_to_100 : Analyzer.config :=
  {| Analyzer.report_update_interval := 10;
     Analyzer.rtl_correction_factor := 115 # 100;
     Analyzer.percentile_low := 5;
     Analyzer.percentile_high := 100;
     Analyzer.normal_range_bins := 4 |}.

End Desk.

(** ** The rest of the report (analyze.py, lines 164-166 and 192-288)

    The text of the report is written from the numbers below; the
    formatting itself is not modelled. *)

Module Summary.
Import Analyzer.

(** [l[a:b]] on a list, for integer bounds: a negative bound counts from
    the end, and both are clamped to the list. *)
Definition clamp (n i : Z) : Z :=
  if (i <? 0)%Z then Z.max (i + n) 0 else Z.min i n.

Definition slice {A : Type} (l : list A) (a b : Z) : list A :=
  let n := Z.of_nat (length l) in
  firstn (Z.to_nat (clamp n b - clamp n a)) (skipn (Z.to_nat (clamp n a)) l).

(** [sum] on a list of floats: from 0, left to right. *)
Definition fsum (l : list Q) : Q := fold_left Qplus l 0%Q.

(** [min(a, b)]: the second argument only if it is strictly smaller. *)
Definition min2 (a b : Q) : Q := if Py.Qlt_bool b a then b else a.

(** The two thresholds of [config['thresholds']] (lines 144-145). *)
Record thresholds : Type := mkThresholds {
  clustering_threshold : Q;
  directional_difference : Q
}.

(** Lines 232-248: the key metrics, from the counters. *)
Record metrics : Type := mkMetrics {
  normal_traffic : nat;
  outliers_low : nat;
  outliers_high : nat;
  mid_point : nat;
  top_half_normal : nat;
  bottom_half_normal : nat;
  top_half_pct : Q
}.

Definition key_metrics (bin_counts : list nat) : Py.result metrics :=
  let normal_traffic := sum_list (slice bin_counts 1 (-1)) in
  outliers_low ← Py.getitem bin_counts 0;
  outliers_high ← Py.getitem bin_counts (-1);
  let mid_point := (length (slice bin_counts 1 (-1)) / 2)%nat in
  let top_half_normal :=
    sum_list (slice bin_counts (1 + Z.of_nat mid_point) (-1)) in
  let bottom_half_normal :=
    sum_list (slice bin_counts 1 (1 + Z.of_nat mid_point)) in
  top_half_pct ←
    (if (0 <? normal_traffic)%nat then
       ratio ← Py.truediv (inject_Z (Z.of_nat top_half_normal))
                          (inject_Z (Z.of_nat normal_traffic));
       mret (ratio * 100)%Q
     else mret 0%Q);
  mret {| normal_traffic := normal_traffic;
          outliers_low := outliers_low;
          outliers_high := outliers_high;
          mid_point := mid_point;
          top_half_normal := top_half_normal;
          bottom_half_normal := bottom_half_normal;
          top_half_pct := top_half_pct |}.

(** Lines 258-269: the one headline of the interpretation. *)
Inductive pattern : Type :=
| ExcessiveSpeeding
| HighSpeedClustering
| LowSpeedClustering
| EvenDistribution.

Definition interpretation (n_vehicles : nat) (m : metrics)
    (clustering_thresh : Q) : pattern :=
  if Py.Qlt_bool (inject_Z (Z.of_nat n_vehicles) * (5 # 100))%Q
                 (inject_Z (Z.of_nat (outliers_high m)))
  then ExcessiveSpeeding
  else if Py.Qlt_bool clustering_thresh (top_half_pct m)
  then HighSpeedClustering
  else if Py.Qlt_bool clustering_thresh (100 - top_half_pct m)%Q
  then LowSpeedClustering
  else EvenDistribution.

(** Lines 272-286: the comparison of the two directions, when both have
    vehicles. *)
Inductive comparison : Type :=
| Faster (d : heading) (diff_pct : Q)
| Similar.

Definition mean (l : list Q) : Py.result Q :=
  Py.truediv (fsum l) (inject_Z (Z.of_nat (length l))).

Definition directional_comparison (speeds_rtl speeds_ltr : list Q)
    (dir_diff_thresh : Q) : Py.result (option comparison) :=
  match speeds_rtl, speeds_ltr with
  | _ :: _, _ :: _ =>
      avg_rtl ← mean speeds_rtl;
      avg_ltr ← mean speeds_ltr;
      ratio ← Py.truediv (Qabs (avg_rtl - avg_ltr)) (min2 avg_rtl avg_ltr);
      let diff_pct := (ratio * 100)%Q in
      if Py.Qlt_bool dir_diff_thresh diff_pct then
        mret (Some (Faster (if Py.Qlt_bool avg_ltr avg_rtl then RTL else LTR)
                           diff_pct))
      else mret (Some Similar)
  | _, _ => mret None
  end.

(** Lines 149-150: the speeds of one direction. *)
Definition speeds_of (d : heading) (vehicles : list vehicle) : list Q :=
  map speed_normalized
      (List.filter (fun v => heading_eqb (v_direction v) d) vehicles).

(** What the report says beyond its bins. *)
Record summary : Type := mkSummary {
  actual_min : Q;
  actual_max : Q;
  mean_speed : Q;
  key : metrics;
  headline : pattern;
  directions : option comparison
}.

(** Lines 164-166 and 192-288, after the numbers of [write_report]. *)
Definition summarize (vehicles : list vehicle) (th : thresholds)
    (rep : report) : Py.result summary :=
  actual_min ← Py.getitem (sorted_speeds rep) 0;
  actual_max ← Py.getitem (sorted_speeds rep) (-1);
  mean_speed ← mean (map speed_normalized vehicles);
  key ← key_metrics (bin_counts rep);
  let headline :=
    interpretation (length vehicles) key (clustering_threshold th) in
  directions ←
    directional_comparison (speeds_of RTL vehicles) (speeds_of LTR vehicles)
                           (directional_difference th);
  mret {| actual_min := actual_min;
          actual_max := actual_max;
          mean_speed := mean_speed;
          key := key;
          headline := headline;
          directions := directions |}.

(** [write_report] as a whole: nothing for fewer than four vehicles, the
    numbers and what is said about them otherwise. *)
Definition write_whole_report (vehicles : list vehicle) (cfg : config)
    (th : thresholds) : Py.result (option (report * summary)) :=
  rep ← write_report vehicles cfg;
  match rep with
  | None => mret None
  | Some rep => s ← summarize vehicles th rep; mret (Some (rep, s))
  end.

End Summary.

(** ** Vocabulary for the properties of the two loops *)

Module Tracks.
Import Detector.

(** Line 122: the class of a row is one of the configured ones. *)
Definition allowed (cfg : config) (d : detection) : bool :=
  existsb (Z.eqb (det_cls d)) (vehicle_classes cfg).

(** A step of the script without the rows of other classes.  When the
    frame is cut short after [k] rows, the rows counted are those among
    the first [k]. *)
Definition without_other_classes (cfg : config) (s : step) : step :=
  match s with
  | Frame f abort =>
      let rows := match boxes f with Some l => l | None => [] end in
      match abort with
      | None =>
          Frame {| frame_width := frame_width f;
                   boxes := Some (List.filter (allowed cfg) rows);
                   frame_time := frame_time f |} None
      | Some (k, e) =>
          let kept := List.filter (allowed cfg) (firstn k rows) in
          Frame {| frame_width := frame_width f;
                   boxes := Some kept;
                   frame_time := frame_time f |} (Some (length kept, e))
      end
  | _ => s
  end.

Definition with_frames (w : world) (script : list step) : world :=
  {| load_model := load_model w;
     is_opened := is_opened w;
     start_time := start_time w;
     makedirs := makedirs w;
     frames := script |}.

(** [consistent st]: both dictionaries know the same tracks, every
    counted id is one of them, and the counter is the number of counted
    ids. *)
Definition consistent (st : state) : Prop :=
  dom (previous_positions st) = dom (first_seen_position st)
  /\ crossed_ids st ⊆ dom (previous_positions st)
  /\ size (crossed_ids st) = vehicle_count st.

(** The crossings dequeued by the analyzer if nothing stops it: those
    before the first [None]. *)
Fixpoint before_sentinel (queue : list item) : list crossing :=
  match queue with
  | [] => []
  | PyNone :: _ => []
  | Data c :: rest => c :: before_sentinel rest
  end.

(** [built cfg data v]: the record [v] is the one that the analyzer
    builds from the crossing [data]. *)
Definition built (cfg : Analyzer.config) (data : crossing)
    (v : Analyzer.vehicle) : Prop :=
  Analyzer.build_vehicle (Analyzer.rtl_correction_factor cfg) data = Py.Ok v.

(** The inner loop of lines 183-190 stops at bin [i] for the speed [s]. *)
Definition counted_in (bins : list (Q * Analyzer.bound)) (i : nat) (s : Q)
    : bool :=
  match Analyzer.find_bin s (length bins - 1) 0 bins with
  | Some j => (j =? i)%nat
  | None => false
  end.

End Tracks.

(** ** The analyzer in double precision

    The second embedding of [analyze.py]: the same lines, with the
    numbers as the interpreter has them.  A Python [float] is a binary64
    value and every arithmetic operation rounds to nearest; the kernel's
    primitive floats compute exactly these operations. *)

Module Num.
Import PrimFloat SpecFloat FloatOps.

(** The exceptions of this part.  [KeyboardInterrupt] and [SystemExit]
    derive from [BaseException] only. *)
Inductive exn : Type :=
| KeyboardInterrupt
| SystemExit
| ZeroDivisionError
| IndexError
| ValueError
| OverflowError
| KeyError
| OSError.

Definition is_Exception (e : exn) : bool :=
  match e with
  | KeyboardInterrupt | SystemExit => false
  | _ => true
  end.

Inductive result (A : Type) : Type :=
| Ok (a : A)
| Raise (e : exn).
Arguments Ok {A} a.
Arguments Raise {A} e.

Definition bind {A B : Type} (r : result A) (k : A -> result B) : result B :=
  match r with
  | Ok a => k a
  | Raise e => Raise e
  end.

(** Whose arithmetic a number has: the interpreter's ([float]), or
    numpy's (a numpy scalar, such as the [numpy.float32] distance that
    the detector computes from the rows of [xyxy]). *)
Inductive kind : Type :=
| Builtin
| Numpy.

(** A number: its kind and its value.  The value of a numpy scalar is
    held in double precision: that is the precision in which numpy
    computes with a single-precision scalar and a Python [float] when
    its scalar rules promote the pair to [float64] (numpy 1).  A numpy
    that keeps the pair in single precision (numpy 2) rounds the same
    results to 24 bits, which this embedding does not follow; what it
    says about the kind of a result, and about a zero divisor, holds for
    both. *)
Record number : Type := mkNumber {
  kind_of : kind;
  value : float
}.

Definition py (x : float) : number := mkNumber Builtin x.
Definition np (x : float) : number := mkNumber Numpy x.

(** The kind of the result of an operation: numpy's as soon as one of
    the operands is a numpy scalar. *)
Definition mixed (a b : kind) : kind :=
  match a, b with
  | Builtin, Builtin => Builtin
  | _, _ => Numpy
  end.

(** [float(n)] for an integer below [2^63] in magnitude, as the lengths
    and the bin numbers are: exact up to [2^53], rounded beyond. *)
Definition of_int (n : Z) : float :=
  if (n <? 0)%Z then opp (of_uint63 (Uint63.of_Z (- n)))
  else of_uint63 (Uint63.of_Z n).

Definition sub (a b : number) : number :=
  mkNumber (mixed (kind_of a) (kind_of b)) (value a - value b)%float.

Definition add (a b : number) : number :=
  mkNumber (mixed (kind_of a) (kind_of b)) (value a + value b)%float.

Definition mul (a b : number) : number :=
  mkNumber (mixed (kind_of a) (kind_of b)) (value a * value b)%float.

(** [n * x] for an integer [n]. *)
Definition int_mul (n : Z) (x : number) : number :=
  mkNumber (kind_of x) (of_int n * value x)%float.

(** [a / b].  Between two Python floats a zero divisor raises; numpy
    divides all the same (it warns) and gives an infinity or a nan. *)
Definition truediv (a b : number) : result number :=
  let k := mixed (kind_of a) (kind_of b) in
  if is_zero (value b) then
    match k with
    | Builtin => Raise ZeroDivisionError
    | Numpy => Ok (mkNumber Numpy (value a / value b)%float)
    end
  else Ok (mkNumber k (value a / value b)%float).

(** [a / n] for an integer [n]: the integer becomes a float, which is
    zero only for [n = 0]. *)
Definition div_int (a : number) (n : Z) : result number :=
  if (n =? 0)%Z then
    match kind_of a with
    | Builtin => Raise ZeroDivisionError
    | Numpy => Ok (mkNumber Numpy (value a / of_int 0)%float)
    end
  else Ok (mkNumber (kind_of a) (value a / of_int n)%float).

(** [a % b] on integers. *)
Definition mod_ (a b : Z) : result Z :=
  if (b =? 0)%Z then Raise ZeroDivisionError else Ok (a mod b)%Z.

(** [int(x)]: truncation towards zero; an infinity and a nan raise. *)
Definition int (x : float) : result Z :=
  match Prim2SF x with
  | S754_zero _ => Ok 0%Z
  | S754_finite s m e =>
      let magnitude :=
        if (0 <=? e)%Z then Z.shiftl (Zpos m) e
        else Z.shiftr (Zpos m) (- e) in
      Ok (if s then (- magnitude)%Z else magnitude)
  | S754_infinity _ => Raise OverflowError
  | S754_nan => Raise ValueError
  end.

(** [l[i]]: negative indices count from the end, anything outside
    [-len, len) raises. *)
Definition getitem {A : Type} (l : list A) (i : Z) : result A :=
  let n := Z.of_nat (length l) in
  let j := if (i <? 0)%Z then (i + n)%Z else i in
  if ((j <? 0) || (n <=? j))%Z then Raise IndexError
  else match nth_error l (Z.to_nat j) with
       | Some a => Ok a
       | None => Raise IndexError
       end.

End Num.

#[global] Instance num_result_ret : MRet Num.result := @Num.Ok.
#[global] Instance num_result_bind : MBind Num.result :=
  fun A B k r => Num.bind r k.

Module Analyzer64.
Import PrimFloat Num.

(** The part of [config] read by [analyze_stream] and by the numeric part
    of [write_report]; the numbers are those of the configuration file. *)
Record config : Type := mkConfig {
  report_update_interval : Z;
  rtl_correction_factor : float;
  percentile_low : float;
  percentile_high : float;
  normal_range_bins : nat
}.

(** The dictionary taken from the queue (lines 71-88 read its entries). *)
Record event : Type := mkEvent {
  vehicle_number : Z;
  track_id : Z;
  direction : heading;
  distance_pixels : number;
  time_elapsed : number;
  timestamp : number
}.

Inductive item : Type :=
| Data (data : event)
| PyNone.

(** The complete vehicle record of lines 80-89: the six entries copied
    from the dictionary, and the two speeds. *)
Record vehicle : Type := mkVehicle {
  data_of : event;
  speed_raw : number;
  speed_normalized : number
}.

(** Lines 70-89: the speed computation and the record built from one
    dequeued dictionary. *)
Definition build_vehicle (rtl_factor : float) (data : event)
    : result vehicle :=
  speed_raw ← truediv (distance_pixels data) (time_elapsed data);
  let speed_normalized :=
    match direction data with
    | RTL => mul speed_raw (py rtl_factor)
    | LTR => speed_raw
    end in
  mret {| data_of := data;
          speed_raw := speed_raw;
          speed_normalized := speed_normalized |}.

(** *** The numbers of the report *)

(** [sorted]: Python's sort is stable; on values that [<] orders (no
    nan among them) its result is the one stable ascending arrangement,
    which insertion gives. *)
Fixpoint insert_sorted (x : number) (l : list number) : list number :=
  match l with
  | [] => [x]
  | y :: l' =>
      if (value x <=? value y)%float then x :: l else y :: insert_sorted x l'
  end.

Fixpoint sorted (l : list number) : list number :=
  match l with
  | [] => []
  | x :: l' => insert_sorted x (sorted l')
  end.

(** [ascending a b]: the comparison [a <= b] holds. *)
Definition ascending (a b : number) : Prop :=
  (value a <=? value b)%float = true.

Definition not_nan (a : number) : Prop := is_nan (value a) = false.

(** Lines 157-158: [int(n * (p / 100))]. *)
Definition percentile_idx (n : nat) (p : float) : result Z :=
  int (of_int (Z.of_nat n) * (p / of_int 100))%float.

(** A bin: its lower and its upper edge (the labels are left out). *)
Definition bin : Type := (float * float)%type.

(** Lines 172-175: the normal bins, for [i] in [range(num_bins)]. *)
Definition normal_bin (min_speed_p bin_width : number) (i : nat) : bin :=
  (value (add min_speed_p (int_mul (Z.of_nat i) bin_width)),
   value (add min_speed_p (int_mul (Z.of_nat i + 1) bin_width))).

(** Lines 170-177. *)
Definition make_bins (min_speed_p max_speed_p bin_width : number)
    (num_bins : nat) : list bin :=
  [(of_int 0, value min_speed_p)]
  ++ map (normal_bin min_speed_p bin_width) (seq 0 num_bins)
  ++ [(value max_speed_p, infinity)].

(** Lines 184-188: the test made on a speed at position [i] of the
    list of bins; [last] is [len(bins) - 1]. *)
Definition takes (last i : nat) (b : bin) (speed : float) : bool :=
  if (i =? last)%nat then (fst b <=? speed)%float
  else (fst b <=? speed)%float && (speed <? snd b)%float.

(** Lines 183-190: the inner loop over [enumerate(bins)], from position
    [i] on.  It gives the index of the bin whose counter is incremented,
    if the loop reaches a [break]. *)
Fixpoint find_bin (speed : float) (last i : nat) (bins : list bin)
    : option nat :=
  match bins with
  | [] => None
  | b :: rest =>
      if takes last i b speed then Some i
      else find_bin speed last (S i) rest
  end.

(** The whole inner loop for one speed. *)
Definition bin_of (bins : list bin) (speed : float) : option nat :=
  find_bin speed (length bins - 1) 0 bins.

(** [assigned_to bins i speed]: the inner loop increments the counter
    of bin [i] for the speed; [assigned bins speed]: it increments one. *)
Definition assigned_to (bins : list bin) (i : nat) (speed : float) : bool :=
  match bin_of bins speed with
  | Some j => (j =? i)%nat
  | None => false
  end.

Definition assigned (bins : list bin) (speed : float) : bool :=
  match bin_of bins speed with
  | Some _ => true
  | None => false
  end.

(** Lines 180-190: the counters after the outer loop over the speeds. *)
Fixpoint count_bins (bins : list bin) (bin_counts : list nat)
    (speeds : list float) : list nat :=
  match speeds with
  | [] => bin_counts
  | speed :: rest =>
      let counts :=
        match bin_of bins speed with
        | Some i => alter S i bin_counts
        | None => bin_counts
        end in
      count_bins bins counts rest
  end.

Record report : Type := mkReport {
  sorted_speeds : list number;
  p_low_idx : Z;
  p_high_idx : Z;
  min_speed_p : number;
  max_speed_p : number;
  bin_width : number;
  bins : list bin;
  bin_counts : list nat
}.

(** Lines 136-190 of [write_report]: [None] when fewer than four
    vehicles make it return at once, the numbers otherwise.  Lines
    164-166 raise nothing for four vehicles or more and are left out. *)
Definition report_numbers (vehicles : list vehicle) (cfg : config)
    : result (option report) :=
  if (length vehicles <? 4)%nat then mret None
  else
    let num_bins := normal_range_bins cfg in
    let speeds := map speed_normalized vehicles in
    let sorted_speeds := sorted speeds in
    let n := length sorted_speeds in
    p_low_idx ← percentile_idx n (percentile_low cfg);
    p_high_idx ← percentile_idx n (percentile_high cfg);
    min_speed_p ← getitem sorted_speeds p_low_idx;
    max_speed_p ← getitem sorted_speeds p_high_idx;
    let speed_range := sub max_speed_p min_speed_p in
    bin_width ← div_int speed_range (Z.of_nat num_bins);
    let bins := make_bins min_speed_p max_speed_p bin_width num_bins in
    let bin_counts :=
      count_bins bins (repeat 0%nat (num_bins + 2)) (map value speeds) in
    mret (Some {| sorted_speeds := sorted_speeds;
                  p_low_idx := p_low_idx;
                  p_high_idx := p_high_idx;
                  min_speed_p := min_speed_p;
                  max_speed_p := max_speed_p;
                  bin_width := bin_width;
                  bins := bins;
                  bin_counts := bin_counts |}).

(** *** The function and what surrounds it

    What the files, the console and the operator do is supplied from
    outside: each field says which exception, if any, the statements
    named raise when they are reached. *)
Record world : Type := mkWorld {
  (** lines 22-55: the look-ups in [config], [os.makedirs], [open] *)
  setup : option exn;
  (** lines 93-101, for the vehicle appended as the [k]-th *)
  row_io : nat -> option exn;
  (** lines 140-145: the look-ups in [config] *)
  report_keys : option exn;
  (** lines 192-288 (and line 106 inside the loop) for a report over
      [k] vehicles, written from the [finally] clause or from the loop:
      the file, and the division of line 281 *)
  report_io : bool -> nat -> option exn;
  (** lines 117-122 *)
  close_io : option exn
}.

(** One call of [write_report]. *)
Definition write_report (w : world) (final : bool) (vehicles : list vehicle)
    (cfg : config) : result (option report) :=
  if (length vehicles <? 4)%nat then mret None
  else
    match report_keys w with
    | Some e => Raise e
    | None =>
        rep ← report_numbers vehicles cfg;
        match report_io w final (length vehicles) with
        | Some e => Raise e
        | None => mret rep
        end
    end.

(** How the [while True] loop of lines 60-106 ends. *)
Inductive loop_end : Type :=
| Sentinel
| Raised (e : exn)
| Blocks.

(** The loop, over the content of the queue; the state is the list
    [vehicles]. *)
Fixpoint analyze_loop (w : world) (cfg : config) (queue : list item)
    (vehicles : list vehicle) : list vehicle * loop_end :=
  match queue with
  | [] => (vehicles, Blocks)
  | PyNone :: _ => (vehicles, Sentinel)
  | Data data :: rest =>
      match build_vehicle (rtl_correction_factor cfg) data with
      | Raise e => (vehicles, Raised e)
      | Ok vehicle =>
          let vehicles := vehicles ++ [vehicle] in
          match row_io w (length vehicles) with
          | Some e => (vehicles, Raised e)
          | None =>
              match mod_ (Z.of_nat (length vehicles))
                         (report_update_interval cfg) with
              | Raise e => (vehicles, Raised e)
              | Ok r =>
                  if (r =? 0)%Z then
                    match write_report w false vehicles cfg with
                    | Raise e => (vehicles, Raised e)
                    | Ok _ => analyze_loop w cfg rest vehicles
                    end
                  else analyze_loop w cfg rest vehicles
              end
          end
      end
  end.

(** How [analyze_stream] ends. *)
Inductive outcome : Type :=
| Returns
| Propagates (e : exn)
| Blocked.

(** Lines 112-122: the [finally] clause, entered with the exception that
    no handler has caught, if there is one. *)
Definition finally (w : world) (cfg : config) (vehicles : list vehicle)
    (pending : option exn) : outcome :=
  let report :=
    match vehicles with
    | [] => mret None
    | _ :: _ => write_report w true vehicles cfg
    end in
  match report with
  | Raise e => Propagates e
  | Ok _ =>
      match close_io w with
      | Some e => Propagates e
      | None =>
          match pending with
          | Some e => Propagates e
          | None => Returns
          end
      end
  end.

(** [analyze_stream]: the vehicles gathered and how the function ends.
    [KeyboardInterrupt] and the subclasses of [Exception] raised in the
    loop are caught (lines 108-111). *)
Definition analyze_stream (w : world) (cfg : config) (queue : list item)
    : list vehicle * outcome :=
  match setup w with
  | Some e => ([], Propagates e)
  | None =>
      match analyze_loop w cfg queue [] with
      | (vehicles, Blocks) => (vehicles, Blocked)
      | (vehicles, Sentinel) => (vehicles, finally w cfg vehicles None)
      | (vehicles, Raised e) =>
          let caught :=
            match e with
            | KeyboardInterrupt => true
            | _ => is_Exception e
            end in
          (vehicles,
           finally w cfg vehicles (if caught then None else Some e))
      end
  end.

End Analyzer64.

(** ** Inputs used in the examples of the double-precision analyzer *)

Module Desk64.
Import PrimFloat Num Analyzer64.
#[local] Set Warnings "-inexact-float".

(** Nothing fails outside the arithmetic. *)
Definition quiet : world :=
  {| setup := None;
     row_io := fun _ => None;
     report_keys := None;
     report_io := fun _ _ => None;
     close_io := None |}.

(** Reports every ten vehicles over the percentiles 5 and 95 and four
    normal bins, with the correction factor 1.15. *)
Definition config : Analyzer64.config :=
  {| report_update_interval := 10;
     rtl_correction_factor := 1.15;
     percentile_low := 5;
     percentile_high := 95;
     normal_range_bins := 4 |}.

(** The quartiles and two normal bins. *)
Definition quartiles : Analyzer64.config :=
  {| report_update_interval := 10;
     rtl_correction_factor := 1.15;
     percentile_low := 25;
     percentile_high := 75;
     normal_range_bins := 2 |}.

(** The lower percentile 29. *)
Definition from_29 : Analyzer64.config :=
  {| report_update_interval := 10;
     rtl_correction_factor := 1.15;
     percentile_low := 29;
     percentile_high := 95;
     normal_range_bins := 4 |}.

(** A crossing of [distance] pixels in [seconds] seconds. *)
Definition crossing (d : heading) (distance seconds : number) : event :=
  {| vehicle_number := 1;
     track_id := 7;
     direction := d;
     distance_pixels := distance;
     time_elapsed := seconds;
     timestamp := py 3 |}.

(** 100 pixels in one second, as Python floats. *)
Definition rtl_100 : event := crossing RTL (py 100) (py 1).
Definition ltr_100 : event := crossing LTR (py 100) (py 1).

(** A crossing in no time: the distance as the detector computes it (a
    numpy scalar), and as a Python float. *)
Definition numpy_in_no_time : event := crossing LTR (np 50) (py 0).
Definition float_in_no_time : event := crossing LTR (py 50) (py 0).

(** A vehicle whose normalized speed is the Python float [s]. *)
Definition vehicle_of_speed (s : float) : vehicle :=
  {| data_of := crossing LTR (py s) (py 1);
     speed_raw := py s;
     speed_normalized := py s |}.

(** The speeds 0.0, 1.0, ..., 99.0. *)
Definition hundred : list vehicle :=
  map (fun i => vehicle_of_speed (of_int (Z.of_nat i))) (seq 0 100).

(** Four speeds whose upper percentile value is met by the top edge of
    the normal bins, four for which that edge rounds above it, and four
    for which it rounds below it, the third speed being that edge. *)
Definition exact_edges : list vehicle :=
  map vehicle_of_speed [10; 20; 30; 40]%float.
Definition edge_above : list vehicle :=
  map vehicle_of_speed [41.4; 60; 80; 107.7]%float.
Definition edge_below : list vehicle :=
  map vehicle_of_speed [40.7; 100; 171.89999999999998; 171.9]%float.

End Desk64.

(** * Facts about Python numbers *)

Module PyFacts.

Lemma Qlt_bool_iff (x y : Q) : Py.Qlt_bool x y = true <-> (x < y)%Q.
Proof. unfold Py.Qlt_bool, Qlt. apply Z.ltb_lt. Qed.

Lemma Qlt_bool_false_iff (x y : Q) : Py.Qlt_bool x y = false <-> (y <= x)%Q.
Proof. unfold Py.Qlt_bool, Qle. rewrite Z.ltb_ge. reflexivity. Qed.

Lemma Qle_bool_false_iff (x y : Q) : Qle_bool x y = false <-> (y < x)%Q.
Proof. unfold Qle_bool, Qlt. rewrite Z.leb_gt. reflexivity. Qed.

End PyFacts.

(** * The detector: bookkeeping of crossings *)

Module DetectorFacts.
Import Detector.

Lemma emits_refl cfg st : emits cfg st [] st.
Proof.
  split; simpl.
  - lia.
  - reflexivity.
  - reflexivity.
  - intros c [].
  - constructor.
  - intros c [].
Qed.

Lemma emits_silent cfg st st' :
  vehicle_count st' = vehicle_count st ->
  crossed_ids st' = crossed_ids st ->
  emits cfg st [] st'.
Proof.
  intros Hc Hs. split; simpl.
  - lia.
  - reflexivity.
  - rewrite Hs. reflexivity.
  - intros c [].
  - constructor.
  - intros c [].
Qed.

Lemma emits_trans cfg st out1 st1 out2 st2 :
  emits cfg st out1 st1 -> emits cfg st1 out2 st2 ->
  emits cfg st (out1 ++ out2) st2.
Proof.
  intros [C1 N1 M1 K1 D1 W1] [C2 N2 M2 K2 D2 W2]. split.
  - rewrite C2, C1, length_app. lia.
  - rewrite map_app, N1, N2, C1, length_app, seq_app.
    f_equal.
  - etransitivity; eassumption.
  - intros c Hc. apply in_app_or in Hc. destruct Hc as [Hc | Hc].
    + destruct (K1 c Hc) as [Hin Hnot]. split; [| assumption].
      apply M2, Hin.
    + destruct (K2 c Hc) as [Hin Hnot]. split; [assumption |].
      intros Habs. apply Hnot, M1, Habs.
  - rewrite map_app. apply NoDup_app. split; [assumption |].
    split; [| assumption].
    intros x Hx1 Hx2.
    apply list_elem_of_In, in_map_iff in Hx1. destruct Hx1 as (c1 & <- & Hc1).
    apply list_elem_of_In, in_map_iff in Hx2. destruct Hx2 as (c2 & E & Hc2).
    destruct (K1 c1 Hc1) as [Hin _]. destruct (K2 c2 Hc2) as [_ Hnot].
    rewrite E in Hnot. contradiction.
  - intros c Hc. apply in_app_or in Hc. destruct Hc; auto.
Qed.

(** The result of one detection: nothing is counted, or exactly one
    crossing is. *)
Lemma process_detection_cases cfg line_x now start st d :
  forall st' out,
  process_detection cfg line_x now start st d = (st', out) ->
  (out = [] /\ vehicle_count st' = vehicle_count st
            /\ crossed_ids st' = crossed_ids st)
  \/ (exists c, out = [c]
        /\ (det_track_id d ∉ crossed_ids st)
        /\ track_id c = det_track_id d
        /\ vehicle_number c = S (vehicle_count st)
        /\ vehicle_count st' = S (vehicle_count st)
        /\ crossed_ids st' = {[det_track_id d]} ∪ crossed_ids st
        /\ (min_time_before_count cfg < time_elapsed c)%Q).
Proof.
  intros st' out. unfold process_detection.
  destruct (negb _).
  { intros [= <- <-]. left. auto. }
  destruct (center (det_box d)) as [cx cy].
  destruct (previous_positions st !! det_track_id d) as [[px py] |];
    [| intros [= <- <-]; left; auto].
  destruct (_ && _) eqn:Hgate; [| intros [= <- <-]; left; auto].
  destruct (match first_seen_position st !! det_track_id d with
            | Some e => e | None => _ end) as [[fx fy] ft].
  destruct (Py.Qlt_bool _ _) eqn:Hdwell; [| intros [= <- <-]; left; auto].
  intros [= <- <-]. right. eexists. split; [reflexivity |].
  apply andb_true_iff in Hgate. destruct Hgate as [_ Hnew].
  apply bool_decide_eq_true in Hnew.
  apply PyFacts.Qlt_bool_iff in Hdwell.
  simpl. auto 10.
Qed.

Lemma process_detection_emits cfg line_x now start st d st' out :
  process_detection cfg line_x now start st d = (st', out) ->
  emits cfg st out st'.
Proof.
  intros H. apply process_detection_cases in H.
  destruct H as [(-> & Hc & Hs) | (c & -> & Hnew & Ht & Hn & Hc & Hs & Hd)].
  - apply emits_silent; assumption.
  - split; simpl.
    + lia.
    + rewrite Hn. reflexivity.
    + rewrite Hs. apply union_subseteq_r.
    + intros c' [<- | []]. rewrite Ht, Hs. split; [| assumption].
      apply elem_of_union_l, elem_of_singleton. reflexivity.
    + constructor; [intros Habs; inversion Habs | constructor].
    + intros c' [<- | []]. assumption.
Qed.

Lemma process_boxes_emits cfg line_x now start ds : forall st st' out,
  process_boxes cfg line_x now start st ds = (st', out) ->
  emits cfg st out st'.
Proof.
  induction ds as [| d ds IH]; simpl; intros st st' out H.
  - injection H as <- <-. apply emits_refl.
  - destruct (process_detection cfg line_x now start st d) as [st1 out1] eqn:H1.
    destruct (process_boxes cfg line_x now start st1 ds) as [st2 out2] eqn:H2.
    injection H as <- <-.
    eapply emits_trans; eauto using process_detection_emits.
Qed.

Lemma process_frame_emits cfg start st f abort st' out r :
  process_frame cfg start st f abort = (st', out, r) ->
  emits cfg st out st'.
Proof.
  unfold process_frame. destruct abort as [[k e] |].
  - destruct (process_boxes _ _ _ _ _ _) as [s o] eqn:H.
    intros [= <- <- <-]. eapply process_boxes_emits; eauto.
  - destruct (process_boxes _ _ _ _ _ _) as [s o] eqn:H.
    intros [= <- <- <-]. eapply process_boxes_emits; eauto.
Qed.

Lemma detection_loop_emits cfg start script : forall st st' out r,
  detection_loop cfg start st script = (st', out, r) ->
  emits cfg st out st'.
Proof.
  induction script as [| s script IH]; simpl; intros st st' out r H.
  - injection H as <- <- <-. apply emits_refl.
  - destruct s as [| f abort |].
    + injection H as <- <- <-. apply emits_refl.
    + destruct (process_frame cfg start st f abort) as [[st1 out1] [e |]] eqn:H1.
      * injection H as <- <- <-. eapply process_frame_emits; eauto.
      * destruct (detection_loop cfg start st1 script) as [[st2 out2] r2] eqn:H2.
        injection H as <- <- <-.
        eapply emits_trans; eauto using process_frame_emits.
    + injection H as <- <- <-. apply emits_refl.
Qed.

Lemma events_data out : events (map Data out ++ [PyNone]) = out.
Proof.
  induction out as [| c out IH]; simpl; [reflexivity | now rewrite IH].
Qed.

Lemma events_map_data out : events (map Data out) = out.
Proof.
  induction out as [| c out IH]; simpl; [reflexivity | now rewrite IH].
Qed.

(** Every run of the producer keeps the bookkeeping relation between the
    initial state and what it has put on the queue. *)
Lemma run_detection_emits cfg w :
  exists st', emits cfg initial_state (events (fst (run_detection cfg w))) st'.
Proof.
  unfold run_detection.
  destruct (load_model w) as [[] | e]; [| eexists; apply emits_refl].
  destruct (negb (is_opened w)); [eexists; apply emits_refl |].
  destruct (if save_frames cfg then makedirs w else Py.Ok tt) as [[] | e];
    [| eexists; apply emits_refl].
  destruct (detection_loop cfg (start_time w) initial_state (frames w))
    as [[st' out] r] eqn:Hloop.
  exists st'.
  assert (Hq : forall o : ending,
             events (fst (map Data out ++ [PyNone], o)) = out)
    by (intros o; apply events_data).
  pose proof (detection_loop_emits _ _ _ _ _ _ _ Hloop) as Hem.
  destruct r as [| e |].
  - rewrite Hq. exact Hem.
  - destruct e; simpl Py.is_Exception; cbv iota; rewrite Hq; exact Hem.
  - simpl fst. rewrite events_map_data. exact Hem.
Qed.

(** A loop whose script holds no [Sigterm] is not killed. *)
Lemma detection_loop_not_killed cfg start script : forall st st' out,
  ~ In Sigterm script ->
  detection_loop cfg start st script <> (st', out, Killed).
Proof.
  induction script as [| s script IH]; simpl; intros st st' out Hno.
  - discriminate.
  - destruct s as [| f abort |].
    + discriminate.
    + destruct (process_frame cfg start st f abort) as [[st1 out1] [e |]].
      * discriminate.
      * destruct (detection_loop cfg start st1 script) as [[st2 out2] r2] eqn:H2.
        intros [= -> <- ->].
        apply (IH st1 st' out2); [tauto | exact H2].
    + exfalso. apply Hno. left. reflexivity.
Qed.

(** Once the model is loaded and the set-up of lines 63-71 is through,
    and as long as the process is not killed, every path puts the
    sentinel exactly once, last: the closed camera, the end of the input,
    a failed read, an exception inside the loop (caught or not) and an
    interrupt inside the loop. *)
Lemma run_detection_sentinel_last cfg w :
  load_model w = Py.Ok tt ->
  (is_opened w = true -> save_frames cfg = true -> makedirs w = Py.Ok tt) ->
  ~ In Sigterm (frames w) ->
  exists out,
    fst (run_detection cfg w) = map Data out ++ [PyNone]
    /\ (is_opened w = false -> out = []).
Proof.
  intros Hload Hdir Hlive. unfold run_detection. rewrite Hload.
  destruct (is_opened w) eqn:Hopen; simpl negb; cbv iota.
  2:{ exists []. split; reflexivity. }
  assert (Hsetup : (if save_frames cfg then makedirs w else Py.Ok tt)
                   = Py.Ok tt).
  { destruct (save_frames cfg); [apply Hdir; reflexivity | reflexivity]. }
  rewrite Hsetup.
  destruct (detection_loop cfg (start_time w) initial_state (frames w))
    as [[st' out] r] eqn:Hloop.
  exists out. split; [| discriminate].
  destruct r as [| e |].
  - reflexivity.
  - destruct e; reflexivity.
  - destruct (detection_loop_not_killed _ _ _ _ _ _ Hlive Hloop).
Qed.

(** C1.  At most one crossing per track: in every run of the detector and
    for every track id, at most one of the crossings put on the queue
    carries that id.  A crossing that is put on the queue has its id in
    [crossed_ids] afterwards, and a detection whose id is already in
    [crossed_ids] puts nothing on the queue and leaves the counter and the
    set as they are. *)
Theorem at_most_one_crossing_per_track cfg w tid :
  (count_occ Z.eq_dec
     (map track_id (events (fst (run_detection cfg w)))) tid <= 1)%nat
  /\ (forall line_x now start st d st' out,
        process_detection cfg line_x now start st d = (st', out) ->
        (forall c, In c out -> track_id c ∈ crossed_ids st')
        /\ (det_track_id d ∈ crossed_ids st ->
            out = [] /\ vehicle_count st' = vehicle_count st
                     /\ crossed_ids st' = crossed_ids st)).
Proof.
  split.
  - destruct (run_detection_emits cfg w) as [st' H].
    apply List.NoDup_count_occ, NoDup_ListNoDup, (em_nodup _ _ _ _ H).
  - intros line_x now start st d st' out H. split.
    + intros c Hc.
      apply (em_marked _ _ _ _ (process_detection_emits _ _ _ _ _ _ _ _ H) c Hc).
    + intros Hin. apply process_detection_cases in H.
      destruct H as [H | (c & _ & Hnew & _)]; [assumption | contradiction].
Qed.

(** C6.  Sequential numbering: in every run of the detector that puts K
    crossings on the queue, their vehicle numbers are 1, 2, ..., K in the
    order in which they were put. *)
Theorem vehicle_numbers_sequential cfg w :
  let out := events (fst (run_detection cfg w)) in
  map vehicle_number out = seq 1 (length out).
Proof.
  intros out. destruct (run_detection_emits cfg w) as [st' H].
  apply (em_numbers _ _ _ _ H).
Qed.

(** Every crossing put on the queue has waited longer than the configured
    minimum, so its elapsed time is positive when that minimum is not
    negative. *)
Lemma run_detection_dwell cfg w c :
  In c (events (fst (run_detection cfg w))) ->
  (min_time_before_count cfg < time_elapsed c)%Q.
Proof.
  destruct (run_detection_emits cfg w) as [st' H].
  apply (em_dwell _ _ _ _ H).
Qed.

(** ** Reachable states *)

(** The two dictionaries after a detection of an allowed class. *)
Lemma process_detection_maps cfg line_x now start st d :
  existsb (Z.eqb (det_cls d)) (vehicle_classes cfg) = true ->
  let st' := fst (process_detection cfg line_x now start st d) in
  previous_positions st'
  = <[det_track_id d := center (det_box d)]> (previous_positions st)
  /\ first_seen_position st'
     = match first_seen_position st !! det_track_id d with
       | None => <[det_track_id d :=
                     (fst (center (det_box d)), snd (center (det_box d)), now)]>
                   (first_seen_position st)
       | Some _ => first_seen_position st
       end.
Proof.
  intros Hcls st'. subst st'. unfold process_detection. rewrite Hcls.
  simpl negb. cbv iota.
  destruct (center (det_box d)) as [cx cy]. simpl fst. simpl snd.
  destruct (previous_positions st !! det_track_id d) as [[px py] |];
    [| split; reflexivity].
  destruct (_ && _); [| split; reflexivity].
  destruct (match first_seen_position st !! det_track_id d with
            | Some e => e | None => _ end) as [[fx fy] ft].
  destruct (Py.Qlt_bool _ _); split; reflexivity.
Qed.

Lemma process_detection_anchored cfg line_x now start st d :
  anchored st -> anchored (fst (process_detection cfg line_x now start st d)).
Proof.
  intros Hst.
  destruct (existsb (Z.eqb (det_cls d)) (vehicle_classes cfg)) eqn:Hcls.
  2:{ unfold process_detection. rewrite Hcls. exact Hst. }
  destruct (process_detection_maps cfg line_x now start st d Hcls) as [Hp Hf].
  intros tid. rewrite Hp, Hf.
  destruct (decide (det_track_id d = tid)) as [<- | Hne].
  - intros _. destruct (first_seen_position st !! det_track_id d) eqn:E.
    + rewrite E. eauto.
    + rewrite lookup_insert_eq. eauto.
  - rewrite lookup_insert_ne by exact Hne. intros Hprev.
    destruct (first_seen_position st !! det_track_id d).
    + apply Hst, Hprev.
    + rewrite lookup_insert_ne by exact Hne. apply Hst, Hprev.
Qed.

Lemma process_boxes_anchored cfg line_x now start ds : forall st,
  anchored st -> anchored (fst (process_boxes cfg line_x now start st ds)).
Proof.
  induction ds as [| d ds IH]; simpl; intros st Hst; [exact Hst |].
  pose proof (process_detection_anchored cfg line_x now start st d Hst) as H1.
  destruct (process_detection cfg line_x now start st d) as [st1 out1].
  specialize (IH st1 H1).
  destruct (process_boxes cfg line_x now start st1 ds) as [st2 out2].
  exact IH.
Qed.

(** Every state that the loop reaches from the initial one is anchored:
    the first-seen entry that the dwell test reads is there. *)
Lemma detection_loop_anchored cfg start script : forall st,
  anchored st -> anchored (fst (fst (detection_loop cfg start st script))).
Proof.
  induction script as [| s script IH]; simpl; intros st Hst; [exact Hst |].
  destruct s as [| f abort |]; [exact Hst | | exact Hst].
  assert (H1 : anchored (fst (fst (process_frame cfg start st f abort)))).
  { unfold process_frame. destruct abort as [[k e] |]; simpl;
      apply process_boxes_anchored, Hst. }
  destruct (process_frame cfg start st f abort) as [[st1 out1] [e |]];
    [exact H1 |].
  specialize (IH st1 H1).
  destruct (detection_loop cfg start st1 script) as [[st2 out2] r2].
  exact IH.
Qed.

Lemma initial_state_anchored : anchored initial_state.
Proof. intros tid [x Hx]. discriminate. Qed.

(** C2.  Dwell threshold: when a detection of an allowed class crosses the
    line and its track is not yet counted, a crossing is put on the queue
    if and only if the time elapsed since the track was first seen is
    strictly greater than the configured minimum.  If it is, the counter
    goes up by one and the id enters [crossed_ids]; if it is equal to or
    below the minimum, nothing is put, the counter keeps its value and the
    id stays out of [crossed_ids]. *)
Theorem dwell_threshold_gate cfg line_x now start st d
    prev_x prev_y first_x first_y first_time st' out :
  existsb (Z.eqb (det_cls d)) (vehicle_classes cfg) = true ->
  previous_positions st !! det_track_id d = Some (prev_x, prev_y) ->
  first_seen_position st !! det_track_id d
    = Some (first_x, first_y, first_time) ->
  crossed_right prev_x line_x (fst (center (det_box d)))
  || crossed_left prev_x line_x (fst (center (det_box d))) = true ->
  det_track_id d ∉ crossed_ids st ->
  process_detection cfg line_x now start st d = (st', out) ->
  let elapsed := (now - first_time)%Q in
  (out <> [] <-> (min_time_before_count cfg < elapsed)%Q)
  /\ ((min_time_before_count cfg < elapsed)%Q ->
      exists c, out = [c]
        /\ track_id c = det_track_id d
        /\ time_elapsed c = elapsed
        /\ vehicle_number c = S (vehicle_count st)
        /\ vehicle_count st' = S (vehicle_count st)
        /\ crossed_ids st' = {[det_track_id d]} ∪ crossed_ids st)
  /\ ((elapsed <= min_time_before_count cfg)%Q ->
      out = []
      /\ vehicle_count st' = vehicle_count st
      /\ crossed_ids st' = crossed_ids st
      /\ det_track_id d ∉ crossed_ids st').
Proof.
  intros Hcls Hprev Hfirst Hcross Hnew Hrun elapsed.
  unfold process_detection in Hrun.
  rewrite Hcls in Hrun. simpl negb in Hrun. cbv iota in Hrun.
  destruct (center (det_box d)) as [cx cy]. simpl fst in Hcross.
  rewrite Hprev, Hfirst, Hcross in Hrun.
  rewrite (bool_decide_eq_true_2 _ Hnew) in Hrun.
  simpl andb in Hrun. cbv iota in Hrun.
  fold elapsed in Hrun.
  destruct (Py.Qlt_bool (min_time_before_count cfg) elapsed) eqn:Hdwell;
    injection Hrun as <- <-.
  - apply PyFacts.Qlt_bool_iff in Hdwell. split; [| split].
    + split; [intros _; assumption | discriminate].
    + intros _. eexists. split; [reflexivity |]. simpl. auto 10.
    + intros Hle. exfalso. apply (Qlt_not_le _ _ Hdwell Hle).
  - apply PyFacts.Qlt_bool_false_iff in Hdwell. split; [| split].
    + split; [intros H; now contradiction H |].
      intros Hlt. exfalso. apply (Qlt_not_le _ _ Hlt Hdwell).
    + intros Hlt. exfalso. apply (Qlt_not_le _ _ Hlt Hdwell).
    + intros _. simpl. auto.
Qed.

Lemma dwell_threshold_gate_witness :
  let r := process_detection Scene.config 100 (1 # 2) 0 Scene.seen_at_90
             (Scene.vehicle_at 1 110) in
  snd r = [] /\ vehicle_count (fst r) = 0%nat /\ crossed_ids (fst r) = ∅.
Proof.
  intros r.
  destruct (dwell_threshold_gate Scene.config 100 (1 # 2) 0 Scene.seen_at_90
              (Scene.vehicle_at 1 110) 90 10 90 10 0 (fst r) (snd r))
    as (_ & _ & Hlow).
  - reflexivity.
  - reflexivity.
  - reflexivity.
  - reflexivity.
  - apply not_elem_of_empty.
  - unfold r. apply surjective_pairing.
  - destruct Hlow as (H1 & H2 & H3 & _).
    + unfold Qle; simpl; lia.
    + auto.
Defined.

(** A track that crosses too early is not counted and stays out of
    [crossed_ids]: when it crosses again after the minimum time, that
    crossing is counted (here the return crossing, right to left). *)
Example suppressed_crossing_counts_later :
  map (fun c => (vehicle_number c, track_id c, direction c))
      (events (fst (run_detection Scene.config
         (Scene.camera [Scene.frame_at 0 [Scene.vehicle_at 1 90];
                        Scene.frame_at (1 # 4) [Scene.vehicle_at 1 110];
                        Scene.frame_at 1 [Scene.vehicle_at 1 90]]))))
  = [(1%nat, 1, RTL)].
Proof. vm_compute. reflexivity. Qed.

Lemma crossed_right_iff prev_x line_x center_x :
  crossed_right prev_x line_x center_x = true
  <-> (prev_x < inject_Z line_x /\ inject_Z line_x <= center_x)%Q.
Proof.
  unfold crossed_right.
  rewrite andb_true_iff, PyFacts.Qlt_bool_iff, Qle_bool_iff. reflexivity.
Qed.

Lemma crossed_left_iff prev_x line_x center_x :
  crossed_left prev_x line_x center_x = true
  <-> (inject_Z line_x < prev_x /\ center_x <= inject_Z line_x)%Q.
Proof.
  unfold crossed_left.
  rewrite andb_true_iff, PyFacts.Qlt_bool_iff, Qle_bool_iff. reflexivity.
Qed.

(** A move cannot cross the line in both directions. *)
Lemma crossed_exclusive prev_x line_x center_x :
  crossed_right prev_x line_x center_x = true ->
  crossed_left prev_x line_x center_x = true -> False.
Proof.
  rewrite crossed_right_iff, crossed_left_iff. intros [H1 _] [H2 _].
  apply (Qlt_irrefl prev_x). eapply Qlt_trans; eassumption.
Qed.

(** C3.  The crossing test: for a detection with centre [x] and a track
    last seen at [prev_x], [crossed_right] (left to right) holds iff
    [prev_x < line_x <= x] and [crossed_left] (right to left) holds iff
    [prev_x > line_x >= x].  A crossing that is put on the queue comes
    from a track with a previous position, and its direction is LTR
    exactly when [crossed_right] holds and RTL exactly when [crossed_left]
    holds.  A track without a previous position, or a move for which
    neither test holds, puts nothing on the queue.  With the line at 100,
    the move 90 to 110 is counted as LTR, 110 to 90 as RTL, and 90 to 95
    is not counted. *)
Theorem crossing_test_directions cfg line_x now start st d :
  let x := fst (center (det_box d)) in
  let previous := previous_positions st !! det_track_id d in
  let out := snd (process_detection cfg line_x now start st d) in
  (forall prev_x,
      crossed_right prev_x line_x x = true
      <-> (prev_x < inject_Z line_x /\ inject_Z line_x <= x)%Q)
  /\ (forall prev_x,
      crossed_left prev_x line_x x = true
      <-> (inject_Z line_x < prev_x /\ x <= inject_Z line_x)%Q)
  /\ (forall c, In c out ->
      exists prev_x prev_y,
        previous = Some (prev_x, prev_y)
        /\ (direction c = LTR
            <-> crossed_right prev_x line_x x = true)
        /\ (direction c = RTL
            <-> crossed_left prev_x line_x x = true))
  /\ (previous = None -> out = [])
  /\ (forall prev_x prev_y,
      previous = Some (prev_x, prev_y) ->
      crossed_right prev_x line_x x = false ->
      crossed_left prev_x line_x x = false ->
      out = [])
  /\ line_of Scene.config (mkFrame 200 None 0) = 100
  /\ Scene.directions Scene.config
       (Scene.camera [Scene.frame_at 0 [Scene.vehicle_at 1 90];
                      Scene.frame_at 1 [Scene.vehicle_at 1 110]]) = [LTR]
  /\ Scene.directions Scene.config
       (Scene.camera [Scene.frame_at 0 [Scene.vehicle_at 1 110];
                      Scene.frame_at 1 [Scene.vehicle_at 1 90]]) = [RTL]
  /\ Scene.directions Scene.config
       (Scene.camera [Scene.frame_at 0 [Scene.vehicle_at 1 90];
                      Scene.frame_at 1 [Scene.vehicle_at 1 95]]) = [].
Proof.
  intros x previous out.
  split; [intros; apply crossed_right_iff |].
  split; [intros; apply crossed_left_iff |].
  assert (Hout : out = snd (process_detection cfg line_x now start st d))
    by reflexivity.
  clearbody out. unfold process_detection in Hout.
  destruct (negb _) in Hout.
  { subst out. repeat split; try reflexivity; try (intros c []). }
  subst x. destruct (center (det_box d)) as [cx cy]. simpl fst.
  subst previous.
  destruct (previous_positions st !! det_track_id d) as [[px py] |].
  2:{ subst out. repeat split; try reflexivity; try discriminate.
      intros c []. }
  destruct (crossed_right px line_x cx) eqn:Hr;
    destruct (crossed_left px line_x cx) eqn:Hl.
  - destruct (crossed_exclusive _ _ _ Hr Hl).
  - split; [| split; [discriminate | split; [intros ? ? [= <- _]; congruence |]]];
      [| repeat split; reflexivity].
    intros c Hc. exists px, py. split; [reflexivity |]. rewrite Hr, Hl.
    revert Hc. subst out. simpl orb. simpl andb.
    destruct (bool_decide _); [| intros []].
    destruct (match first_seen_position st !! det_track_id d with
              | Some e => e | None => _ end) as [[fx fy] ft].
    destruct (Py.Qlt_bool _ _); [| intros []].
    intros [<- | []]. simpl. split; split; congruence.
  - split; [| split; [discriminate | split; [intros ? ? [= <- _]; congruence |]]];
      [| repeat split; reflexivity].
    intros c Hc. exists px, py. split; [reflexivity |]. rewrite Hr, Hl.
    revert Hc. subst out. simpl orb. simpl andb.
    destruct (bool_decide _); [| intros []].
    destruct (match first_seen_position st !! det_track_id d with
              | Some e => e | None => _ end) as [[fx fy] ft].
    destruct (Py.Qlt_bool _ _); [| intros []].
    intros [<- | []]. simpl. split; split; congruence.
  - subst out. simpl.
    split; [intros c [] |].
    split; [discriminate |].
    split; [reflexivity |].
    repeat split; reflexivity.
Qed.

(** C7.  Paths of the producer on which no sentinel is put.  An
    exception raised by the set-up outside the [try] statement leaves
    [run_detection] with nothing on the queue: when the directory for the
    saved frames cannot be made (line 68, camera already open) and when
    the model does not load (line 28).  When the coordinator stops the
    producer, the queue holds the crossings put so far and no sentinel. *)
Theorem paths_without_sentinel :
  run_detection Scene.saving_config
    (Scene.camera_without_directory
       [Scene.frame_at 0 [Scene.vehicle_at 1 90]])
  = ([], Propagates Py.OSError)
  /\ run_detection Scene.config
       {| load_model := Py.Raise Py.RuntimeError;
          is_opened := true;
          start_time := 0%Q;
          makedirs := Py.Ok tt;
          frames := [Scene.frame_at 0 [Scene.vehicle_at 1 90]] |}
     = ([], Propagates Py.RuntimeError)
  /\ (exists c,
        run_detection Scene.config
          (Scene.camera [Scene.frame_at 0 [Scene.vehicle_at 1 90];
                         Scene.frame_at 1 [Scene.vehicle_at 1 110];
                         Sigterm])
        = ([Data c], Dies)).
Proof.
  split; [reflexivity | split; [reflexivity |]].
  eexists. reflexivity.
Qed.

(** The paths on which the sentinel is the one and last item: a camera
    that does not open; a read that fails; an exception and an interrupt
    in the middle of a frame. *)
Example sentinel_paths :
  run_detection Scene.config
    {| load_model := Py.Ok tt; is_opened := false; start_time := 0%Q;
       makedirs := Py.Ok tt;
       frames := [Scene.frame_at 0 [Scene.vehicle_at 1 90]] |}
  = ([PyNone], Returns)
  /\ run_detection Scene.config
       (Scene.camera [ReadFails; Scene.frame_at 0 [Scene.vehicle_at 1 90]])
     = ([PyNone], Returns)
  /\ (forall e,
        fst (run_detection Scene.config
               (Scene.camera
                  [Frame (mkFrame 200 (Some [Scene.vehicle_at 1 90]) 0)
                         (Some (1%nat, e))]))
        = [PyNone]).
Proof.
  split; [reflexivity | split; [reflexivity |]].
  intros e. destruct e; reflexivity.
Qed.

End DetectorFacts.

(** * The analyzer *)

Module AnalyzerFacts.
Import Analyzer.

(** ** Indexing *)

Lemma getitem_in_range {A : Type} (l : list A) (i : Z) :
  0 <= i < Z.of_nat (length l) ->
  exists a, Py.getitem l i = Py.Ok a /\ nth_error l (Z.to_nat i) = Some a.
Proof.
  intros [H0 Hn]. unfold Py.getitem.
  destruct (Z.ltb_spec i 0) as [? | _]; [lia |].
  destruct (Z.ltb_spec i 0) as [? | _]; [lia |].
  destruct (Z.leb_spec (Z.of_nat (length l)) i) as [? | _]; [lia |].
  simpl orb. cbv iota.
  destruct (nth_error l (Z.to_nat i)) as [a |] eqn:Hnth.
  - exists a. split; reflexivity.
  - apply nth_error_None in Hnth. lia.
Qed.

Lemma getitem_length {A : Type} (l : list A) :
  Py.getitem l (Z.of_nat (length l)) = Py.Raise Py.IndexError.
Proof.
  unfold Py.getitem.
  destruct (Z.ltb_spec (Z.of_nat (length l)) 0) as [? | _]; [lia |].
  destruct (Z.ltb_spec (Z.of_nat (length l)) 0) as [? | _]; [lia |].
  rewrite Z.leb_refl. reflexivity.
Qed.

(** Indexing a list raises nothing but [IndexError]. *)
Lemma getitem_raises {A : Type} (l : list A) (i : Z) e :
  Py.getitem l i = Py.Raise e -> e = Py.IndexError.
Proof.
  unfold Py.getitem. destruct (_ || _); [congruence |].
  destruct (nth_error _ _); congruence.
Qed.

(** ** The percentile index *)

Lemma percentile_fraction (p : Q) :
  ((0 <= p -> 0 <= p / 100) /\ (p < 100 -> p / 100 < 1))%Q.
Proof.
  assert (E : (p == p / 100 * 100)%Q) by field.
  set (y := (p / 100)%Q) in *. split; intros H; lra.
Qed.

Lemma percentile_scaled_bounds (n : nat) (p : Q) :
  (0 <= p)%Q -> (p < 100)%Q -> (1 <= n)%nat ->
  (0 <= inject_Z (Z.of_nat n) * (p / 100))%Q
  /\ (inject_Z (Z.of_nat n) * (p / 100) < inject_Z (Z.of_nat n))%Q.
Proof.
  intros H0 H100 Hn.
  assert (Hpos : (0 < inject_Z (Z.of_nat n))%Q).
  { rewrite <- (Zlt_Qlt 0). lia. }
  assert (Hy0 : (0 <= p / 100)%Q) by (apply percentile_fraction, H0).
  assert (Hy1 : (p / 100 < 1)%Q) by (apply percentile_fraction, H100).
  split.
  - apply Qmult_le_0_compat; [apply Qlt_le_weak, Hpos | exact Hy0].
  - rewrite <- (Qmult_1_r (inject_Z (Z.of_nat n))) at 2.
    apply Qmult_lt_l; assumption.
Qed.

(** On a percentile that is not negative, [int] is the floor and the
    index is [floor (n * p / 100)]. *)
Lemma percentile_idx_floor (n : nat) (p : Q) :
  (0 <= p)%Q ->
  percentile_idx n p = Qfloor (inject_Z (Z.of_nat n) * p / 100).
Proof.
  intros H0. unfold percentile_idx, Py.int.
  assert (Hx : (0 <= inject_Z (Z.of_nat n) * (p / 100))%Q).
  { apply Qmult_le_0_compat;
      [rewrite <- (Zle_Qle 0); lia | apply percentile_fraction, H0]. }
  apply Qle_bool_iff in Hx. rewrite Hx.
  apply Qfloor_comp. field.
Qed.

Lemma percentile_idx_bounds (n : nat) (p : Q) :
  (1 <= n)%nat -> (0 <= p)%Q -> (p < 100)%Q ->
  0 <= percentile_idx n p <= Z.of_nat n - 1.
Proof.
  intros Hn H0 H100.
  destruct (percentile_scaled_bounds n p H0 H100 Hn) as [Hlo Hhi].
  unfold percentile_idx, Py.int.
  rewrite (proj2 (Qle_bool_iff _ _) Hlo).
  split.
  - change 0 with (Qfloor 0). apply Qfloor_resp_le, Hlo.
  - assert (H : (inject_Z (Qfloor (inject_Z (Z.of_nat n) * (p / 100)))
                 < inject_Z (Z.of_nat n))%Q).
    { eapply Qle_lt_trans; [apply Qfloor_le | exact Hhi]. }
    rewrite <- Zlt_Qlt in H. lia.
Qed.

Lemma percentile_idx_100 (n : nat) : percentile_idx n 100 = Z.of_nat n.
Proof.
  unfold percentile_idx, Py.int.
  assert (E : (inject_Z (Z.of_nat n) * (100 / 100) == inject_Z (Z.of_nat n))%Q)
    by field.
  assert (Hx : (0 <= inject_Z (Z.of_nat n) * (100 / 100))%Q).
  { rewrite E, <- (Zle_Qle 0). lia. }
  rewrite (proj2 (Qle_bool_iff _ _) Hx).
  rewrite (Qfloor_comp _ _ E). apply Qfloor_Z.
Qed.

Lemma percentile_idx_mono (n : nat) (p q : Q) :
  (0 <= p)%Q -> (p <= q)%Q -> percentile_idx n p <= percentile_idx n q.
Proof.
  intros H0 Hpq.
  rewrite !percentile_idx_floor by lra.
  apply Qfloor_resp_le.
  assert (Hn : (0 <= inject_Z (Z.of_nat n))%Q) by (rewrite <- (Zle_Qle 0); lia).
  unfold Qdiv. apply Qmult_le_compat_r; [| discriminate].
  rewrite !(Qmult_comm (inject_Z (Z.of_nat n))).
  apply Qmult_le_compat_r; assumption.
Qed.

Lemma percentile_idx_comp (n : nat) (p q : Q) :
  (p == q)%Q -> percentile_idx n p = percentile_idx n q.
Proof.
  intros E. unfold percentile_idx, Py.int.
  assert (Ex : (inject_Z (Z.of_nat n) * (p / 100)
                == inject_Z (Z.of_nat n) * (q / 100))%Q) by (rewrite E; reflexivity).
  destruct (Qle_bool 0 (inject_Z (Z.of_nat n) * (p / 100))) eqn:Hp.
  - apply Qle_bool_iff in Hp. rewrite Ex in Hp. apply Qle_bool_iff in Hp.
    rewrite Hp. apply Qfloor_comp, Ex.
  - apply PyFacts.Qle_bool_false_iff in Hp. rewrite Ex in Hp.
    apply PyFacts.Qle_bool_false_iff in Hp. rewrite Hp.
    apply Qceiling_comp, Ex.
Qed.

(** ** Sorting *)

Lemma insert_sorted_perm x l : Permutation (x :: l) (insert_sorted x l).
Proof.
  induction l as [| y l IH]; simpl; [reflexivity |].
  destruct (Qle_bool x y); [reflexivity |].
  rewrite perm_swap. apply perm_skip, IH.
Qed.

Lemma sorted_perm l : Permutation l (sorted l).
Proof.
  induction l as [| x l IH]; simpl; [reflexivity |].
  rewrite <- insert_sorted_perm. apply perm_skip, IH.
Qed.

Lemma sorted_length l : length (sorted l) = length l.
Proof. symmetry. apply Permutation_length, sorted_perm. Qed.

Lemma insert_sorted_Sorted x l :
  Sorted Qle l -> Sorted Qle (insert_sorted x l).
Proof.
  induction 1 as [| y l Hl IH Hy]; simpl.
  - repeat constructor.
  - destruct (Qle_bool x y) eqn:Hxy.
    + apply Qle_bool_iff in Hxy. repeat constructor; assumption.
    + apply PyFacts.Qle_bool_false_iff, Qlt_le_weak in Hxy.
      constructor; [assumption |].
      destruct l as [| z l]; simpl.
      * constructor. assumption.
      * destruct (Qle_bool x z); constructor; [assumption |].
        inversion Hy. assumption.
Qed.

Lemma sorted_Sorted l : Sorted Qle (sorted l).
Proof.
  induction l as [| x l IH]; simpl; [constructor |].
  apply insert_sorted_Sorted, IH.
Qed.

(** In an ascending list the elements grow with the index. *)
Lemma Sorted_nth_le l : Sorted Qle l ->
  forall i j a b, (i <= j)%nat ->
  nth_error l i = Some a -> nth_error l j = Some b -> (a <= b)%Q.
Proof.
  intros Hs. apply Sorted_StronglySorted in Hs; [| exact Qle_trans].
  induction Hs as [| x l Hl IH Hx]; intros i j a b Hij Hi Hj.
  - destruct i; discriminate.
  - destruct i as [| i], j as [| j]; simpl in *.
    + injection Hi as <-. injection Hj as <-. apply Qle_refl.
    + injection Hi as <-. rewrite List.Forall_forall in Hx.
      apply Hx. eapply nth_error_In, Hj.
    + lia.
    + eapply IH; [| eassumption | eassumption]. lia.
Qed.

(** ** Records built by the receive loop *)

Lemma build_vehicle_ok rtl_factor data v :
  build_vehicle rtl_factor data = Py.Ok v ->
  speed_raw v = (v_distance_pixels v / v_time_elapsed v)%Q
  /\ speed_normalized v
     = match v_direction v with
       | RTL => (speed_raw v * rtl_factor)%Q
       | LTR => speed_raw v
       end
  /\ ~ (v_time_elapsed v == 0)%Q
  /\ v_distance_pixels v = distance_pixels data
  /\ v_time_elapsed v = time_elapsed data
  /\ v_direction v = direction data
  /\ v_vehicle_number v = vehicle_number data.
Proof.
  unfold build_vehicle, Py.truediv.
  destruct (Qeq_bool (time_elapsed data) 0) eqn:Hz; [discriminate |].
  apply Qeq_bool_neq in Hz.
  cbn. intros [= <-]. simpl.
  destruct (direction data); simpl; auto 10.
Qed.

Lemma analyze_loop_built cfg queue : forall vs file vs' file' e,
  analyze_loop cfg queue vs file = (vs', file', e) ->
  forall v, In v vs' ->
  In v vs \/ exists data, In (Data data) queue
      /\ build_vehicle (rtl_correction_factor cfg) data = Py.Ok v.
Proof.
  induction queue as [| it queue IH]; simpl; intros vs file vs' file' e H v Hv.
  - injection H as <- <- <-. auto.
  - destruct it as [data |]; [| injection H as <- <- <-; auto].
    destruct (build_vehicle (rtl_correction_factor cfg) data) as [v0 | e0] eqn:Hb;
      [| injection H as <- <- <-; auto].
    assert (Hnext : forall file0,
              analyze_loop cfg queue (vs ++ [v0]) file0 = (vs', file', e) ->
              In v vs \/ exists data0, (Data data = Data data0 \/ In (Data data0) queue)
                /\ build_vehicle (rtl_correction_factor cfg) data0 = Py.Ok v).
    { intros file0 Hl. destruct (IH _ _ _ _ _ Hl v Hv) as [Hin | (d0 & Hd0 & Hb0)].
      - apply in_app_or in Hin. destruct Hin as [Hin | [<- | []]]; eauto.
      - eauto. }
    assert (Hlast : In v (vs ++ [v0]) ->
              In v vs \/ exists data0,
                (Data data = Data data0 \/ In (Data data0) queue)
                /\ build_vehicle (rtl_correction_factor cfg) data0 = Py.Ok v).
    { intros Hin. apply in_app_or in Hin.
      destruct Hin as [Hin | [<- | []]]; eauto. }
    destruct (Py.mod_ _ _) as [r | e1].
    + destruct (r =? 0).
      * destruct (write_report (vs ++ [v0]) cfg) as [[rep |] | e2]; eauto.
        injection H as <- <- <-. auto.
      * eauto.
    + injection H as <- <- <-. auto.
Qed.

Lemma analyze_stream_vehicles cfg queue :
  fst (fst (analyze_stream cfg queue))
  = fst (fst (analyze_loop cfg queue [] None)).
Proof.
  unfold analyze_stream.
  destruct (analyze_loop cfg queue [] None) as [[vs file] e]. simpl.
  destruct e; try reflexivity;
    (destruct vs; [reflexivity |]);
    destruct (write_report _ cfg) as [[rep |] | e']; reflexivity.
Qed.

Lemma build_vehicle_positive rtl_factor data :
  (0 < time_elapsed data)%Q ->
  exists v, build_vehicle rtl_factor data = Py.Ok v.
Proof.
  unfold build_vehicle, Py.truediv. intros Hpos.
  destruct (Qeq_bool (time_elapsed data) 0) eqn:Hz.
  - apply Qeq_bool_iff in Hz. rewrite Hz in Hpos.
    destruct (Qlt_irrefl _ Hpos).
  - eexists. reflexivity.
Qed.

(** What the detector puts on the queue never divides by zero when the
    configured minimum time is not negative. *)
Lemma detector_crossings_have_speeds dcfg w rtl_factor c :
  (0 <= Detector.min_time_before_count dcfg)%Q ->
  In c (events (fst (Detector.run_detection dcfg w))) ->
  exists v, build_vehicle rtl_factor c = Py.Ok v.
Proof.
  intros Hmin Hc. apply build_vehicle_positive.
  eapply Qle_lt_trans; [exact Hmin |].
  eapply DetectorFacts.run_detection_dwell; exact Hc.
Qed.

(** ** The percentile lookups of the report *)

(** With percentiles in [0, 100) both lookups succeed, at the index
    [floor (n * p / 100)] of the ascending list. *)
Lemma percentile_lookup (speeds : list Q) (p : Q) :
  (1 <= length speeds)%nat -> (0 <= p)%Q -> (p < 100)%Q ->
  let idx := percentile_idx (length (sorted speeds)) p in
  exists a,
    Py.getitem (sorted speeds) idx = Py.Ok a
    /\ nth_error (sorted speeds) (Z.to_nat idx) = Some a
    /\ idx = Qfloor (inject_Z (Z.of_nat (length speeds)) * p / 100)
    /\ 0 <= idx <= Z.of_nat (length speeds) - 1.
Proof.
  intros Hn H0 H100 idx. subst idx. rewrite sorted_length.
  pose proof (percentile_idx_bounds _ _ Hn H0 H100) as Hb.
  destruct (getitem_in_range (sorted speeds) (percentile_idx (length speeds) p))
    as (a & Hget & Hnth).
  { rewrite sorted_length. lia. }
  exists a. repeat split; try assumption; try lia.
  apply percentile_idx_floor, H0.
Qed.

Lemma write_report_percentile_100 vehicles cfg :
  (4 <= length vehicles)%nat ->
  (percentile_high cfg == 100)%Q ->
  write_report vehicles cfg = Py.Raise Py.IndexError.
Proof.
  intros Hlen Hp. unfold write_report.
  destruct (Nat.ltb_spec (length vehicles) 4) as [? | _]; [lia |].
  rewrite (percentile_idx_comp _ _ _ Hp), percentile_idx_100, getitem_length.
  destruct (Py.getitem _ _) as [a | e] eqn:Hlow; cbn.
  - reflexivity.
  - rewrite (getitem_raises _ _ _ Hlow). reflexivity.
Qed.



(** ** The bins of the report *)

Lemma find_bin_cons s last i low high rest :
  find_bin s last i ((low, high) :: rest)
  = if (i =? last)%nat then
      if Qle_bool low s then Some i else find_bin s last (S i) rest
    else if Qle_bool low s && below s high then Some i
    else find_bin s last (S i) rest.
Proof. reflexivity. Qed.

Section Bins.

(** The percentile values, the number of normal bins and their width. *)
Variables (lo hi : Q) (k : nat).
Hypothesis lo_le_hi : (lo <= hi)%Q.
Hypothesis k_positive : k <> 0%nat.

Let w : Q := ((hi - lo) / inject_Z (Z.of_nat k))%Q.
Let last : nat := S k.

Lemma width_nonneg : (0 <= w)%Q.
Proof.
  unfold w. apply Qle_shift_div_l.
  - rewrite <- (Zlt_Qlt 0). lia.
  - lra.
Qed.

Lemma normal_bins_reach_hi : (lo + inject_Z (Z.of_nat k) * w == hi)%Q.
Proof.
  unfold w. field. intros Hz. unfold Qeq in Hz. simpl in Hz. lia.
Qed.

Lemma normal_low_mono (i j : nat) :
  (i <= j)%nat ->
  (lo + inject_Z (Z.of_nat i) * w <= lo + inject_Z (Z.of_nat j) * w)%Q.
Proof.
  intros Hij. pose proof width_nonneg as Hw.
  assert (H : (inject_Z (Z.of_nat i) <= inject_Z (Z.of_nat j))%Q)
    by (rewrite <- Zle_Qle; lia).
  nra.
Qed.

Lemma normal_bin_low (i : nat) :
  fst (normal_bin lo w i) = (lo + inject_Z (Z.of_nat i) * w)%Q.
Proof. reflexivity. Qed.

Lemma normal_bin_high (i : nat) :
  snd (normal_bin lo w i)
  = Finite (lo + inject_Z (Z.of_nat (S i)) * w)%Q.
Proof.
  unfold normal_bin. simpl snd. rewrite Nat2Z.inj_succ. reflexivity.
Qed.

Lemma within_normal_bin (i : nat) (s : Q) :
  within (normal_bin lo w i) s
  <-> (lo + inject_Z (Z.of_nat i) * w <= s
       /\ s < lo + inject_Z (Z.of_nat (S i)) * w)%Q.
Proof.
  unfold within. rewrite normal_bin_low, normal_bin_high. reflexivity.
Qed.

(** Two normal bins that hold the same speed are the same bin. *)
Lemma normal_bin_unique (i j : nat) (s : Q) :
  within (normal_bin lo w i) s -> within (normal_bin lo w j) s -> i = j.
Proof.
  rewrite !within_normal_bin. intros [Hi1 Hi2] [Hj1 Hj2].
  destruct (Nat.lt_trichotomy i j) as [Hlt | [Heq | Hgt]];
    [exfalso | assumption | exfalso].
  - pose proof (normal_low_mono (S i) j Hlt). lra.
  - pose proof (normal_low_mono (S j) i Hgt). lra.
Qed.

(** The inner loop from the normal bin [a] on, for a speed that is not
    below that bin: it stops at the normal bin that holds the speed, or
    the speed is beyond the normal bins and the loop comes to the last
    bin. *)
Lemma find_bin_normal (s : Q) : forall m a,
  (a + m)%nat = k ->
  (lo + inject_Z (Z.of_nat a) * w <= s)%Q ->
  let rest := map (normal_bin lo w) (seq a m) ++ [(hi, Infinity)] in
  (exists j, (a <= j < k)%nat
     /\ find_bin s last (S a) rest = Some (S j)
     /\ within (normal_bin lo w j) s)
  \/ ((hi <= s)%Q /\ find_bin s last (S a) rest = Some last).
Proof.
  induction m as [| m IH]; intros a Hk Hlow rest; subst rest.
  - right. rewrite Nat.add_0_r in Hk. subst a.
    assert (Hhi : (hi <= s)%Q) by (rewrite <- normal_bins_reach_hi; exact Hlow).
    split; [exact Hhi |]. simpl seq. simpl map. simpl app.
    rewrite find_bin_cons. unfold last. rewrite Nat.eqb_refl.
    apply Qle_bool_iff in Hhi. rewrite Hhi. reflexivity.
  - simpl seq. simpl map. simpl app.
    assert (Hstep : forall rest,
              find_bin s last (S a) (normal_bin lo w a :: rest)
              = if Py.Qlt_bool s (lo + inject_Z (Z.of_nat (S a)) * w)
                then Some (S a) else find_bin s last (S (S a)) rest).
    { intros rest. unfold normal_bin. rewrite find_bin_cons.
      destruct (Nat.eqb_spec (S a) last) as [E | _]; [unfold last in E; lia |].
      apply Qle_bool_iff in Hlow. rewrite Hlow. simpl andb. unfold below.
      replace (Z.of_nat a + 1) with (Z.of_nat (S a)) by lia. reflexivity. }
    rewrite Hstep.
    destruct (Py.Qlt_bool s _) eqn:Hhigh.
    + left. exists a. split; [lia |]. split; [reflexivity |].
      apply PyFacts.Qlt_bool_iff in Hhigh.
      apply within_normal_bin. split; [exact Hlow | exact Hhigh].
    + apply PyFacts.Qlt_bool_false_iff in Hhigh.
      destruct (IH (S a) ltac:(lia) Hhigh) as [(j & Hj & Hf & Hin) | Hbeyond].
      * left. exists j. split; [lia |]. split; assumption.
      * right. exact Hbeyond.
Qed.

(** The whole inner loop, for a speed that is not negative. *)
Lemma find_bin_make_bins (s : Q) :
  (0 <= s)%Q ->
  ((s < lo)%Q /\ find_bin s last 0 (make_bins lo hi w k) = Some 0%nat)
  \/ (exists j, (j < k)%nat
        /\ find_bin s last 0 (make_bins lo hi w k) = Some (S j)
        /\ within (normal_bin lo w j) s)
  \/ ((hi <= s)%Q /\ find_bin s last 0 (make_bins lo hi w k) = Some last).
Proof.
  intros Hs. unfold make_bins. simpl app. rewrite find_bin_cons.
  destruct (Nat.eqb_spec 0 last) as [E | _]; [discriminate |].
  apply Qle_bool_iff in Hs. rewrite Hs. simpl andb. unfold below.
  destruct (Py.Qlt_bool s lo) eqn:Hlo.
  - left. apply PyFacts.Qlt_bool_iff in Hlo. split; [exact Hlo | reflexivity].
  - right. apply PyFacts.Qlt_bool_false_iff in Hlo.
    destruct (find_bin_normal s k 0%nat) as [(j & Hj & Hf & Hin) | Hbeyond].
    + reflexivity.
    + change (inject_Z (Z.of_nat 0)) with 0%Q. rewrite Qmult_0_l, Qplus_0_r.
      exact Hlo.
    + left. exists j. split; [lia |]. split; assumption.
    + right. exact Hbeyond.
Qed.

(** Which bin counts a speed: the first if the speed is below the lower
    percentile value, the last if it is at or above the upper one, and
    the one normal bin that holds it otherwise. *)
Lemma find_bin_spec (s : Q) :
  (0 <= s)%Q ->
  exists i,
    find_bin s last 0 (make_bins lo hi w k) = Some i
    /\ (i <= last)%nat
    /\ ((s < lo)%Q -> i = 0%nat)
    /\ ((hi <= s)%Q -> i = last)
    /\ ((lo <= s)%Q -> (s < hi)%Q ->
        exists j, i = S j /\ (j < k)%nat
          /\ within (normal_bin lo w j) s
          /\ forall j', within (normal_bin lo w j') s -> j' = j).
Proof.
  intros Hs.
  destruct (find_bin_make_bins s Hs)
    as [[Hlo Hf] | [(j & Hj & Hf & Hin) | [Hhi Hf]]].
  - exists 0%nat. split; [exact Hf |]. split; [lia |].
    split; [reflexivity |]. split; intros; lra.
  - pose proof Hin as Hin'. apply within_normal_bin in Hin'.
    destruct Hin' as [H1 H2].
    pose proof (normal_low_mono 0 j ltac:(lia)) as Hge.
    change (inject_Z (Z.of_nat 0)) with 0%Q in Hge.
    pose proof (normal_low_mono (S j) k ltac:(lia)) as Hle.
    rewrite normal_bins_reach_hi in Hle.
    exists (S j). split; [exact Hf |]. split; [unfold last; lia |].
    split; [intros; lra |]. split; [intros; lra |].
    intros _ _. exists j. split; [reflexivity |]. split; [exact Hj |].
    split; [exact Hin |].
    intros j' Hj'. eapply normal_bin_unique; eassumption.
  - exists last. split; [exact Hf |]. split; [lia |].
    split; [intros; lra |]. split; [reflexivity |]. intros; lra.
Qed.

End Bins.

(** ** The counters *)

Lemma sum_list_alter_S (l : list nat) (i : nat) :
  (i < length l)%nat -> sum_list (alter S i l) = S (sum_list l).
Proof.
  revert i. induction l as [| x l IH]; intros i Hi; simpl in Hi; [lia |].
  destruct i as [| i]; [reflexivity |].
  change (alter S (S i) (x :: l)) with (x :: alter S i l).
  simpl. rewrite IH by lia. lia.
Qed.

Lemma sum_list_repeat_0 (n : nat) : sum_list (repeat 0%nat n) = 0%nat.
Proof. induction n as [| n IH]; simpl; [reflexivity | exact IH]. Qed.

Lemma make_bins_length lo hi w k :
  length (make_bins lo hi w k) = (k + 2)%nat.
Proof.
  unfold make_bins. simpl. rewrite length_app, length_map, length_seq.
  simpl. lia.
Qed.

(** When the inner loop reaches a [break] for every speed, every speed
    adds one to one counter. *)
Lemma count_bins_sum bins speeds : forall counts,
  (forall s, In s speeds ->
     exists i, find_bin s (length bins - 1) 0 bins = Some i
               /\ (i < length counts)%nat) ->
  sum_list (count_bins bins counts speeds)
  = (sum_list counts + length speeds)%nat.
Proof.
  induction speeds as [| s speeds IH]; intros counts Hall; simpl.
  - lia.
  - destruct (Hall s (or_introl eq_refl)) as (i & Hi & Hlt). rewrite Hi.
    rewrite IH.
    + rewrite sum_list_alter_S by exact Hlt. lia.
    + intros s' Hs'. destruct (Hall s' (or_intror Hs')) as (i' & Hi' & Hlt').
      exists i'. split; [exact Hi' |]. rewrite length_alter. exact Hlt'.
Qed.

(** What a report that has been written tells about its inputs. *)
Lemma write_report_inv vehicles cfg rep :
  write_report vehicles cfg = Py.Ok (Some rep) ->
  let speeds := map speed_normalized vehicles in
  let k := normal_range_bins cfg in
  let w := ((max_speed_p rep - min_speed_p rep) / inject_Z (Z.of_nat k))%Q in
  (4 <= length vehicles)%nat
  /\ k <> 0%nat
  /\ sorted_speeds rep = sorted speeds
  /\ p_low_idx rep = percentile_idx (length (sorted speeds)) (percentile_low cfg)
  /\ p_high_idx rep
     = percentile_idx (length (sorted speeds)) (percentile_high cfg)
  /\ Py.getitem (sorted speeds) (p_low_idx rep) = Py.Ok (min_speed_p rep)
  /\ Py.getitem (sorted speeds) (p_high_idx rep) = Py.Ok (max_speed_p rep)
  /\ bins rep = make_bins (min_speed_p rep) (max_speed_p rep) w k
  /\ bin_counts rep
     = count_bins (bins rep) (repeat 0%nat (k + 2)) speeds.
Proof.
  unfold write_report.
  destruct (Nat.ltb_spec (length vehicles) 4) as [? | Hlen]; [discriminate |].
  destruct (Py.getitem _ (percentile_idx _ (percentile_low cfg)))
    as [lo |] eqn:Hlo; [| discriminate].
  destruct (Py.getitem _ (percentile_idx _ (percentile_high cfg)))
    as [hi |] eqn:Hhi; [| discriminate].
  cbn. unfold Py.truediv.
  destruct (Qeq_bool (inject_Z (Z.of_nat (normal_range_bins cfg))) 0) eqn:Hz;
    [discriminate |].
  cbn. intros [= <-]. simpl.
  repeat split; try assumption; try reflexivity.
  intros Hk. rewrite Hk in Hz. discriminate.
Qed.

Lemma report_percentile_values_ordered vehicles cfg rep :
  write_report vehicles cfg = Py.Ok (Some rep) ->
  (0 <= percentile_low cfg)%Q ->
  (percentile_low cfg <= percentile_high cfg)%Q ->
  (percentile_high cfg < 100)%Q ->
  (min_speed_p rep <= max_speed_p rep)%Q.
Proof.
  intros Hrep Hl0 Hlh Hh100.
  destruct (write_report_inv _ _ _ Hrep)
    as (Hlen & _ & _ & Hil & Hih & Hgl & Hgh & _).
  set (speeds := map speed_normalized vehicles) in *.
  assert (Hn : (1 <= length speeds)%nat).
  { unfold speeds. rewrite length_map. lia. }
  destruct (percentile_lookup speeds (percentile_low cfg) Hn Hl0)
    as (lo & Hgl' & Hnl & _ & Hbl); [lra |].
  destruct (percentile_lookup speeds (percentile_high cfg) Hn)
    as (hi & Hgh' & Hnh & _ & Hbh); [lra | assumption |].
  rewrite <- Hil, Hgl in Hgl'. injection Hgl' as <-.
  rewrite <- Hih, Hgh in Hgh'. injection Hgh' as <-.
  eapply (Sorted_nth_le _ (sorted_Sorted speeds)); [| exact Hnl | exact Hnh].
  apply Z2Nat.inj_le; [lia | lia |].
  apply percentile_idx_mono; assumption.
Qed.

(** ** The two stages together *)

(** Four tracks cross the line, two in each direction; the analyzer
    builds four records, numbered 1 to 4, and writes a report. *)
Example pipeline_of_four_crossings :
  let queue :=
    fst (Detector.run_detection Scene.config (Scene.camera Scene.four_crossings)) in
  let '(vehicles, file, how) := analyze_stream Desk.quartiles queue in
  map (fun v => (v_vehicle_number v, v_track_id v, v_direction v)) vehicles
  = [(1%nat, 1, LTR); (2%nat, 2, RTL); (3%nat, 3, LTR); (4%nat, 4, RTL)]
  /\ how = Returns
  /\ exists rep, file = Some rep /\ sum_list (bin_counts rep) = 4%nat.
Proof.
  vm_compute. split; [reflexivity |]. split; [reflexivity |].
  eexists. split; reflexivity.
Qed.

(** When the producer leaves without the sentinel, the analyzer is left
    waiting on the queue. *)
Example analyzer_waits_without_sentinel :
  snd (analyze_stream Desk.config
         (fst (Detector.run_detection Scene.saving_config
                 (Scene.camera_without_directory
                    [Scene.frame_at 0 [Scene.vehicle_at 1 90]]))))
  = Blocked.
Proof. reflexivity. Qed.

End AnalyzerFacts.

(** * Facts about binary64 numbers *)

Module NumFacts.
Import PrimFloat SpecFloat FloatOps FloatAxioms Num.

Lemma SFcompare_antisym (a b : spec_float) (c : comparison) :
  SFcompare a b = Some c -> SFcompare b a = Some (CompOpp c).
Proof.
  destruct a as [sa | sa | | sa ma ea], b as [sb | sb | | sb mb eb];
    simpl; try discriminate;
    try (destruct sa; intros [= <-]; reflexivity);
    try (destruct sb; intros [= <-]; reflexivity);
    try (intros [= <-]; reflexivity).
  - destruct sa, sb; intros [= <-]; reflexivity.
  - destruct sa, sb; intros [= <-]; try reflexivity.
    + rewrite (Z.compare_antisym ea eb).
      destruct (ea ?= eb)%Z; simpl; try reflexivity.
      rewrite !Pos.compare_cont_spec. simpl.
      rewrite (Pos.compare_antisym ma mb).
      destruct (ma ?= mb)%positive; reflexivity.
    + rewrite (Z.compare_antisym ea eb).
      destruct (ea ?= eb)%Z; simpl; try reflexivity.
      rewrite !Pos.compare_cont_spec. simpl.
      rewrite (Pos.compare_antisym ma mb).
      destruct (ma ?= mb)%positive; reflexivity.
Qed.

Lemma not_nan_SF (x : float) :
  is_nan x = false -> Prim2SF x <> S754_nan.
Proof.
  unfold is_nan. rewrite eqb_spec. intros H E. rewrite E in H.
  discriminate H.
Qed.

Lemma SFcompare_defined (a b : spec_float) :
  a <> S754_nan -> b <> S754_nan -> exists c, SFcompare a b = Some c.
Proof.
  intros Ha Hb.
  destruct a as [sa | sa | | sa ma ea], b as [sb | sb | | sb mb eb];
    try contradiction; simpl; eexists; reflexivity.
Qed.

(** Two numbers that are not nan are comparable. *)
Lemma leb_total (x y : float) :
  is_nan x = false -> is_nan y = false ->
  (x <=? y)%float = false -> (y <=? x)%float = true.
Proof.
  intros Hx Hy. rewrite !leb_spec. unfold SFleb.
  destruct (SFcompare_defined _ _ (not_nan_SF _ Hx) (not_nan_SF _ Hy))
    as [c Hc].
  rewrite Hc, (SFcompare_antisym _ _ _ Hc).
  destruct c; simpl; congruence.
Qed.

Lemma is_zero_SF (y : float) :
  is_zero y = true -> exists s, Prim2SF y = S754_zero s.
Proof.
  unfold is_zero. rewrite eqb_spec.
  change (Prim2SF zero) with (S754_zero false).
  destruct (Prim2SF y) as [s | s | | s m e]; simpl; try discriminate.
  - intros _. exists s. reflexivity.
  - destruct s; discriminate.
  - destruct s; discriminate.
Qed.

Lemma SF_not_finite (r : float) :
  (exists s, Prim2SF r = S754_infinity s) \/ Prim2SF r = S754_nan ->
  is_finite r = false.
Proof.
  unfold is_finite, is_nan, is_infinity.
  rewrite !eqb_spec, abs_spec.
  change (Prim2SF infinity) with (S754_infinity false).
  intros [[s E] | E]; rewrite E; simpl; [| reflexivity].
  destruct s; reflexivity.
Qed.

(** In IEEE arithmetic a division by zero gives an infinity or a nan. *)
Lemma div_by_zero_not_finite (x y : float) :
  is_zero y = true -> is_finite (x / y)%float = false.
Proof.
  intros Hy. destruct (is_zero_SF _ Hy) as [s Es].
  apply SF_not_finite. rewrite div_spec, Es.
  unfold SF64div, SFdiv.
  destruct (Prim2SF x) as [sx | sx | | sx mx ex]; simpl; eauto.
Qed.

End NumFacts.

(** * The analyzer in double precision *)

Module Analyzer64Facts.
Import PrimFloat Num Analyzer64.
#[local] Set Warnings "-inexact-float".

(** ** Speeds of a vehicle record *)

Lemma build_vehicle_inv rtl_factor data v :
  build_vehicle rtl_factor data = Ok v ->
  data_of v = data
  /\ value (speed_raw v)
     = (value (distance_pixels data) / value (time_elapsed data))%float
  /\ value (speed_normalized v)
     = match direction data with
       | RTL => (value (speed_raw v) * rtl_factor)%float
       | LTR => value (speed_raw v)
       end.
Proof.
  unfold build_vehicle, truediv.
  destruct (is_zero (value (time_elapsed data)));
    [destruct (mixed _ _); [discriminate |] |];
    cbn; intros [= <-]; simpl; destruct (direction data); auto.
Qed.

(** Every vehicle of the list was there at the start or has been built
    from a dictionary of the queue. *)
Lemma loop_builds_from_queue w cfg queue : forall vs vs' e,
  analyze_loop w cfg queue vs = (vs', e) ->
  forall v, In v vs' ->
  In v vs \/ exists data, In (Data data) queue
      /\ build_vehicle (rtl_correction_factor cfg) data = Ok v.
Proof.
  induction queue as [| it queue IH]; simpl; intros vs vs' e H v Hv.
  - injection H as <- <-. auto.
  - destruct it as [data |]; [| injection H as <- <-; auto].
    destruct (build_vehicle (rtl_correction_factor cfg) data)
      as [v0 | e0] eqn:Hb; [| injection H as <- <-; auto].
    assert (Hlast : In v (vs ++ [v0]) ->
              In v vs \/ exists data0,
                (Data data = Data data0 \/ In (Data data0) queue)
                /\ build_vehicle (rtl_correction_factor cfg) data0 = Ok v).
    { intros Hin. apply in_app_or in Hin.
      destruct Hin as [Hin | [<- | []]]; eauto. }
    assert (Hnext : analyze_loop w cfg queue (vs ++ [v0]) = (vs', e) ->
              In v vs \/ exists data0,
                (Data data = Data data0 \/ In (Data data0) queue)
                /\ build_vehicle (rtl_correction_factor cfg) data0 = Ok v).
    { intros Hl. destruct (IH _ _ _ Hl v Hv) as [Hin | (d0 & Hd0 & Hb0)];
        eauto. }
    destruct (row_io w _); [injection H as <- <-; auto |].
    destruct (mod_ _ _) as [r | e1]; [| injection H as <- <-; auto].
    destruct (r =? 0); [| auto].
    destruct (write_report w false (vs ++ [v0]) cfg) as [rep | e2]; auto.
    injection H as <- <-. auto.
Qed.

Lemma stream_vehicles_of_loop w cfg queue :
  setup w = None ->
  fst (analyze_stream w cfg queue) = fst (analyze_loop w cfg queue []).
Proof.
  unfold analyze_stream. intros ->.
  destruct (analyze_loop w cfg queue []) as [vs []]; reflexivity.
Qed.

Lemma analyze_stream_setup w cfg queue e :
  setup w = Some e -> analyze_stream w cfg queue = ([], Propagates e).
Proof. unfold analyze_stream. intros ->. reflexivity. Qed.




(** ** A time elapsed of zero *)

Lemma build_vehicle_divides rtl_factor data :
  is_zero (value (time_elapsed data)) = false ->
  exists v, build_vehicle rtl_factor data = Ok v.
Proof.
  intros Hz. unfold build_vehicle, truediv. rewrite Hz. cbn.
  eexists. reflexivity.
Qed.

Lemma build_vehicle_raises rtl_factor data :
  is_zero (value (time_elapsed data)) = true ->
  mixed (kind_of (distance_pixels data)) (kind_of (time_elapsed data))
  = Builtin ->
  build_vehicle rtl_factor data = Raise ZeroDivisionError.
Proof.
  intros Hz Hk. unfold build_vehicle, truediv. rewrite Hz, Hk. reflexivity.
Qed.

Lemma build_vehicle_numpy rtl_factor data :
  is_zero (value (time_elapsed data)) = true ->
  mixed (kind_of (distance_pixels data)) (kind_of (time_elapsed data))
  = Numpy ->
  exists v, build_vehicle rtl_factor data = Ok v
    /\ data_of v = data
    /\ kind_of (speed_raw v) = Numpy
    /\ is_finite (value (speed_raw v)) = false.
Proof.
  intros Hz Hk. unfold build_vehicle, truediv. rewrite Hz, Hk. cbn.
  eexists. split; [reflexivity |]. simpl.
  split; [reflexivity |]. split; [reflexivity |].
  apply NumFacts.div_by_zero_not_finite, Hz.
Qed.

(** The loop only appends to the list of vehicles. *)
Lemma analyze_loop_extends w cfg queue : forall vs,
  exists more, fst (analyze_loop w cfg queue vs) = vs ++ more.
Proof.
  induction queue as [| it queue IH]; intros vs; simpl.
  - exists []. rewrite app_nil_r. reflexivity.
  - assert (Hstop : exists more : list vehicle, vs = vs ++ more)
      by (exists []; rewrite app_nil_r; reflexivity).
    destruct it as [d |]; [| exact Hstop].
    destruct (build_vehicle _ d) as [v0 | e0]; [| exact Hstop].
    assert (Hone : exists more, vs ++ [v0] = vs ++ more) by eauto.
    assert (Hrest : exists more,
              fst (analyze_loop w cfg queue (vs ++ [v0])) = vs ++ more).
    { destruct (IH (vs ++ [v0])) as [more E]. exists (v0 :: more).
      rewrite E, <- app_assoc. reflexivity. }
    destruct (row_io w _); [exact Hone |].
    destruct (mod_ _ _) as [r | e1]; [| exact Hone].
    destruct (r =? 0); [| exact Hrest].
    destruct (write_report w false (vs ++ [v0]) cfg); [exact Hrest |].
    exact Hone.
Qed.

(** C5.  The division of line 71 has no guard of its own; what a time
    elapsed of zero does is decided by the numbers.  When the time is
    not zero a record is built.  When it is zero and distance and time
    are Python floats, the division raises [ZeroDivisionError], no
    record is built, the handler of line 110 catches the exception and
    the receive loop is over: nothing more is dequeued.  When it is zero
    and the distance is a numpy scalar, nothing is raised: the record is
    built and appended, with a raw speed that is an infinity or a nan. *)
Theorem zero_time_elapsed_is_not_guarded w cfg data rest :
  (is_zero (value (time_elapsed data)) = false ->
   exists v, build_vehicle (rtl_correction_factor cfg) data = Ok v)
  /\ (is_zero (value (time_elapsed data)) = true ->
      match mixed (kind_of (distance_pixels data))
                  (kind_of (time_elapsed data)) with
      | Builtin =>
          build_vehicle (rtl_correction_factor cfg) data
          = Raise ZeroDivisionError
          /\ (setup w = None ->
              analyze_stream w cfg (Data data :: rest)
              = ([], match close_io w with
                     | Some e => Propagates e
                     | None => Returns
                     end))
      | Numpy =>
          exists v,
            build_vehicle (rtl_correction_factor cfg) data = Ok v
            /\ data_of v = data
            /\ is_finite (value (speed_raw v)) = false
            /\ (setup w = None ->
                exists more,
                  fst (analyze_stream w cfg (Data data :: rest)) = v :: more)
      end).
Proof.
  split; [apply build_vehicle_divides |].
  intros Hz.
  destruct (mixed _ _) eqn:Hk.
  - pose proof (build_vehicle_raises (rtl_correction_factor cfg) _ Hz Hk)
      as Hb.
    split; [exact Hb |]. intros Hs.
    unfold analyze_stream. rewrite Hs. simpl. rewrite Hb. reflexivity.
  - destruct (build_vehicle_numpy (rtl_correction_factor cfg) _ Hz Hk)
      as (v & Hb & Hd & _ & Hf).
    exists v. split; [exact Hb |]. split; [exact Hd |].
    split; [exact Hf |]. intros Hs.
    rewrite (stream_vehicles_of_loop _ _ _ Hs). simpl. rewrite Hb. simpl.
    destruct (row_io w 1); [simpl; eauto |].
    destruct (mod_ _ _) as [r | e1]; [| simpl; eauto].
    assert (Hrest : exists more,
              fst (analyze_loop w cfg rest [v]) = v :: more)
      by apply (analyze_loop_extends w cfg rest [v]).
    destruct (r =? 0); [| exact Hrest].
    destruct (write_report w false [v] cfg) as [rep | e2]; [exact Hrest |].
    simpl. eauto.
Qed.

(** A crossing in no time whose distance is a numpy scalar, as the
    detector sends it: no exception, a record whose speed is infinite. *)
Lemma numpy_distance_in_no_time_is_recorded :
  exists v,
    analyze_stream Desk64.quiet Desk64.config
      [Data Desk64.numpy_in_no_time; PyNone] = ([v], Returns)
    /\ data_of v = Desk64.numpy_in_no_time
    /\ is_zero (value (time_elapsed (data_of v))) = true
    /\ value (speed_raw v) = infinity.
Proof.
  eexists. split; [vm_compute; reflexivity |]. vm_compute. repeat split.
Qed.

(** ** The sorted list and its percentiles *)

Lemma insert_permutes x l : Permutation (x :: l) (insert_sorted x l).
Proof.
  induction l as [| y l IH]; simpl; [reflexivity |].
  destruct (value x <=? value y)%float; [reflexivity |].
  rewrite perm_swap. apply perm_skip, IH.
Qed.

Lemma sorted_permutes l : Permutation l (sorted l).
Proof.
  induction l as [| x l IH]; simpl; [reflexivity |].
  rewrite <- insert_permutes. apply perm_skip, IH.
Qed.

Lemma sorted_keeps_length l : length (sorted l) = length l.
Proof. symmetry. apply Permutation_length, sorted_permutes. Qed.

Lemma insert_keeps_ascending x l :
  not_nan x -> Forall not_nan l ->
  Sorted ascending l -> Sorted ascending (insert_sorted x l).
Proof.
  intros Hx Hl Hs. induction Hs as [| y l Hs IH Hy]; simpl.
  - repeat constructor.
  - apply Forall_cons_1 in Hl. destruct Hl as [Hny Hl].
    destruct (value x <=? value y)%float eqn:Hxy.
    + repeat constructor; assumption.
    + apply (NumFacts.leb_total _ _ Hx Hny) in Hxy.
      constructor; [apply IH, Hl |].
      destruct l as [| z l]; simpl.
      * constructor. exact Hxy.
      * destruct (value x <=? value z)%float; constructor;
          [exact Hxy |]. inversion Hy. assumption.
Qed.

Lemma sorted_ascending l : Forall not_nan l -> Sorted ascending (sorted l).
Proof.
  induction 1 as [| x l Hx Hl IH]; simpl; [constructor |].
  apply insert_keeps_ascending; [exact Hx | | exact IH].
  eapply Permutation_Forall; [apply sorted_permutes | exact Hl].
Qed.

Lemma getitem_inside {A : Type} (l : list A) (i : Z) :
  (0 <= i < Z.of_nat (length l))%Z ->
  exists a, getitem l i = Ok a /\ nth_error l (Z.to_nat i) = Some a.
Proof.
  intros Hi. unfold getitem.
  destruct (Z.ltb_spec i 0) as [? | _]; [lia |].
  destruct (Z.ltb_spec i 0) as [? | _]; [lia |].
  destruct (Z.leb_spec (Z.of_nat (length l)) i) as [? | _]; [lia |].
  simpl. destruct (nth_error l (Z.to_nat i)) as [a |] eqn:E.
  - exists a. auto.
  - apply nth_error_None in E. lia.
Qed.

Lemma div_int_nonzero (a : number) (n : nat) :
  n <> 0%nat ->
  div_int a (Z.of_nat n)
  = Ok (mkNumber (kind_of a) (value a / of_int (Z.of_nat n))%float).
Proof.
  intros Hn. unfold div_int.
  destruct (Z.eqb_spec (Z.of_nat n) 0) as [E | _]; [lia | reflexivity].
Qed.




(** ** The bins *)

(** The inner loop stops at the first bin, from position [i] on, whose
    test the speed passes, and at none when it passes no test. *)
Lemma find_bin_first (s : float) (last : nat) : forall bs i,
  match find_bin s last i bs with
  | Some j =>
      (i <= j)%nat
      /\ (exists b, nth_error bs (j - i) = Some b
                    /\ takes last j b s = true)
      /\ forall m b, (m < j - i)%nat -> nth_error bs m = Some b ->
                     takes last (i + m) b s = false
  | None =>
      forall m b, nth_error bs m = Some b -> takes last (i + m) b s = false
  end.
Proof.
  induction bs as [| b bs IH]; intros i; simpl.
  - intros m b Hm. destruct m; discriminate Hm.
  - destruct (takes last i b s) eqn:Ht.
    + split; [lia |]. rewrite Nat.sub_diag. split; [eauto |].
      intros m b' Hm. lia.
    + specialize (IH (S i)). destruct (find_bin s last (S i) bs) as [j |].
      * destruct IH as (Hij & (b' & Hb' & Ht') & Hbefore).
        split; [lia |].
        replace (j - i)%nat with (S (j - S i)) by lia.
        split; [exists b'; auto |].
        intros m b0 Hm Hb0. destruct m as [| m].
        -- injection Hb0 as <-. rewrite Nat.add_0_r. exact Ht.
        -- rewrite <- Nat.add_succ_comm. apply Hbefore; [lia | exact Hb0].
      * intros m b0 Hb0. destruct m as [| m].
        -- injection Hb0 as <-. rewrite Nat.add_0_r. exact Ht.
        -- rewrite <- Nat.add_succ_comm. apply IH. exact Hb0.
Qed.

Lemma bin_of_first (bs : list bin) (s : float) :
  match bin_of bs s with
  | Some j =>
      (exists b, nth_error bs j = Some b
                 /\ takes (length bs - 1) j b s = true)
      /\ forall m b, (m < j)%nat -> nth_error bs m = Some b ->
                     takes (length bs - 1) m b s = false
  | None =>
      forall m b, nth_error bs m = Some b ->
                  takes (length bs - 1) m b s = false
  end.
Proof.
  unfold bin_of. pose proof (find_bin_first s (length bs - 1) bs 0) as H.
  destruct (find_bin s (length bs - 1) 0 bs) as [j |].
  - rewrite Nat.sub_0_r in H. destruct H as (_ & Hb & Hbefore).
    split; [exact Hb |]. intros m b Hm. apply (Hbefore m b Hm).
  - exact H.
Qed.

Lemma bin_of_in_range (bs : list bin) (s : float) (j : nat) :
  bin_of bs s = Some j -> (j < length bs)%nat.
Proof.
  intros E. pose proof (bin_of_first bs s) as H. rewrite E in H.
  destruct H as [(b & Hb & _) _]. apply nth_error_Some. congruence.
Qed.


(** The counters. *)

Lemma nth_alter_succ (l : list nat) (i j : nat) :
  (j < length l)%nat ->
  nth i (alter S j l) 0%nat
  = (nth i l 0 + if (j =? i)%nat then 1 else 0)%nat.
Proof.
  intros Hj. rewrite !nth_lookup, list_lookup_alter.
  destruct (decide (j = i)) as [-> | Hne].
  - rewrite Nat.eqb_refl.
    destruct (lookup_lt_is_Some_2 l i Hj) as [v ->]. simpl. lia.
  - apply Nat.eqb_neq in Hne. rewrite Hne. lia.
Qed.

Lemma sum_list_alter_succ (l : list nat) (i : nat) :
  (i < length l)%nat -> sum_list (alter S i l) = S (sum_list l).
Proof.
  revert i. induction l as [| x l IH]; intros i Hi; simpl in Hi; [lia |].
  destruct i as [| i]; [reflexivity |].
  change (alter S (S i) (x :: l)) with (x :: alter S i l).
  simpl. rewrite IH by lia. lia.
Qed.

Lemma sum_list_zeros (n : nat) : sum_list (repeat 0%nat n) = 0%nat.
Proof. induction n as [| n IH]; simpl; [reflexivity | exact IH]. Qed.

Lemma nth_zeros (n i : nat) : nth i (repeat 0%nat n) 0%nat = 0%nat.
Proof.
  revert i. induction n as [| n IH]; intros [| i]; simpl; auto.
Qed.

Lemma counters_length bs speeds : forall counts,
  length (count_bins bs counts speeds) = length counts.
Proof.
  induction speeds as [| s speeds IH]; intros counts; simpl; [reflexivity |].
  rewrite IH. destruct (bin_of bs s); [apply length_alter | reflexivity].
Qed.

(** Each counter grows by the number of speeds for which the inner loop
    stops at its bin. *)
Lemma counter_of_bin bs speeds i : forall counts,
  length counts = length bs ->
  nth i (count_bins bs counts speeds) 0%nat
  = (nth i counts 0 + length (List.filter (assigned_to bs i) speeds))%nat.
Proof.
  induction speeds as [| s speeds IH]; intros counts Hlen; simpl; [lia |].
  unfold assigned_to at 1.
  destruct (bin_of bs s) as [j |] eqn:Hj.
  - rewrite IH by (rewrite length_alter; exact Hlen).
    rewrite nth_alter_succ
      by (rewrite Hlen; eapply bin_of_in_range; exact Hj).
    destruct (j =? i)%nat; simpl; lia.
  - rewrite IH by exact Hlen. reflexivity.
Qed.

(** The counters grow by one for each speed that a bin takes. *)
Lemma counters_sum bs speeds : forall counts,
  length counts = length bs ->
  sum_list (count_bins bs counts speeds)
  = (sum_list counts + length (List.filter (assigned bs) speeds))%nat.
Proof.
  induction speeds as [| s speeds IH]; intros counts Hlen; simpl; [lia |].
  unfold assigned at 1.
  destruct (bin_of bs s) as [j |] eqn:Hj.
  - rewrite IH by (rewrite length_alter; exact Hlen).
    rewrite sum_list_alter_succ
      by (rewrite Hlen; eapply bin_of_in_range; exact Hj).
    simpl. lia.
  - rewrite IH by exact Hlen. reflexivity.
Qed.

Lemma number_of_bins lo hi w k :
  length (make_bins lo hi w k) = (k + 2)%nat.
Proof.
  unfold make_bins. simpl. rewrite length_app, length_map, length_seq.
  simpl. lia.
Qed.

(** What a report that has been produced tells about its inputs. *)
Lemma report_numbers_inv vehicles cfg rep :
  report_numbers vehicles cfg = Ok (Some rep) ->
  let k := normal_range_bins cfg in
  let speeds := map speed_normalized vehicles in
  (4 <= length vehicles)%nat
  /\ sorted_speeds rep = sorted speeds
  /\ percentile_idx (length vehicles) (percentile_low cfg)
     = Ok (p_low_idx rep)
  /\ percentile_idx (length vehicles) (percentile_high cfg)
     = Ok (p_high_idx rep)
  /\ getitem (sorted speeds) (p_low_idx rep) = Ok (min_speed_p rep)
  /\ getitem (sorted speeds) (p_high_idx rep) = Ok (max_speed_p rep)
  /\ div_int (sub (max_speed_p rep) (min_speed_p rep)) (Z.of_nat k)
     = Ok (bin_width rep)
  /\ bins rep
     = make_bins (min_speed_p rep) (max_speed_p rep) (bin_width rep) k
  /\ bin_counts rep
     = count_bins (bins rep) (repeat 0%nat (k + 2)) (map value speeds).
Proof.
  unfold report_numbers.
  destruct (Nat.ltb_spec (length vehicles) 4) as [? | Hlen];
    [discriminate |].
  rewrite sorted_keeps_length, length_map.
  destruct (percentile_idx _ (percentile_low cfg)) as [i | e];
    [| discriminate].
  destruct (percentile_idx _ (percentile_high cfg)) as [j | e];
    [| discriminate].
  cbn [mbind num_result_bind bind].
  destruct (getitem _ i) as [lo | e] eqn:Hlo; [| discriminate].
  destruct (getitem _ j) as [hi | e] eqn:Hhi; [| discriminate].
  cbn [mbind num_result_bind bind].
  destruct (div_int _ _) as [w | e] eqn:Hw; [| discriminate].
  cbn. intros [= <-]. simpl. auto 10.
Qed.




End Analyzer64Facts.

(** * The detector: what the loop keeps *)

Module DetectorInvariants.
Import Detector Tracks.

(** ** Rows of other classes *)

Lemma process_detection_other_class cfg line_x now start st d :
  allowed cfg d = false ->
  process_detection cfg line_x now start st d = (st, []).
Proof.
  unfold allowed, process_detection. intros H. rewrite H. reflexivity.
Qed.

Lemma process_boxes_filter cfg line_x now start ds : forall st,
  process_boxes cfg line_x now start st (List.filter (allowed cfg) ds)
  = process_boxes cfg line_x now start st ds.
Proof.
  induction ds as [| d ds IH]; intros st; simpl; [reflexivity |].
  destruct (allowed cfg d) eqn:Hd; simpl.
  - destruct (process_detection cfg line_x now start st d) as [st1 out1].
    rewrite IH. reflexivity.
  - rewrite (process_detection_other_class _ _ _ _ _ _ Hd), IH.
    destruct (process_boxes cfg line_x now start st ds). reflexivity.
Qed.

Lemma process_frame_filter cfg start st f abort :
  match without_other_classes cfg (Frame f abort) with
  | Frame f' abort' => process_frame cfg start st f' abort'
  | _ => process_frame cfg start st f abort
  end = process_frame cfg start st f abort.
Proof.
  unfold without_other_classes, process_frame, line_of. simpl.
  destruct abort as [[k e] |]; simpl.
  - rewrite firstn_all, process_boxes_filter. reflexivity.
  - rewrite process_boxes_filter. reflexivity.
Qed.

Lemma detection_loop_filter cfg start script : forall st,
  detection_loop cfg start st (map (without_other_classes cfg) script)
  = detection_loop cfg start st script.
Proof.
  induction script as [| s script IH]; intros st; [reflexivity |].
  destruct s as [| f abort |]; [reflexivity | | reflexivity].
  pose proof (process_frame_filter cfg start st f abort) as Hf.
  change (map (without_other_classes cfg) (Frame f abort :: script))
    with (without_other_classes cfg (Frame f abort)
          :: map (without_other_classes cfg) script).
  destruct (without_other_classes cfg (Frame f abort)) as [| f' abort' |] eqn:E;
    try (destruct abort as [[k e] |]; discriminate).
  simpl. rewrite Hf.
  destruct (process_frame cfg start st f abort) as [[st1 out1] [e |]];
    [reflexivity |].
  rewrite IH. reflexivity.
Qed.

(** Rows whose class is not a configured vehicle class play no part in a
    run: dropping them from every frame leaves the queue and the way the
    run ends as they are. *)
Theorem other_classes_play_no_part cfg w :
  run_detection cfg
    (with_frames w (map (without_other_classes cfg) (frames w)))
  = run_detection cfg w.
Proof.
  unfold run_detection, with_frames. simpl.
  rewrite detection_loop_filter. reflexivity.
Qed.

(** ** From one detection to a whole run *)

Section Related.

Variable cfg : config.
Variable R : state -> state -> Prop.
Hypothesis R_refl : forall st, R st st.
Hypothesis R_trans : forall a b c, R a b -> R b c -> R a c.
Hypothesis R_step : forall line_x now start st d,
  R st (fst (process_detection cfg line_x now start st d)).

Lemma process_boxes_related line_x now start ds : forall st,
  R st (fst (process_boxes cfg line_x now start st ds)).
Proof.
  induction ds as [| d ds IH]; intros st; simpl; [apply R_refl |].
  pose proof (R_step line_x now start st d) as H1.
  destruct (process_detection cfg line_x now start st d) as [st1 out1].
  pose proof (IH st1) as H2.
  destruct (process_boxes cfg line_x now start st1 ds) as [st2 out2].
  simpl in *. eapply R_trans; eassumption.
Qed.

Lemma detection_loop_related start script : forall st,
  R st (fst (fst (detection_loop cfg start st script))).
Proof.
  induction script as [| s script IH]; intros st; simpl; [apply R_refl |].
  destruct s as [| f abort |]; [apply R_refl | | apply R_refl].
  assert (H1 : R st (fst (fst (process_frame cfg start st f abort)))).
  { unfold process_frame. destruct abort as [[k e] |]; simpl;
      apply process_boxes_related. }
  destruct (process_frame cfg start st f abort) as [[st1 out1] [e |]];
    [exact H1 |].
  pose proof (IH st1) as H2.
  destruct (detection_loop cfg start st1 script) as [[st2 out2] r2].
  simpl in *. eapply R_trans; eassumption.
Qed.

End Related.

Section Produced.

Variable cfg : config.
Variable P : crossing -> Prop.
Hypothesis P_step : forall line_x now start st d,
  Forall P (snd (process_detection cfg line_x now start st d)).

Lemma process_boxes_produces line_x now start ds : forall st,
  Forall P (snd (process_boxes cfg line_x now start st ds)).
Proof.
  induction ds as [| d ds IH]; intros st; simpl; [constructor |].
  pose proof (P_step line_x now start st d) as H1.
  destruct (process_detection cfg line_x now start st d) as [st1 out1].
  pose proof (IH st1) as H2.
  destruct (process_boxes cfg line_x now start st1 ds) as [st2 out2].
  simpl in *. apply Forall_app. split; assumption.
Qed.

Lemma detection_loop_produces start script : forall st,
  Forall P (snd (fst (detection_loop cfg start st script))).
Proof.
  induction script as [| s script IH]; intros st; simpl; [constructor |].
  destruct s as [| f abort |]; [constructor | | constructor].
  assert (H1 : Forall P (snd (fst (process_frame cfg start st f abort)))).
  { unfold process_frame. destruct abort as [[k e] |]; simpl;
      apply process_boxes_produces. }
  destruct (process_frame cfg start st f abort) as [[st1 out1] [e |]];
    [exact H1 |].
  pose proof (IH st1) as H2.
  destruct (detection_loop cfg start st1 script) as [[st2 out2] r2].
  simpl in *. apply Forall_app. split; assumption.
Qed.

Lemma run_detection_produces w :
  Forall P (events (fst (run_detection cfg w))).
Proof.
  unfold run_detection.
  destruct (load_model w) as [[] | e]; [| constructor].
  destruct (negb (is_opened w)); [constructor |].
  destruct (if save_frames cfg then makedirs w else Py.Ok tt) as [[] | e];
    [| constructor].
  pose proof (detection_loop_produces (start_time w) (frames w) initial_state)
    as H.
  destruct (detection_loop cfg (start_time w) initial_state (frames w))
    as [[st' out] r].
  simpl in H.
  destruct r as [| e |].
  - simpl fst. rewrite DetectorFacts.events_data. exact H.
  - destruct e; simpl; rewrite DetectorFacts.events_data; exact H.
  - simpl fst. rewrite DetectorFacts.events_map_data. exact H.
Qed.

End Produced.

(** ** The first-seen anchor *)

Lemma process_detection_state cfg line_x now start st d :
  let st' := fst (process_detection cfg line_x now start st d) in
  (allowed cfg d = false /\ st' = st)
  \/ (allowed cfg d = true
      /\ previous_positions st'
         = <[det_track_id d := center (det_box d)]> (previous_positions st)
      /\ first_seen_position st'
         = match first_seen_position st !! det_track_id d with
           | None => <[det_track_id d :=
                         (fst (center (det_box d)),
                          snd (center (det_box d)), now)]>
                       (first_seen_position st)
           | Some _ => first_seen_position st
           end).
Proof.
  intros st'. subst st'. destruct (allowed cfg d) eqn:Hd.
  - right. split; [reflexivity |].
    apply DetectorFacts.process_detection_maps. exact Hd.
  - left. split; [reflexivity |].
    rewrite (process_detection_other_class _ _ _ _ _ _ Hd). reflexivity.
Qed.

Lemma process_detection_keeps_first_seen cfg line_x now start st d tid e :
  first_seen_position st !! tid = Some e ->
  first_seen_position (fst (process_detection cfg line_x now start st d)) !! tid
  = Some e.
Proof.
  intros H.
  destruct (process_detection_state cfg line_x now start st d)
    as [[_ ->] | (_ & _ & ->)]; [exact H |].
  destruct (first_seen_position st !! det_track_id d) eqn:E; [exact H |].
  rewrite lookup_insert_ne; [exact H |]. intros <-. congruence.
Qed.

(** The first-seen entry of a track is written once: whatever the loop
    processes afterwards, the position and the time at which the track
    was first seen stay as they are, also when a crossing of the track
    has been suppressed. *)
Theorem first_seen_is_kept cfg start script st tid e :
  first_seen_position st !! tid = Some e ->
  first_seen_position (fst (fst (detection_loop cfg start st script))) !! tid
  = Some e.
Proof.
  revert tid e.
  apply (detection_loop_related cfg
           (fun a b => forall tid e,
              first_seen_position a !! tid = Some e ->
              first_seen_position b !! tid = Some e)).
  - auto.
  - auto.
  - intros line_x now start' st0 d tid e.
    apply process_detection_keeps_first_seen.
Qed.

Lemma first_seen_is_kept_witness :
  first_seen_position
    (fst (fst (detection_loop Scene.config 0 Scene.seen_at_90
                 [Scene.frame_at (1 # 4) [Scene.vehicle_at 1 110];
                  Scene.frame_at 1 [Scene.vehicle_at 1 90]]))) !! 1
  = Some (90%Q, 10%Q, 0%Q).
Proof.
  apply (first_seen_is_kept Scene.config 0
           [Scene.frame_at (1 # 4) [Scene.vehicle_at 1 110];
            Scene.frame_at 1 [Scene.vehicle_at 1 90]]
           Scene.seen_at_90 1 (90%Q, 10%Q, 0%Q)).
  reflexivity.
Defined.

(** ** The three stores *)

(** [grows a b]: nothing is removed between the states [a] and [b]. *)
Lemma process_detection_grows cfg line_x now start st d :
  let st' := fst (process_detection cfg line_x now start st d) in
  crossed_ids st ⊆ crossed_ids st'
  /\ dom (previous_positions st) ⊆ dom (previous_positions st')
  /\ dom (first_seen_position st) ⊆ dom (first_seen_position st')
  /\ (vehicle_count st <= vehicle_count st')%nat.
Proof.
  intros st'. subst st'.
  destruct (process_detection cfg line_x now start st d) as [st1 out] eqn:H.
  pose proof (DetectorFacts.process_detection_emits _ _ _ _ _ _ _ _ H) as Hem.
  pose proof (process_detection_state cfg line_x now start st d) as Hst.
  rewrite H in Hst. simpl in *.
  split; [apply (em_mono _ _ _ _ Hem) |].
  split; [| split].
  - destruct Hst as [[_ ->] | (_ & -> & _)]; [reflexivity |].
    rewrite dom_insert_L. apply union_subseteq_r.
  - destruct Hst as [[_ ->] | (_ & _ & ->)]; [reflexivity |].
    destruct (first_seen_position st !! det_track_id d); [reflexivity |].
    rewrite dom_insert_L. apply union_subseteq_r.
  - rewrite (em_count _ _ _ _ Hem). lia.
Qed.

(** No track is ever dropped: from any state, whatever the loop
    processes, the set of counted ids, the ids with a last position and
    the ids with a first-seen entry only grow, and the counter never goes
    down. *)
Theorem stores_only_grow cfg start script st :
  let st' := fst (fst (detection_loop cfg start st script)) in
  crossed_ids st ⊆ crossed_ids st'
  /\ dom (previous_positions st) ⊆ dom (previous_positions st')
  /\ dom (first_seen_position st) ⊆ dom (first_seen_position st')
  /\ (vehicle_count st <= vehicle_count st')%nat.
Proof.
  apply (detection_loop_related cfg
           (fun a b =>
              crossed_ids a ⊆ crossed_ids b
              /\ dom (previous_positions a) ⊆ dom (previous_positions b)
              /\ dom (first_seen_position a) ⊆ dom (first_seen_position b)
              /\ (vehicle_count a <= vehicle_count b)%nat)).
  - intros a. repeat split; reflexivity || lia.
  - intros a b c (A1 & A2 & A3 & A4) (B1 & B2 & B3 & B4).
    repeat split; try (etransitivity; eassumption). 
  - intros line_x now start' st0 d. apply process_detection_grows.
Qed.

(** [consistent st]: both dictionaries know the same tracks, every
    counted id is one of them, and the counter is the number of counted
    ids. *)
Lemma process_detection_consistent cfg line_x now start st d :
  consistent st ->
  consistent (fst (process_detection cfg line_x now start st d)).
Proof.
  intros (Hdom & Hsub & Hsize).
  destruct (process_detection cfg line_x now start st d) as [st1 out] eqn:H.
  pose proof (process_detection_state cfg line_x now start st d) as Hst.
  pose proof (DetectorFacts.process_detection_cases _ _ _ _ _ _ _ _ H) as Hc.
  rewrite H in Hst. simpl in *.
  destruct Hst as [[_ ->] | (Hal & Hp & Hf)]; [repeat split; assumption |].
  assert (Hd1 : dom (previous_positions st1)
                = {[det_track_id d]} ∪ dom (previous_positions st)).
  { rewrite Hp. apply dom_insert_L. }
  assert (Hd2 : dom (first_seen_position st1)
                = {[det_track_id d]} ∪ dom (first_seen_position st)).
  { rewrite Hf. destruct (first_seen_position st !! det_track_id d) eqn:E.
    - apply set_eq. intros x. rewrite elem_of_union, elem_of_singleton.
      split; [auto |]. intros [-> | Hx]; [| exact Hx].
      apply elem_of_dom. rewrite E. eauto.
    - apply dom_insert_L. }
  split; [rewrite Hd1, Hd2, Hdom; reflexivity |].
  destruct Hc as [(_ & Hcount & Hids) | (c & _ & Hnew & _ & _ & Hcount & Hids & _)].
  - rewrite Hids, Hcount, Hd1. split; [| exact Hsize].
    etransitivity; [exact Hsub | apply union_subseteq_r].
  - rewrite Hids, Hcount, Hd1. split.
    + apply union_mono_l, Hsub.
    + rewrite size_union, size_singleton, Hsize; [reflexivity |].
      apply disjoint_singleton_l. exact Hnew.
Qed.

Lemma initial_state_consistent : consistent initial_state.
Proof.
  unfold consistent, initial_state. simpl. split; [| split].
  - rewrite !dom_empty_L. reflexivity.
  - apply empty_subseteq.
  - reflexivity.
Qed.

(** In every state that a run reaches, the two dictionaries hold the same
    track ids, every counted id is among them, and [vehicle_count] is the
    number of distinct counted ids and the number of crossings put on the
    queue so far. *)
Theorem run_keeps_stores_consistent cfg start script :
  let st := fst (fst (detection_loop cfg start initial_state script)) in
  let out := snd (fst (detection_loop cfg start initial_state script)) in
  dom (previous_positions st) = dom (first_seen_position st)
  /\ crossed_ids st ⊆ dom (previous_positions st)
  /\ size (crossed_ids st) = vehicle_count st
  /\ vehicle_count st = length out.
Proof.
  intros st out.
  assert (H : consistent st).
  { apply (detection_loop_related cfg (fun a b => consistent a -> consistent b)).
    - auto.
    - auto.
    - intros line_x now start' st0 d. apply process_detection_consistent.
    - apply initial_state_consistent. }
  destruct H as (H1 & H2 & H3).
  repeat split; try assumption.
  subst st out.
  destruct (detection_loop cfg start initial_state script)
    as [[st' out'] r] eqn:Hloop.
  apply (em_count _ _ _ _
           (DetectorFacts.detection_loop_emits _ _ _ _ _ _ _ Hloop)).
Qed.

(** ** What is put on the queue *)

Lemma process_detection_measures cfg line_x now start st d :
  Forall (fun c =>
            (min_time_before_count cfg < time_elapsed c)%Q
            /\ (0 <= distance_pixels c)%Q
            /\ (timestamp c == now - start)%Q)
         (snd (process_detection cfg line_x now start st d)).
Proof.
  unfold process_detection.
  destruct (negb _); [constructor |].
  destruct (center (det_box d)) as [cx cy].
  destruct (previous_positions st !! det_track_id d) as [[px py] |];
    [| constructor].
  destruct (_ && _); [| constructor].
  destruct (match first_seen_position st !! det_track_id d with
            | Some e => e | None => _ end) as [[fx fy] ft].
  destruct (Py.Qlt_bool _ _) eqn:Hdwell; [| constructor].
  constructor; [| constructor].
  cbn [time_elapsed distance_pixels timestamp].
  split; [apply PyFacts.Qlt_bool_iff, Hdwell |].
  split; [apply Qabs_nonneg | reflexivity].
Qed.

Lemma run_detection_measures cfg w :
  Forall (fun c =>
            (min_time_before_count cfg < time_elapsed c)%Q
            /\ (0 <= distance_pixels c)%Q)
         (events (fst (run_detection cfg w))).
Proof.
  apply run_detection_produces.
  intros line_x now start st d.
  eapply List.Forall_impl; [| apply process_detection_measures].
  intros c (H1 & H2 & _). split; assumption.
Qed.

(** Every crossing that a run puts on the queue has waited strictly
    longer than the configured minimum time and carries a distance that
    is not negative. *)
Theorem crossings_are_measured cfg w :
  Forall (fun c =>
            (min_time_before_count cfg < time_elapsed c)%Q
            /\ (0 <= distance_pixels c)%Q)
         (events (fst (run_detection cfg w))).
Proof. apply run_detection_measures. Qed.

(** In every run the queue holds crossings and then at most one [None]:
    nothing is put after the sentinel and it is never put twice.  When
    [run_detection] returns, the sentinel is there, last. *)
Theorem nothing_follows_the_sentinel cfg w :
  exists out,
    (fst (run_detection cfg w) = map Data out
     \/ fst (run_detection cfg w) = map Data out ++ [PyNone])
    /\ (snd (run_detection cfg w) = Returns ->
        fst (run_detection cfg w) = map Data out ++ [PyNone]).
Proof.
  unfold run_detection.
  destruct (load_model w) as [[] | e].
  2:{ exists []. simpl. split; [left; reflexivity | discriminate]. }
  destruct (negb (is_opened w)).
  { exists []. simpl. split; [right; reflexivity | reflexivity]. }
  destruct (if save_frames cfg then makedirs w else Py.Ok tt) as [[] | e].
  2:{ exists []. simpl. split; [left; reflexivity | discriminate]. }
  destruct (detection_loop cfg (start_time w) initial_state (frames w))
    as [[st' out] r].
  exists out. destruct r as [| e |].
  - simpl. split; [right; reflexivity | reflexivity].
  - destruct e; simpl; (split; [right; reflexivity | reflexivity]).
  - simpl. split; [left; reflexivity | discriminate].
Qed.

(** ** The end of the loop *)

Lemma detection_loop_read_fails cfg start pre post : forall st,
  detection_loop cfg start st (pre ++ ReadFails :: post)
  = detection_loop cfg start st pre.
Proof.
  induction pre as [| s pre IH]; intros st; [reflexivity |].
  simpl. destruct s as [| f abort |]; [reflexivity | | reflexivity].
  destruct (process_frame cfg start st f abort) as [[st1 out1] [e |]];
    [reflexivity |].
  rewrite IH. reflexivity.
Qed.

Lemma detection_loop_raises cfg start pre f k e post : forall st,
  detection_loop cfg start st (pre ++ Frame f (Some (k, e)) :: post)
  = detection_loop cfg start st (pre ++ [Frame f (Some (k, e))]).
Proof.
  induction pre as [| s pre IH]; intros st.
  - simpl. unfold process_frame.
    destruct (process_boxes _ _ _ _ _ _) as [st1 out1]. reflexivity.
  - simpl. destruct s as [| f0 abort |]; [reflexivity | | reflexivity].
    destruct (process_frame cfg start st f0 abort) as [[st1 out1] [e0 |]];
      [reflexivity |].
    rewrite IH. reflexivity.
Qed.

(** There is no retry: after a read that fails, and after a frame during
    which an exception is raised, no later frame is processed.  The run
    is the one of a camera whose input ends there. *)
Theorem no_frame_after_the_loop_ends cfg w pre post :
  run_detection cfg (with_frames w (pre ++ ReadFails :: post))
  = run_detection cfg (with_frames w pre)
  /\ forall f k e,
       run_detection cfg (with_frames w (pre ++ Frame f (Some (k, e)) :: post))
       = run_detection cfg (with_frames w (pre ++ [Frame f (Some (k, e))])).
Proof.
  unfold run_detection, with_frames. simpl. split.
  - rewrite detection_loop_read_fails. reflexivity.
  - intros f k e. rewrite detection_loop_raises. reflexivity.
Qed.

End DetectorInvariants.

(** * The receive loop of the analyzer *)

Module StreamFacts.
Import Analyzer Tracks.

Lemma before_sentinel_app_sentinel pre post :
  (forall x, In x pre -> x <> PyNone) ->
  before_sentinel (pre ++ PyNone :: post) = events pre.
Proof.
  induction pre as [| x pre IH]; intros H; simpl; [reflexivity |].
  destruct x as [c |].
  - rewrite IH; [reflexivity |]. intros y Hy. apply H. right. exact Hy.
  - exfalso. apply (H PyNone); [left |]; reflexivity.
Qed.

Lemma before_sentinel_events queue :
  exists rest, events queue = before_sentinel queue ++ rest.
Proof.
  induction queue as [| x queue IH]; simpl; [exists []; reflexivity |].
  destruct x as [c |].
  - destruct IH as [rest ->]. exists rest. reflexivity.
  - exists (events queue). reflexivity.
Qed.

(** What one run of the loop does to the list of vehicles: it appends
    the records of a prefix of the crossings that come before the
    sentinel, all of them unless an exception ends the loop. *)
Lemma analyze_loop_prefix cfg queue : forall vs0 file0 vs file e,
  analyze_loop cfg queue vs0 file0 = (vs, file, e) ->
  exists taken rest new,
    before_sentinel queue = taken ++ rest
    /\ vs = vs0 ++ new
    /\ Forall2 (built cfg) taken new
    /\ ((forall x, e <> Raised x) -> rest = []).
Proof.
  induction queue as [| it queue IH]; simpl; intros vs0 file0 vs file e H.
  - injection H as <- <- <-. exists [], [], [].
    rewrite !app_nil_r. repeat split; constructor.
  - destruct it as [data |].
    2:{ injection H as <- <- <-. exists [], [], [].
        rewrite !app_nil_r. repeat split; constructor. }
    destruct (build_vehicle (rtl_correction_factor cfg) data) as [v | x] eqn:Hb.
    2:{ injection H as <- <- <-.
        exists [], (data :: before_sentinel queue), [].
        rewrite !app_nil_r. split; [reflexivity |]. split; [reflexivity |].
        split; [constructor |]. intros Hx. destruct (Hx x). reflexivity. }
    assert (Hstop : forall x,
              exists taken rest new,
                data :: before_sentinel queue = taken ++ rest
                /\ vs0 ++ [v] = vs0 ++ new
                /\ Forall2 (built cfg) taken new
                /\ ((forall y, Raised x <> Raised y) -> rest = [])).
    { intros x. exists [data], (before_sentinel queue), [v].
      split; [reflexivity |]. split; [reflexivity |].
      split; [constructor; [exact Hb | constructor] |].
      intros Hx. destruct (Hx x). reflexivity. }
    assert (Hnext : forall file1,
              analyze_loop cfg queue (vs0 ++ [v]) file1 = (vs, file, e) ->
              exists taken rest new,
                data :: before_sentinel queue = taken ++ rest
                /\ vs = vs0 ++ new
                /\ Forall2 (built cfg) taken new
                /\ ((forall x, e <> Raised x) -> rest = [])).
    { intros file1 Hl.
      destruct (IH _ _ _ _ _ Hl) as (taken & rest & new & E1 & E2 & F & Hr).
      exists (data :: taken), rest, (v :: new).
      split; [simpl; rewrite E1; reflexivity |].
      split; [rewrite E2, <- app_assoc; reflexivity |].
      split; [constructor; assumption | exact Hr]. }
    destruct (Py.mod_ _ _) as [r | x].
    + destruct (r =? 0).
      * destruct (write_report (vs0 ++ [v]) cfg) as [[rep |] | x]; eauto.
        injection H as <- <- <-. apply Hstop.
      * eauto.
    + injection H as <- <- <-. apply Hstop.
Qed.

Lemma analyze_stream_loop cfg queue :
  fst (fst (analyze_stream cfg queue))
  = fst (fst (analyze_loop cfg queue [] None)).
Proof. apply AnalyzerFacts.analyze_stream_vehicles. Qed.

(** The analyzer works first in, first out: the records it has built
    are, one for one and in order, those of the first crossings that were
    put on the queue before the first [None].  No crossing is skipped,
    repeated or taken out of order, and none behind the sentinel is
    recorded. *)
Theorem records_follow_the_queue cfg queue :
  let vehicles := fst (fst (analyze_stream cfg queue)) in
  exists taken rest,
    before_sentinel queue = taken ++ rest
    /\ Forall2 (built cfg) taken vehicles.
Proof.
  intros vehicles. subst vehicles. rewrite analyze_stream_loop.
  destruct (analyze_loop cfg queue [] None) as [[vs file] e] eqn:H.
  destruct (analyze_loop_prefix _ _ _ _ _ _ _ H)
    as (taken & rest & new & E1 & E2 & F & Hr).
  simpl in E2. subst new. exists taken, rest. auto.
Qed.

(** ** The sentinel *)

Lemma analyze_loop_after_sentinel cfg pre post : forall vs file,
  analyze_loop cfg (pre ++ PyNone :: post) vs file
  = analyze_loop cfg (pre ++ [PyNone]) vs file.
Proof.
  induction pre as [| it pre IH]; intros vs file; simpl; [reflexivity |].
  destruct it as [data |]; [| reflexivity].
  destruct (build_vehicle _ data) as [v | x]; [| reflexivity].
  destruct (Py.mod_ _ _) as [r | x]; [| reflexivity].
  destruct (r =? 0); [| apply IH].
  destruct (write_report _ cfg) as [[rep |] | x]; try apply IH. reflexivity.
Qed.

(** The receive loop stops at the first [None]: whatever is on the queue
    behind it is never dequeued. *)
Theorem nothing_is_dequeued_after_the_sentinel cfg pre post :
  analyze_stream cfg (pre ++ PyNone :: post)
  = analyze_stream cfg (pre ++ [PyNone]).
Proof.
  unfold analyze_stream. rewrite analyze_loop_after_sentinel. reflexivity.
Qed.

Lemma analyze_loop_blocks cfg queue : forall vs0 file0 vs file,
  analyze_loop cfg queue vs0 file0 = (vs, file, Blocks) ->
  ~ In PyNone queue.
Proof.
  induction queue as [| it queue IH]; simpl; intros vs0 file0 vs file H.
  - tauto.
  - destruct it as [data |]; [| discriminate].
    intros [Hd | Hin]; [discriminate |].
    destruct (build_vehicle _ data) as [v | x]; [| discriminate].
    destruct (Py.mod_ _ _) as [r | x]; [| discriminate].
    destruct (r =? 0).
    + destruct (write_report _ cfg) as [[rep |] | x]; try discriminate;
        eapply IH; eassumption.
    + eapply IH; eassumption.
Qed.

(** A queue that holds the sentinel never leaves the analyzer waiting:
    [analyze_stream] comes to its end. *)
Theorem sentinel_ends_the_analyzer cfg queue :
  In PyNone queue ->
  snd (analyze_stream cfg queue) <> Blocked.
Proof.
  intros Hin. unfold analyze_stream.
  destruct (analyze_loop cfg queue [] None) as [[vs file] e] eqn:H.
  destruct e as [| x |].
  - destruct vs; [discriminate |].
    destruct (write_report _ cfg) as [[rep |] | y]; discriminate.
  - destruct vs; [discriminate |].
    destruct (write_report _ cfg) as [[rep |] | y]; discriminate.
  - destruct (analyze_loop_blocks _ _ _ _ _ _ H Hin).
Qed.

Lemma sentinel_ends_the_analyzer_witness :
  snd (analyze_stream Desk.config
         [Data (Desk.crossing_100 1 RTL); PyNone;
          Data (Desk.crossing_100 2 LTR)])
  <> Blocked.
Proof.
  apply (sentinel_ends_the_analyzer Desk.config
           [Data (Desk.crossing_100 1 RTL); PyNone;
            Data (Desk.crossing_100 2 LTR)]).
  right. left. reflexivity.
Defined.

(** ** Reports written by the loop *)

Lemma write_report_needs_four vehicles cfg rep :
  write_report vehicles cfg = Py.Ok (Some rep) -> (4 <= length vehicles)%nat.
Proof.
  intros H. destruct (AnalyzerFacts.write_report_inv _ _ _ H) as [H4 _].
  exact H4.
Qed.

Lemma write_report_few vehicles cfg :
  (length vehicles < 4)%nat -> write_report vehicles cfg = Py.Ok None.
Proof.
  intros H. unfold write_report.
  destruct (Nat.ltb_spec (length vehicles) 4) as [_ | ?]; [reflexivity | lia].
Qed.

(** The loop only lengthens the list, and it replaces the report file
    only once it holds four vehicles. *)
Lemma analyze_loop_file cfg queue : forall vs0 file0 vs file e,
  analyze_loop cfg queue vs0 file0 = (vs, file, e) ->
  (length vs0 <= length vs)%nat
  /\ (file = file0 \/ (4 <= length vs)%nat).
Proof.
  induction queue as [| it queue IH]; simpl; intros vs0 file0 vs file e H.
  - injection H as <- <- <-. auto.
  - destruct it as [data |]; [| injection H as <- <- <-; auto].
    destruct (build_vehicle _ data) as [v | x];
      [| injection H as <- <- <-; auto].
    assert (Hlen : (length vs0 <= length (vs0 ++ [v]))%nat)
      by (rewrite length_app; lia).
    assert (Hkeep : forall file1,
              analyze_loop cfg queue (vs0 ++ [v]) file1 = (vs, file, e) ->
              (length vs0 <= length vs)%nat
              /\ (file = file1 \/ (4 <= length vs)%nat)).
    { intros file1 Hl. destruct (IH _ _ _ _ _ Hl) as [H1 H2].
      split; [lia | exact H2]. }
    destruct (Py.mod_ _ _) as [r | x]; [| injection H as <- <- <-; auto].
    destruct (r =? 0); [| apply Hkeep, H].
    destruct (write_report (vs0 ++ [v]) cfg) as [[rep |] | x] eqn:Hw.
    + destruct (Hkeep _ H) as [H1 H2]. split; [exact H1 |]. right.
      destruct (IH _ _ _ _ _ H) as [H3 _].
      pose proof (write_report_needs_four _ _ _ Hw). lia.
    + apply Hkeep, H.
    + injection H as <- <- <-. auto.
Qed.

Lemma analyze_loop_length cfg queue vs file e :
  analyze_loop cfg queue [] None = (vs, file, e) ->
  (length vs <= length (events queue))%nat.
Proof.
  intros H.
  destruct (analyze_loop_prefix _ _ _ _ _ _ _ H)
    as (taken & rest & new & E1 & E2 & F & _).
  simpl in E2. subst new.
  destruct (before_sentinel_events queue) as [more E].
  rewrite E, E1, !length_app, <- (Forall2_length _ _ _ F). lia.
Qed.

(** With fewer than four crossings on the queue no report is ever
    written, whatever the configuration: neither the loop nor the
    [finally] clause gets a call of [write_report] past line 137. *)
Theorem no_report_below_four_vehicles cfg queue :
  (length (events queue) < 4)%nat ->
  snd (fst (analyze_stream cfg queue)) = None.
Proof.
  intros Hfew. unfold analyze_stream.
  destruct (analyze_loop cfg queue [] None) as [[vs file] e] eqn:H.
  pose proof (analyze_loop_length _ _ _ _ _ H) as Hlen.
  destruct (analyze_loop_file _ _ _ _ _ _ _ H) as [_ [-> | ?]]; [| lia].
  assert (Hw : write_report vs cfg = Py.Ok None)
    by (apply write_report_few; lia).
  destruct e as [| x |]; try reflexivity;
    (destruct vs as [| v vs']; [reflexivity |]);
    rewrite Hw; reflexivity.
Qed.

Lemma no_report_below_four_vehicles_witness :
  snd (fst (analyze_stream Desk.up_to_100
              [Data (Desk.crossing_100 1 RTL);
               Data (Desk.crossing_100 2 LTR); PyNone]))
  = None.
Proof.
  apply (no_report_below_four_vehicles Desk.up_to_100
           [Data (Desk.crossing_100 1 RTL);
            Data (Desk.crossing_100 2 LTR); PyNone]).
  simpl. lia.
Defined.

(** ** A report interval of zero *)

Lemma analyze_loop_interval_zero cfg queue vs0 file0 :
  report_update_interval cfg = 0 ->
  analyze_loop cfg queue vs0 file0
  = match queue with
    | Data data :: _ =>
        match build_vehicle (rtl_correction_factor cfg) data with
        | Py.Ok v => (vs0 ++ [v], file0, Raised Py.ZeroDivisionError)
        | Py.Raise x => (vs0, file0, Raised x)
        end
    | PyNone :: _ => (vs0, file0, Sentinel)
    | [] => (vs0, file0, Blocks)
    end.
Proof.
  intros Hz. destruct queue as [| [data |] queue]; simpl; try reflexivity.
  destruct (build_vehicle _ data) as [v | x]; [| reflexivity].
  rewrite Hz. reflexivity.
Qed.

(** With [report_update_interval] set to 0 the remainder of line 104
    raises [ZeroDivisionError] on the first vehicle: its record is kept,
    the exception is caught, nothing more is dequeued and no report is
    written. *)
Theorem zero_interval_stops_after_one_vehicle cfg data rest v :
  report_update_interval cfg = 0 ->
  build_vehicle (rtl_correction_factor cfg) data = Py.Ok v ->
  analyze_stream cfg (Data data :: rest) = ([v], None, Returns).
Proof.
  intros Hz Hb. unfold analyze_stream.
  rewrite (analyze_loop_interval_zero _ _ _ _ Hz), Hb. simpl app.
  rewrite write_report_few by (simpl; lia). reflexivity.
Qed.

Lemma zero_interval_stops_after_one_vehicle_witness :
  exists v,
    analyze_stream
      {| report_update_interval := 0;
         rtl_correction_factor := 115 # 100;
         percentile_low := 5;
         percentile_high := 95;
         normal_range_bins := 4 |}
      [Data (Desk.crossing_100 1 RTL); Data (Desk.crossing_100 2 LTR);
       PyNone]
    = ([v], None, Returns).
Proof.
  eexists.
  apply (zero_interval_stops_after_one_vehicle
           {| report_update_interval := 0;
              rtl_correction_factor := 115 # 100;
              percentile_low := 5;
              percentile_high := 95;
              normal_range_bins := 4 |}
           (Desk.crossing_100 1 RTL)
           [Data (Desk.crossing_100 2 LTR); PyNone]).
  - reflexivity.
  - reflexivity.
Defined.

(** ** An upper percentile of 100 *)

(** With the upper percentile configured as 100, an analyzer that has
    gathered four vehicles or more and is not left waiting ends with the
    [IndexError] of the final report leaving [analyze_stream]: the
    [finally] clause raises before the data file is closed. *)
Theorem percentile_100_leaves_with_index_error cfg queue :
  (percentile_high cfg == 100)%Q ->
  (4 <= length (fst (fst (analyze_stream cfg queue))))%nat ->
  snd (analyze_stream cfg queue) = Blocked
  \/ snd (analyze_stream cfg queue) = Propagates Py.IndexError.
Proof.
  intros Hp Hlen. rewrite analyze_stream_loop in Hlen. unfold analyze_stream.
  destruct (analyze_loop cfg queue [] None) as [[vs file] e].
  simpl in Hlen.
  destruct e as [| x |]; [| | left; reflexivity];
    (destruct vs as [| v vs']; [simpl in Hlen; lia |]);
    rewrite (AnalyzerFacts.write_report_percentile_100 _ _ Hlen Hp);
    right; reflexivity.
Qed.

Lemma percentile_100_leaves_with_index_error_witness :
  snd (analyze_stream Desk.up_to_100
         [Data (Desk.crossing_100 1 RTL); Data (Desk.crossing_100 2 LTR);
          Data (Desk.crossing_100 3 RTL); Data (Desk.crossing_100 4 LTR);
          PyNone])
  = Propagates Py.IndexError.
Proof.
  destruct (percentile_100_leaves_with_index_error Desk.up_to_100
              [Data (Desk.crossing_100 1 RTL); Data (Desk.crossing_100 2 LTR);
               Data (Desk.crossing_100 3 RTL); Data (Desk.crossing_100 4 LTR);
               PyNone]) as [H | H].
  - reflexivity.
  - simpl. lia.
  - discriminate H.
  - exact H.
Defined.

End StreamFacts.

(** * What the report says about its counters *)

Module SummaryFacts.
Import Analyzer Summary Tracks.

(** ** Slices of a list of counters *)

Lemma slice_inner {A : Type} (x z : A) (mid : list A) :
  slice (x :: mid ++ [z]) 1 (-1) = mid.
Proof.
  unfold slice, clamp. simpl length. rewrite length_app. simpl length.
  destruct (Z.ltb_spec (-1) 0) as [_ | ?]; [| lia].
  destruct (Z.ltb_spec 1 0) as [? | _]; [lia |].
  replace (Z.to_nat (Z.min 1 (Z.of_nat (S (length mid + 1))))) with 1%nat
    by lia.
  replace (Z.to_nat (Z.max (-1 + Z.of_nat (S (length mid + 1))) 0
                     - Z.min 1 (Z.of_nat (S (length mid + 1)))))
    with (length mid) by lia.
  simpl skipn. apply take_app_length.
Qed.

Lemma slice_lower {A : Type} (x z : A) (mid : list A) (m : nat) :
  (m <= length mid)%nat ->
  slice (x :: mid ++ [z]) 1 (1 + Z.of_nat m) = firstn m mid.
Proof.
  intros Hm. unfold slice, clamp. simpl length. rewrite length_app.
  simpl length.
  destruct (Z.ltb_spec (1 + Z.of_nat m) 0) as [? | _]; [lia |].
  destruct (Z.ltb_spec 1 0) as [? | _]; [lia |].
  replace (Z.to_nat (Z.min 1 (Z.of_nat (S (length mid + 1))))) with 1%nat
    by lia.
  replace (Z.to_nat (Z.min (1 + Z.of_nat m) (Z.of_nat (S (length mid + 1)))
                     - Z.min 1 (Z.of_nat (S (length mid + 1)))))
    with m by lia.
  simpl skipn. apply take_app_le. exact Hm.
Qed.

Lemma slice_upper {A : Type} (x z : A) (mid : list A) (m : nat) :
  (m <= length mid)%nat ->
  slice (x :: mid ++ [z]) (1 + Z.of_nat m) (-1) = skipn m mid.
Proof.
  intros Hm. unfold slice, clamp. simpl length. rewrite length_app.
  simpl length.
  destruct (Z.ltb_spec (1 + Z.of_nat m) 0) as [? | _]; [lia |].
  destruct (Z.ltb_spec (-1) 0) as [_ | ?]; [| lia].
  replace (Z.to_nat (Z.min (1 + Z.of_nat m) (Z.of_nat (S (length mid + 1)))))
    with (S m) by lia.
  replace (Z.to_nat (Z.max (-1 + Z.of_nat (S (length mid + 1))) 0
                     - Z.min (1 + Z.of_nat m)
                         (Z.of_nat (S (length mid + 1)))))
    with (length mid - m)%nat by lia.
  simpl skipn. rewrite drop_app_le by exact Hm.
  rewrite <- (length_drop mid m). apply take_app_length.
Qed.

Lemma getitem_first {A : Type} (x : A) (l : list A) :
  Py.getitem (x :: l) 0 = Py.Ok x.
Proof.
  unfold Py.getitem. simpl length.
  destruct (Z.ltb_spec 0 0) as [? | _]; [lia |].
  destruct (Z.ltb_spec 0 0) as [? | _]; [lia |].
  destruct (Z.leb_spec (Z.of_nat (S (length l))) 0) as [? | _]; [lia |].
  reflexivity.
Qed.

Lemma getitem_last {A : Type} (l : list A) (z : A) :
  Py.getitem (l ++ [z]) (-1) = Py.Ok z.
Proof.
  unfold Py.getitem. rewrite length_app. simpl length.
  destruct (Z.ltb_spec (-1) 0) as [_ | ?]; [| lia].
  destruct (Z.ltb_spec (-1 + Z.of_nat (length l + 1)) 0) as [? | _]; [lia |].
  destruct (Z.leb_spec (Z.of_nat (length l + 1))
              (-1 + Z.of_nat (length l + 1))) as [? | _]; [lia |].
  replace (Z.to_nat (-1 + Z.of_nat (length l + 1))) with (length l) by lia.
  simpl orb. cbv iota.
  rewrite nth_error_app2 by lia. rewrite Nat.sub_diag. reflexivity.
Qed.

(** A list with two elements or more has a first, a last and what lies
    between them. *)
Lemma two_ends {A : Type} (l : list A) :
  (2 <= length l)%nat -> exists x mid z, l = x :: mid ++ [z].
Proof.
  intros H. destruct l as [| x l]; [simpl in H; lia |].
  destruct (exists_last (l := l)) as (mid & z & ->).
  { intros ->. simpl in H. lia. }
  exists x, mid, z. reflexivity.
Qed.

(** ** The key metrics *)

Lemma key_metrics_of_ends (x z : nat) (mid : list nat) :
  exists pct,
    key_metrics (x :: mid ++ [z])
    = Py.Ok {| normal_traffic := sum_list mid;
               outliers_low := x;
               outliers_high := z;
               mid_point := (length mid / 2)%nat;
               top_half_normal := sum_list (skipn (length mid / 2) mid);
               bottom_half_normal := sum_list (firstn (length mid / 2) mid);
               top_half_pct := pct |}
    /\ ((sum_list mid = 0)%nat -> pct = 0%Q)
    /\ ((0 < sum_list mid)%nat ->
        pct = (inject_Z (Z.of_nat (sum_list (skipn (length mid / 2) mid)))
               / inject_Z (Z.of_nat (sum_list mid)) * 100)%Q).
Proof.
  assert (Hm : (length mid / 2 <= length mid)%nat)
    by (apply Nat.Div0.div_le_upper_bound; lia).
  unfold key_metrics.
  assert (Elast : Py.getitem (x :: mid ++ [z]) (-1) = Py.Ok z)
    by apply (getitem_last (x :: mid) z).
  rewrite (getitem_first x (mid ++ [z])), Elast.
  rewrite slice_inner, (slice_lower x z mid _ Hm), (slice_upper x z mid _ Hm).
  cbn [mbind result_bind Py.bind].
  destruct (Nat.ltb_spec 0 (sum_list mid)) as [Hpos | Hzero].
  - unfold Py.truediv.
    destruct (Qeq_bool (inject_Z (Z.of_nat (sum_list mid))) 0) eqn:Hq.
    { apply Qeq_bool_iff in Hq. unfold Qeq in Hq. simpl in Hq. lia. }
    cbn. eexists. split; [reflexivity |]. split; [lia | reflexivity].
  - cbn. eexists. split; [reflexivity |]. split; [reflexivity | lia].
Qed.

Lemma sum_list_take_drop (l : list nat) (m : nat) :
  (sum_list (firstn m l) + sum_list (skipn m l))%nat = sum_list l.
Proof.
  rewrite <- sum_list_with_app, take_drop. reflexivity.
Qed.

Lemma share_between_0_and_100 (t n : nat) :
  (t <= n)%nat -> (0 < n)%nat ->
  (0 <= inject_Z (Z.of_nat t) / inject_Z (Z.of_nat n) * 100 <= 100)%Q.
Proof.
  intros Htn Hn.
  assert (Hn' : (0 < inject_Z (Z.of_nat n))%Q) by (rewrite <- (Zlt_Qlt 0); lia).
  assert (Ht0 : (0 <= inject_Z (Z.of_nat t))%Q) by (rewrite <- (Zle_Qle 0); lia).
  assert (Htn' : (inject_Z (Z.of_nat t) <= inject_Z (Z.of_nat n))%Q)
    by (rewrite <- Zle_Qle; lia).
  assert (H0 : (0 <= inject_Z (Z.of_nat t) / inject_Z (Z.of_nat n))%Q).
  { apply Qle_shift_div_l; [exact Hn' |]. rewrite Qmult_0_l. exact Ht0. }
  assert (H1 : (inject_Z (Z.of_nat t) / inject_Z (Z.of_nat n) <= 1)%Q).
  { apply Qle_shift_div_r; [exact Hn' |]. rewrite Qmult_1_l. exact Htn'. }
  split; lra.
Qed.

(** For counters of two bins or more the key metrics are always
    computed, and they split the counters: the normal traffic, the slow
    and the fast outliers add up to the sum of all counters; the lower
    and the upper half add up to the normal traffic; the share of the
    upper half lies between 0 and 100. *)
Theorem key_metrics_split_the_counters (bin_counts : list nat) :
  (2 <= length bin_counts)%nat ->
  exists m,
    key_metrics bin_counts = Py.Ok m
    /\ (normal_traffic m + outliers_low m + outliers_high m)%nat
       = sum_list bin_counts
    /\ (bottom_half_normal m + top_half_normal m)%nat = normal_traffic m
    /\ mid_point m = ((length bin_counts - 2) / 2)%nat
    /\ (0 <= top_half_pct m <= 100)%Q.
Proof.
  intros Hlen. destruct (two_ends _ Hlen) as (x & mid & z & ->).
  destruct (key_metrics_of_ends x z mid) as (pct & Hk & Hzero & Hpos).
  eexists. split; [exact Hk |]. cbn.
  split; [| split; [| split]].
  - change (x :: mid ++ [z]) with ([x] ++ mid ++ [z]).
    rewrite !sum_list_with_app. simpl. lia.
  - apply sum_list_take_drop.
  - rewrite length_app. simpl.
    replace (length mid + 1 - 1)%nat with (length mid) by lia. reflexivity.
  - destruct (Nat.eq_dec (sum_list mid) 0%nat) as [E | E].
    + rewrite (Hzero E). split; discriminate.
    + rewrite (Hpos ltac:(lia)). apply share_between_0_and_100; [| lia].
      pose proof (sum_list_take_drop mid (length mid / 2)). lia.
Qed.

Lemma key_metrics_split_the_counters_witness :
  exists m,
    key_metrics [1; 2; 3; 4; 5; 6]%nat = Py.Ok m
    /\ (normal_traffic m + outliers_low m + outliers_high m)%nat = 21%nat
    /\ (bottom_half_normal m + top_half_normal m)%nat = normal_traffic m.
Proof.
  destruct (key_metrics_split_the_counters [1; 2; 3; 4; 5; 6]%nat)
    as (m & Hk & H1 & H2 & _).
  - simpl. lia.
  - exists m. split; [exact Hk |]. split; [exact H1 | exact H2].
Defined.

(** ** The counters of a report *)

Lemma nth_alter_S (l : list nat) (i j : nat) :
  (j < length l)%nat ->
  nth i (alter S j l) 0%nat
  = (nth i l 0 + if (j =? i)%nat then 1 else 0)%nat.
Proof.
  intros Hj. rewrite !nth_lookup, list_lookup_alter.
  destruct (decide (j = i)) as [-> | Hne].
  - rewrite Nat.eqb_refl.
    destruct (lookup_lt_is_Some_2 l i Hj) as [v ->]. simpl. lia.
  - apply Nat.eqb_neq in Hne. rewrite Hne. lia.
Qed.

(** Each counter is the number of speeds for which the inner loop stops
    at its bin. *)
Lemma count_bins_nth bins speeds i : forall counts,
  (forall s, In s speeds ->
     exists j, find_bin s (length bins - 1) 0 bins = Some j
               /\ (j < length counts)%nat) ->
  nth i (count_bins bins counts speeds) 0%nat
  = (nth i counts 0 + length (List.filter (counted_in bins i) speeds))%nat.
Proof.
  induction speeds as [| s speeds IH]; intros counts Hall; simpl; [lia |].
  destruct (Hall s (or_introl eq_refl)) as (j & Hj & Hlt).
  unfold counted_in at 1. rewrite Hj. rewrite IH.
  - rewrite nth_alter_S by exact Hlt.
    destruct (j =? i)%nat; simpl; lia.
  - intros s' Hs'. destruct (Hall s' (or_intror Hs')) as (j' & Hj' & Hlt').
    exists j'. split; [exact Hj' |]. rewrite length_alter. exact Hlt'.
Qed.

Lemma count_bins_length bins speeds : forall counts,
  length (count_bins bins counts speeds) = length counts.
Proof.
  induction speeds as [| s speeds IH]; intros counts; simpl; [reflexivity |].
  rewrite IH. destruct (find_bin _ _ _ _); [apply length_alter | reflexivity].
Qed.

Lemma filter_length_perm (p : Q -> bool) (l l' : list Q) :
  Permutation l l' ->
  length (List.filter p l) = length (List.filter p l').
Proof.
  induction 1 as [| x l l' _ IH | x y l | l l' l'' _ IH1 _ IH2]; simpl.
  - reflexivity.
  - destruct (p x); simpl; rewrite IH; reflexivity.
  - destruct (p x), (p y); reflexivity.
  - rewrite IH1. exact IH2.
Qed.

(** Below the lower value, at or above the upper value, or between the
    two: every speed is of exactly one kind when the values are in
    order. *)
Lemma three_kinds (lo hi : Q) (l : list Q) :
  (lo <= hi)%Q ->
  length l
  = (length (List.filter (fun s => Py.Qlt_bool s lo) l)
     + length (List.filter
                 (fun s => Qle_bool lo s && Py.Qlt_bool s hi) l)
     + length (List.filter (fun s => Qle_bool hi s) l))%nat.
Proof.
  intros Hord. induction l as [| s l IH]; simpl; [reflexivity |].
  destruct (Py.Qlt_bool s lo) eqn:H1.
  - apply PyFacts.Qlt_bool_iff in H1.
    assert (H2 : Qle_bool lo s = false)
      by (apply PyFacts.Qle_bool_false_iff; exact H1).
    assert (H3 : Qle_bool hi s = false)
      by (apply PyFacts.Qle_bool_false_iff; lra).
    rewrite H2, H3. simpl. lia.
  - apply PyFacts.Qlt_bool_false_iff in H1.
    rewrite (proj2 (Qle_bool_iff lo s) H1). simpl andb.
    destruct (Py.Qlt_bool s hi) eqn:H2.
    + apply PyFacts.Qlt_bool_iff in H2.
      assert (H3 : Qle_bool hi s = false)
        by (apply PyFacts.Qle_bool_false_iff; exact H2).
      rewrite H3. simpl. lia.
    + apply PyFacts.Qlt_bool_false_iff in H2.
      rewrite (proj2 (Qle_bool_iff hi s) H2). simpl. lia.
Qed.

Section Report.

Variables (vehicles : list vehicle) (cfg : config) (rep : report).
Hypothesis written : write_report vehicles cfg = Py.Ok (Some rep).
Hypothesis low_not_negative : (0 <= percentile_low cfg)%Q.
Hypothesis low_below_high : (percentile_low cfg <= percentile_high cfg)%Q.
Hypothesis high_below_100 : (percentile_high cfg < 100)%Q.
Hypothesis speeds_not_negative :
  Forall (fun v => (0 <= speed_normalized v)%Q) vehicles.

Let speeds := map speed_normalized vehicles.
Let k := normal_range_bins cfg.
Let lo := min_speed_p rep.
Let hi := max_speed_p rep.

Lemma report_values_ordered : (lo <= hi)%Q.
Proof.
  exact (AnalyzerFacts.report_percentile_values_ordered _ _ _ written
           low_not_negative low_below_high high_below_100).
Qed.

Lemma report_speed_not_negative s : In s speeds -> (0 <= s)%Q.
Proof.
  intros Hs. apply in_map_iff in Hs. destruct Hs as (v & <- & Hv).
  rewrite List.Forall_forall in speeds_not_negative.
  apply speeds_not_negative, Hv.
Qed.

(** Where the inner loop stops for a speed of the report. *)
Lemma report_find s :
  (0 <= s)%Q ->
  exists i,
    find_bin s (length (bins rep) - 1) 0 (bins rep) = Some i
    /\ (i <= S k)%nat
    /\ (i = 0%nat <-> (s < lo)%Q)
    /\ (i = S k <-> (hi <= s)%Q).
Proof.
  intros Hs.
  destruct (AnalyzerFacts.write_report_inv _ _ _ written)
    as (_ & Hk & _ & _ & _ & _ & _ & Hbins & _).
  fold k lo hi in Hbins, Hk.
  assert (Hlast : (length (bins rep) - 1)%nat = S k).
  { rewrite Hbins, AnalyzerFacts.make_bins_length. lia. }
  rewrite Hlast, Hbins.
  destruct (AnalyzerFacts.find_bin_spec lo hi k report_values_ordered Hk s Hs)
    as (i & Hi & Hle & H0 & H1 & H2).
  exists i. split; [exact Hi |]. split; [exact Hle |].
  pose proof report_values_ordered as Hord.
  split; split.
  - intros ->. destruct (Qlt_le_dec s lo) as [? | Hge]; [assumption |].
    destruct (Qlt_le_dec s hi) as [Hlt | Hge'].
    + destruct (H2 Hge Hlt) as (j & Ej & _). discriminate.
    + specialize (H1 Hge'). discriminate.
  - exact H0.
  - intros ->. destruct (Qlt_le_dec s hi) as [Hlt | ?]; [| assumption].
    destruct (Qlt_le_dec s lo) as [Hlt' | Hge].
    + specialize (H0 Hlt'). discriminate.
    + destruct (H2 Hge Hlt) as (j & Ej & Hj & _). lia.
  - exact H1.
Qed.

Lemma report_counts :
  bin_counts rep = count_bins (bins rep) (repeat 0%nat (k + 2)) speeds
  /\ length (bin_counts rep) = (k + 2)%nat.
Proof.
  destruct (AnalyzerFacts.write_report_inv _ _ _ written)
    as (_ & _ & _ & _ & _ & _ & _ & _ & Hcounts).
  fold k speeds in Hcounts. split; [exact Hcounts |].
  rewrite Hcounts, count_bins_length, repeat_length. reflexivity.
Qed.

Lemma report_find_in_range s :
  In s speeds ->
  exists j, find_bin s (length (bins rep) - 1) 0 (bins rep) = Some j
            /\ (j < length (repeat 0%nat (k + 2)))%nat.
Proof.
  intros Hs.
  destruct (report_find s (report_speed_not_negative s Hs))
    as (i & Hi & Hle & _).
  exists i. split; [exact Hi |]. rewrite repeat_length. lia.
Qed.

Lemma report_counter i :
  nth i (bin_counts rep) 0%nat
  = length (List.filter (counted_in (bins rep) i) speeds).
Proof.
  destruct report_counts as [-> _].
  rewrite count_bins_nth by exact report_find_in_range.
  rewrite nth_repeat. reflexivity.
Qed.

Lemma report_counter_low :
  nth 0 (bin_counts rep) 0%nat
  = length (List.filter (fun s => Py.Qlt_bool s lo) speeds).
Proof.
  rewrite report_counter. f_equal. apply List.filter_ext_in.
  intros s Hs. unfold counted_in.
  destruct (report_find s (report_speed_not_negative s Hs))
    as (i & -> & _ & H0 & _).
  destruct (Py.Qlt_bool s lo) eqn:E.
  - apply PyFacts.Qlt_bool_iff, H0 in E. subst i. reflexivity.
  - apply Nat.eqb_neq. intros ->.
    apply PyFacts.Qlt_bool_false_iff in E.
    apply (Qlt_not_le s lo); [apply H0; reflexivity | exact E].
Qed.

Lemma report_counter_high :
  nth (S k) (bin_counts rep) 0%nat
  = length (List.filter (fun s => Qle_bool hi s) speeds).
Proof.
  rewrite report_counter. f_equal. apply List.filter_ext_in.
  intros s Hs. unfold counted_in.
  destruct (report_find s (report_speed_not_negative s Hs))
    as (i & -> & _ & _ & H1).
  destruct (Qle_bool hi s) eqn:E.
  - apply Qle_bool_iff, H1 in E. subst i. apply Nat.eqb_refl.
  - apply Nat.eqb_neq. intros ->.
    apply PyFacts.Qle_bool_false_iff in E.
    apply (Qlt_not_le s hi); [exact E | apply H1; reflexivity].
Qed.

Lemma report_counts_sum : sum_list (bin_counts rep) = length vehicles.
Proof.
  destruct report_counts as [-> _].
  rewrite AnalyzerFacts.count_bins_sum by exact report_find_in_range.
  rewrite AnalyzerFacts.sum_list_repeat_0. unfold speeds.
  rewrite length_map. reflexivity.
Qed.

(** The upper percentile value is one of the speeds. *)
Lemma report_values_observed : In lo speeds /\ In hi speeds.
Proof.
  destruct (AnalyzerFacts.write_report_inv _ _ _ written)
    as (_ & _ & _ & _ & _ & Hgl & Hgh & _).
  fold speeds lo hi in Hgl, Hgh.
  assert (Hin : forall i x, Py.getitem (sorted speeds) i = Py.Ok x ->
                            In x speeds).
  { intros i x. unfold Py.getitem. destruct (_ || _); [discriminate |].
    destruct (nth_error _ _) as [y |] eqn:E; [| discriminate].
    intros [= <-]. apply nth_error_In in E.
    eapply Permutation_in; [| exact E].
    symmetry. apply AnalyzerFacts.sorted_perm. }
  split; eapply Hin; eassumption.
Qed.

End Report.

Lemma filter_holds_one (p : Q -> bool) (x : Q) (l : list Q) :
  In x l -> p x = true -> (1 <= length (List.filter p l))%nat.
Proof.
  intros Hin Hp.
  assert (H : In x (List.filter p l)) by (apply filter_In; auto).
  destruct (List.filter p l); [destruct H | simpl; lia].
Qed.

(** The key metrics of a report, in terms of its speeds. *)
Lemma report_metrics vehicles cfg rep :
  write_report vehicles cfg = Py.Ok (Some rep) ->
  (0 <= percentile_low cfg)%Q ->
  (percentile_low cfg <= percentile_high cfg)%Q ->
  (percentile_high cfg < 100)%Q ->
  Forall (fun v => (0 <= speed_normalized v)%Q) vehicles ->
  let speeds := map speed_normalized vehicles in
  exists m,
    key_metrics (bin_counts rep) = Py.Ok m
    /\ outliers_low m
       = length (List.filter
                   (fun s => Py.Qlt_bool s (min_speed_p rep)) speeds)
    /\ outliers_high m
       = length (List.filter (fun s => Qle_bool (max_speed_p rep) s) speeds)
    /\ normal_traffic m
       = length (List.filter
                   (fun s => Qle_bool (min_speed_p rep) s
                             && Py.Qlt_bool s (max_speed_p rep)) speeds)
    /\ (1 <= outliers_high m)%nat.
Proof.
  intros Hrep H1 H2 H3 H4 speeds.
  destruct (report_counts _ _ _ Hrep) as [_ Hlen].
  pose proof (report_counter_low _ _ _ Hrep H1 H2 H3 H4) as Hlow.
  pose proof (report_counter_high _ _ _ Hrep H1 H2 H3 H4) as Hhigh.
  pose proof (report_counts_sum _ _ _ Hrep H1 H2 H3 H4) as Hsum.
  pose proof (report_values_ordered _ _ _ Hrep H1 H2 H3) as Hord.
  destruct (report_values_observed _ _ _ Hrep) as [_ Hobs].
  fold speeds in Hlow, Hhigh, Hobs.
  destruct (two_ends (bin_counts rep)) as (x & mid & z & E); [lia |].
  rewrite E in *.
  assert (Hmid : length mid = normal_range_bins cfg).
  { simpl in Hlen. rewrite length_app in Hlen. simpl in Hlen. lia. }
  simpl nth in Hlow.
  change (nth (S (normal_range_bins cfg)) (x :: mid ++ [z]) 0%nat)
    with (nth (normal_range_bins cfg) (mid ++ [z]) 0%nat) in Hhigh.
  rewrite app_nth2, Hmid, Nat.sub_diag in Hhigh by lia. simpl in Hhigh.
  destruct (key_metrics_of_ends x z mid) as (pct & Hk & _).
  eexists. split; [exact Hk |]. cbn.
  split; [exact Hlow |]. split; [exact Hhigh |]. split.
  - change (x :: mid ++ [z]) with ([x] ++ mid ++ [z]) in Hsum.
    rewrite !sum_list_with_app in Hsum. simpl in Hsum.
    pose proof (three_kinds _ _ speeds Hord) as H3k.
    unfold speeds in H3k at 1. rewrite length_map in H3k. lia.
  - rewrite Hhigh. eapply filter_holds_one; [exact Hobs |].
    apply Qle_bool_iff, Qle_refl.
Qed.

(** In a report over speeds that are not negative, with percentiles
    that satisfy [0 <= low <= high < 100], the slow outliers are exactly
    the speeds below the lower percentile value, and only speeds at or
    above the upper percentile value are counted as fast outliers. *)
Theorem outliers_are_speeds_outside vehicles cfg rep :
  write_report vehicles cfg = Py.Ok (Some rep) ->
  (0 <= percentile_low cfg)%Q ->
  (percentile_low cfg <= percentile_high cfg)%Q ->
  (percentile_high cfg < 100)%Q ->
  Forall (fun v => (0 <= speed_normalized v)%Q) vehicles ->
  let speeds := map speed_normalized vehicles in
  exists m,
    key_metrics (bin_counts rep) = Py.Ok m
    /\ outliers_low m
       = length (List.filter
                   (fun s => Py.Qlt_bool s (min_speed_p rep)) speeds)
    /\ (outliers_high m
        <= length (List.filter
                     (fun s => Qle_bool (max_speed_p rep) s) speeds))%nat.
Proof.
  intros Hrep H1 H2 H3 H4 speeds.
  destruct (report_metrics _ _ _ Hrep H1 H2 H3 H4)
    as (m & Hk & Hlow & Hhigh & _).
  exists m. split; [exact Hk |]. split; [exact Hlow |].
  fold speeds in Hhigh. rewrite Hhigh. reflexivity.
Qed.

Lemma outliers_are_speeds_outside_witness :
  exists rep m,
    write_report (map Desk.vehicle_of_speed [10; 20; 30; 40; 50]%Q)
                 Desk.quartiles = Py.Ok (Some rep)
    /\ key_metrics (bin_counts rep) = Py.Ok m
    /\ outliers_low m = 1%nat
    /\ (outliers_high m <= 2)%nat.
Proof.
  destruct (write_report (map Desk.vehicle_of_speed [10; 20; 30; 40; 50]%Q)
              Desk.quartiles) as [[rep |] | e] eqn:Hrep;
    try (vm_compute in Hrep; discriminate).
  destruct (outliers_are_speeds_outside _ _ rep Hrep)
    as (m & Hk & Hlow & Hhigh).
  - discriminate.
  - discriminate.
  - reflexivity.
  - repeat constructor; discriminate.
  - exists rep, m. split; [reflexivity |]. split; [exact Hk |].
    vm_compute in Hrep. injection Hrep as <-.
    split; [exact Hlow | exact Hhigh].
Defined.

(** ** What [summarize] returns *)

Lemma summarize_inv vehicles th rep s :
  summarize vehicles th rep = Py.Ok s ->
  Py.getitem (sorted_speeds rep) 0 = Py.Ok (actual_min s)
  /\ Py.getitem (sorted_speeds rep) (-1) = Py.Ok (actual_max s)
  /\ mean (map speed_normalized vehicles) = Py.Ok (mean_speed s)
  /\ key_metrics (bin_counts rep) = Py.Ok (key s)
  /\ headline s
     = interpretation (length vehicles) (key s) (clustering_threshold th)
  /\ directional_comparison (speeds_of RTL vehicles) (speeds_of LTR vehicles)
       (directional_difference th)
     = Py.Ok (directions s).
Proof.
  unfold summarize.
  destruct (Py.getitem (sorted_speeds rep) 0) as [a |]; [| discriminate].
  destruct (Py.getitem (sorted_speeds rep) (-1)) as [b |]; [| discriminate].
  destruct (mean _) as [mu |]; [| discriminate].
  destruct (key_metrics _) as [m |]; [| discriminate].
  destruct (directional_comparison _ _ _) as [c |]; [| discriminate].
  cbn. intros [= <-]. cbn. auto 10.
Qed.

Lemma few_vehicles_exceed (n : nat) (m : metrics) (thresh : Q) :
  (n < 20)%nat -> (1 <= outliers_high m)%nat ->
  interpretation n m thresh = ExcessiveSpeeding.
Proof.
  intros Hn Hm. unfold interpretation.
  assert (H : (inject_Z (Z.of_nat n) * (5 # 100)
               < inject_Z (Z.of_nat (outliers_high m)))%Q).
  { assert (H19 : (inject_Z (Z.of_nat n) <= 19)%Q).
    { change 19%Q with (inject_Z 19). rewrite <- Zle_Qle. lia. }
    assert (H1 : (1 <= inject_Z (Z.of_nat (outliers_high m)))%Q).
    { change 1%Q with (inject_Z 1). rewrite <- Zle_Qle. lia. }
    lra. }
  apply PyFacts.Qlt_bool_iff in H. rewrite H. reflexivity.
Qed.

(** With fewer than twenty vehicles one fast outlier is enough for the
    interpretation "excessive speeding", whatever the clustering
    threshold: one vehicle is more than 5 percent of fewer than
    twenty. *)
Theorem one_fast_outlier_is_excessive_below_twenty vehicles th rep s :
  summarize vehicles th rep = Py.Ok s ->
  (length vehicles < 20)%nat ->
  (1 <= outliers_high (key s))%nat ->
  headline s = ExcessiveSpeeding.
Proof.
  intros Hs Hn Hone.
  destruct (summarize_inv _ _ _ _ Hs) as (_ & _ & _ & _ & -> & _).
  apply few_vehicles_exceed; assumption.
Qed.

Lemma one_fast_outlier_is_excessive_below_twenty_witness :
  exists rep s,
    write_report (map Desk.vehicle_of_speed [10; 20; 30; 40; 50]%Q)
                 Desk.quartiles = Py.Ok (Some rep)
    /\ summarize (map Desk.vehicle_of_speed [10; 20; 30; 40; 50]%Q)
                 (mkThresholds 60 10) rep = Py.Ok s
    /\ headline s = ExcessiveSpeeding.
Proof.
  destruct (write_report (map Desk.vehicle_of_speed [10; 20; 30; 40; 50]%Q)
              Desk.quartiles) as [[rep |] | e] eqn:Hrep;
    try (vm_compute in Hrep; discriminate).
  destruct (summarize (map Desk.vehicle_of_speed [10; 20; 30; 40; 50]%Q)
              (mkThresholds 60 10) rep) as [s | e] eqn:Hs.
  2:{ vm_compute in Hrep. injection Hrep as <-.
      vm_compute in Hs. discriminate. }
  exists rep, s. split; [reflexivity |]. split; [exact Hs |].
  apply (one_fast_outlier_is_excessive_below_twenty
           (map Desk.vehicle_of_speed [10; 20; 30; 40; 50]%Q)
           (mkThresholds 60 10) rep s Hs).
  - simpl. lia.
  - vm_compute in Hrep. injection Hrep as <-.
    vm_compute in Hs. injection Hs as <-. simpl. lia.
Defined.

(** ** Outliers and ranks *)

Lemma sorted_from_index (l : list Q) : Sorted Qle l ->
  forall i a, nth_error l i = Some a ->
  Forall (fun y => (a <= y)%Q) (skipn i l).
Proof.
  intros Hs. apply Sorted_StronglySorted in Hs; [| exact Qle_trans].
  induction Hs as [| x l Hl IH Hx]; intros i a Hi.
  - destruct i; discriminate.
  - destruct i as [| i]; simpl in *.
    + injection Hi as <-. constructor; [apply Qle_refl | exact Hx].
    + apply IH, Hi.
Qed.

Lemma filter_none (p : Q -> bool) (l : list Q) :
  Forall (fun y => p y = false) l -> List.filter p l = [].
Proof.
  induction 1 as [| y l Hy _ IH]; simpl; [reflexivity |].
  rewrite Hy. exact IH.
Qed.

Lemma below_rank (l : list Q) (i : nat) (a : Q) :
  Sorted Qle l -> nth_error l i = Some a ->
  (length (List.filter (fun s => Py.Qlt_bool s a) l) <= i)%nat.
Proof.
  intros Hs Hi.
  rewrite <- (take_drop i l) at 1. rewrite List.filter_app, length_app.
  rewrite (filter_none _ (skipn i l)).
  - simpl. pose proof (filter_length_le (fun s => Py.Qlt_bool s a) (firstn i l)).
    pose proof (firstn_le_length i l). lia.
  - eapply List.Forall_impl; [| exact (sorted_from_index l Hs i a Hi)].
    intros y Hy. apply PyFacts.Qlt_bool_false_iff. exact Hy.
Qed.

(** The lower rank bounds the slow outliers: at most [p_low_idx]
    vehicles are counted as slow outliers.  (Percentiles with
    [0 <= low <= high < 100], speeds that are not negative.) *)
Theorem rank_bounds_the_slow_outliers vehicles cfg rep :
  write_report vehicles cfg = Py.Ok (Some rep) ->
  (0 <= percentile_low cfg)%Q ->
  (percentile_low cfg <= percentile_high cfg)%Q ->
  (percentile_high cfg < 100)%Q ->
  Forall (fun v => (0 <= speed_normalized v)%Q) vehicles ->
  exists m,
    key_metrics (bin_counts rep) = Py.Ok m
    /\ (Z.of_nat (outliers_low m) <= p_low_idx rep).
Proof.
  intros Hrep H1 H2 H3 H4.
  destruct (report_metrics _ _ _ Hrep H1 H2 H3 H4)
    as (m & Hk & Hlow & _).
  exists m. split; [exact Hk |].
  destruct (AnalyzerFacts.write_report_inv _ _ _ Hrep)
    as (Hlen & _ & _ & Hil & _ & Hgl & _).
  set (speeds := map speed_normalized vehicles) in *.
  assert (Hn : (1 <= length speeds)%nat).
  { unfold speeds. rewrite length_map. lia. }
  destruct (AnalyzerFacts.percentile_lookup speeds (percentile_low cfg) Hn H1)
    as (lo & Hgl' & Hnl & _ & Hbl); [lra |].
  rewrite <- Hil, Hgl in Hgl'. injection Hgl' as <-.
  rewrite <- Hil in Hnl, Hbl.
  pose proof (AnalyzerFacts.sorted_Sorted speeds) as Hs.
  pose proof (AnalyzerFacts.sorted_perm speeds) as Hp.
  rewrite (filter_length_perm _ _ _ Hp) in Hlow.
  pose proof (below_rank _ _ _ Hs Hnl) as Hb.
  lia.
Qed.

Lemma rank_bounds_the_slow_outliers_witness :
  exists rep m,
    write_report (map Desk.vehicle_of_speed [10; 20; 30; 40; 50]%Q)
                 Desk.quartiles = Py.Ok (Some rep)
    /\ key_metrics (bin_counts rep) = Py.Ok m
    /\ (Z.of_nat (outliers_low m) <= 1).
Proof.
  destruct (write_report (map Desk.vehicle_of_speed [10; 20; 30; 40; 50]%Q)
              Desk.quartiles) as [[rep |] | e] eqn:Hrep;
    try (vm_compute in Hrep; discriminate).
  destruct (rank_bounds_the_slow_outliers _ _ rep Hrep) as (m & Hk & Hlow).
  - discriminate.
  - discriminate.
  - reflexivity.
  - repeat constructor; discriminate.
  - exists rep, m. split; [reflexivity |]. split; [exact Hk |].
    vm_compute in Hrep. injection Hrep as <-. exact Hlow.
Defined.

(** ** Percentile values and extremes *)

(** The two percentile values of a report are speeds of vehicles of the
    report, and the lower one is not above the upper one, for percentiles
    with [0 <= low <= high < 100]. *)
Theorem percentile_values_are_observed_speeds vehicles cfg rep :
  write_report vehicles cfg = Py.Ok (Some rep) ->
  (0 <= percentile_low cfg)%Q ->
  (percentile_low cfg <= percentile_high cfg)%Q ->
  (percentile_high cfg < 100)%Q ->
  In (min_speed_p rep) (map speed_normalized vehicles)
  /\ In (max_speed_p rep) (map speed_normalized vehicles)
  /\ (min_speed_p rep <= max_speed_p rep)%Q.
Proof.
  intros Hrep H1 H2 H3.
  destruct (report_values_observed _ _ _ Hrep) as [Hlo Hhi].
  split; [exact Hlo |]. split; [exact Hhi |].
  exact (report_values_ordered _ _ _ Hrep H1 H2 H3).
Qed.

Lemma percentile_values_are_observed_speeds_witness :
  exists rep,
    write_report (map Desk.vehicle_of_speed [40; 10; 30; 20]%Q) Desk.quartiles
    = Py.Ok (Some rep)
    /\ (min_speed_p rep <= max_speed_p rep)%Q.
Proof.
  destruct (write_report (map Desk.vehicle_of_speed [40; 10; 30; 20]%Q)
              Desk.quartiles) as [[rep |] | e] eqn:Hrep;
    try (vm_compute in Hrep; discriminate).
  exists rep. split; [reflexivity |].
  apply (percentile_values_are_observed_speeds _ _ rep Hrep).
  - discriminate.
  - discriminate.
  - reflexivity.
Defined.

Lemma getitem_inv {A : Type} (l : list A) (i : Z) (a : A) :
  Py.getitem l i = Py.Ok a ->
  nth_error l (Z.to_nat (if i <? 0 then i + Z.of_nat (length l) else i))
  = Some a.
Proof.
  unfold Py.getitem. destruct (_ || _); [discriminate |].
  destruct (nth_error _ _); [| discriminate]. congruence.
Qed.

Lemma fsum_from (l : list Q) : forall acc,
  (fold_left Qplus l acc == acc + fsum l)%Q.
Proof.
  unfold fsum. induction l as [| x l IH]; intros acc; simpl.
  - ring.
  - rewrite (IH (acc + x)%Q), (IH (0 + x)%Q). ring.
Qed.

Lemma fsum_cons (x : Q) (l : list Q) : (fsum (x :: l) == x + fsum l)%Q.
Proof.
  unfold fsum at 1. simpl. rewrite fsum_from. ring.
Qed.

(** The full range of a report: the least and the greatest speed shown
    are speeds of vehicles of the report, and every speed of the report
    lies between them. *)
Theorem range_holds_every_speed vehicles cfg th rep s :
  write_report vehicles cfg = Py.Ok (Some rep) ->
  summarize vehicles th rep = Py.Ok s ->
  let speeds := map speed_normalized vehicles in
  In (actual_min s) speeds
  /\ In (actual_max s) speeds
  /\ (forall x, In x speeds ->
        (actual_min s <= x)%Q /\ (x <= actual_max s)%Q).
Proof.
  intros Hrep Hs speeds.
  destruct (summarize_inv _ _ _ _ Hs) as (Hmin & Hmax & _).
  destruct (AnalyzerFacts.write_report_inv _ _ _ Hrep)
    as (_ & _ & Hsorted & _).
  fold speeds in Hsorted. rewrite Hsorted in Hmin, Hmax.
  apply getitem_inv in Hmin. apply getitem_inv in Hmax.
  change (nth_error (sorted speeds) 0 = Some (actual_min s)) in Hmin.
  change (nth_error (sorted speeds)
            (Z.to_nat (-1 + Z.of_nat (length (sorted speeds))))
          = Some (actual_max s)) in Hmax.
  pose proof (AnalyzerFacts.sorted_Sorted speeds) as Hord.
  pose proof (AnalyzerFacts.sorted_perm speeds) as Hperm.
  assert (Hback : forall y, In y (sorted speeds) -> In y speeds).
  { intros y Hy. eapply Permutation_in; [symmetry; exact Hperm | exact Hy]. }
  assert (Hall : forall x, In x speeds ->
                 (actual_min s <= x)%Q /\ (x <= actual_max s)%Q).
  { intros x Hx.
    assert (Hx' : In x (sorted speeds))
      by (eapply Permutation_in; [exact Hperm | exact Hx]).
    apply In_nth_error in Hx'. destruct Hx' as [j Hj].
    assert (Hlt : (j < length (sorted speeds))%nat)
      by (apply nth_error_Some; congruence).
    split.
    - eapply (AnalyzerFacts.Sorted_nth_le _ Hord 0 j);
        [lia | exact Hmin | exact Hj].
    - eapply (AnalyzerFacts.Sorted_nth_le _ Hord j);
        [| exact Hj | exact Hmax]. lia. }
  split; [apply Hback; eapply nth_error_In; exact Hmin |].
  split; [apply Hback; eapply nth_error_In; exact Hmax |].
  exact Hall.
Qed.

Lemma range_holds_every_speed_witness :
  exists rep s,
    write_report (map Desk.vehicle_of_speed [40; 10; 30; 20]%Q) Desk.quartiles
    = Py.Ok (Some rep)
    /\ summarize (map Desk.vehicle_of_speed [40; 10; 30; 20]%Q)
                 (mkThresholds 60 10) rep = Py.Ok s
    /\ (actual_min s <= 25)%Q
    /\ (25 <= actual_max s)%Q.
Proof.
  destruct (write_report (map Desk.vehicle_of_speed [40; 10; 30; 20]%Q)
              Desk.quartiles) as [[rep |] | e] eqn:Hrep;
    try (vm_compute in Hrep; discriminate).
  destruct (summarize (map Desk.vehicle_of_speed [40; 10; 30; 20]%Q)
              (mkThresholds 60 10) rep) as [s | e] eqn:Hs.
  2:{ vm_compute in Hrep. injection Hrep as <-.
      vm_compute in Hs. discriminate. }
  exists rep, s. split; [reflexivity |]. split; [exact Hs |].
  destruct (range_holds_every_speed _ _ _ rep s Hrep Hs) as (_ & _ & Hall).
  destruct (Hall 10%Q) as [Hmin _]; [simpl; tauto |].
  destruct (Hall 40%Q) as [_ Hmax]; [simpl; tauto |].
  split; lra.
Defined.

(** ** The comparison of the two directions *)

Lemma mean_nonempty (l : list Q) (mu : Q) : mean l = Py.Ok mu -> l <> [].
Proof. intros H ->. discriminate H. Qed.

(** [t < x / m * 100] for a positive [m]. *)
Lemma exceeds_percent (t x m : Q) :
  (0 < m)%Q -> ((t < x / m * 100)%Q <-> (t * m < x * 100)%Q).
Proof.
  intros Hm.
  assert (E : (x / m * 100 == x * 100 / m)%Q) by (field; lra).
  rewrite E. split; intros H.
  - apply (Qmult_lt_r _ _ m Hm) in H.
    assert (E2 : (x * 100 / m * m == x * 100)%Q) by (field; lra).
    rewrite E2 in H. exact H.
  - apply Qlt_shift_div_l; assumption.
Qed.

(** The three cases of the comparison, for exact quotients. *)
Lemma directional_comparison_cases
    (speeds_rtl speeds_ltr : list Q) (thresh a b : Q) :
  mean speeds_rtl = Py.Ok a ->
  mean speeds_ltr = Py.Ok b ->
  (0 < a)%Q -> (0 < b)%Q -> (0 <= thresh)%Q ->
  exists r,
    directional_comparison speeds_rtl speeds_ltr thresh = Py.Ok (Some r)
    /\ ((exists d, r = Faster RTL d) <-> (b * (1 + thresh / 100) < a)%Q)
    /\ ((exists d, r = Faster LTR d) <-> (a * (1 + thresh / 100) < b)%Q)
    /\ (r = Similar <->
        (a <= b * (1 + thresh / 100))%Q /\ (b <= a * (1 + thresh / 100))%Q).
Proof.
  intros Ha Hb Hapos Hbpos Ht.
  pose proof (mean_nonempty _ _ Ha) as Hne1.
  pose proof (mean_nonempty _ _ Hb) as Hne2.
  unfold directional_comparison.
  destruct speeds_rtl as [| x1 l1]; [contradiction |].
  destruct speeds_ltr as [| x2 l2]; [contradiction |].
  rewrite Ha, Hb. cbn [mbind result_bind Py.bind].
  assert (Et : (thresh == thresh / 100 * 100)%Q) by field.
  set (u := (thresh / 100)%Q) in *.
  assert (Hu : (0 <= u)%Q) by lra.
  assert (Hau : (0 <= a * u)%Q) by (apply Qmult_le_0_compat; lra).
  assert (Hbu : (0 <= b * u)%Q) by (apply Qmult_le_0_compat; lra).
  unfold min2. destruct (Py.Qlt_bool b a) eqn:Hba.
  - apply PyFacts.Qlt_bool_iff in Hba.
    unfold Py.truediv.
    destruct (Qeq_bool b 0) eqn:Hz;
      [apply Qeq_bool_iff in Hz; lra |].
    cbn [mbind result_bind Py.bind].
    assert (Eabs : (Qabs (a - b) == a - b)%Q) by (apply Qabs_pos; lra).
    assert (Hiff : (thresh < Qabs (a - b) / b * 100)%Q
                   <-> (b * (1 + u) < a)%Q).
    { rewrite (exceeds_percent _ _ _ Hbpos), Eabs. rewrite Et at 1.
      split; intros H; nra. }
    destruct (Py.Qlt_bool thresh (Qabs (a - b) / b * 100)) eqn:Hgt.
    + apply PyFacts.Qlt_bool_iff, Hiff in Hgt.
      eexists. split; [reflexivity |].
      split; [split; [intros _; exact Hgt | eauto] |].
      split; [split; [intros [d Hd]; discriminate | intros; nra] |].
      split; [discriminate | intros [? ?]; nra].
    + apply PyFacts.Qlt_bool_false_iff in Hgt.
      assert (Hno : ~ (b * (1 + u) < a)%Q).
      { intros H. apply Hiff in H. lra. }
      eexists. split; [reflexivity |].
      split; [split; [intros [d Hd]; discriminate | intros; contradiction] |].
      split; [split; [intros [d Hd]; discriminate | intros; nra] |].
      split; [intros _; split; nra | reflexivity].
  - apply PyFacts.Qlt_bool_false_iff in Hba.
    unfold Py.truediv.
    destruct (Qeq_bool a 0) eqn:Hz;
      [apply Qeq_bool_iff in Hz; lra |].
    cbn [mbind result_bind Py.bind].
    assert (Eabs : (Qabs (a - b) == b - a)%Q).
    { rewrite Qabs_neg by lra. ring. }
    assert (Hiff : (thresh < Qabs (a - b) / a * 100)%Q
                   <-> (a * (1 + u) < b)%Q).
    { rewrite (exceeds_percent _ _ _ Hapos), Eabs. rewrite Et at 1.
      split; intros H; nra. }
    destruct (Py.Qlt_bool thresh (Qabs (a - b) / a * 100)) eqn:Hgt.
    + apply PyFacts.Qlt_bool_iff, Hiff in Hgt.
      eexists. split; [reflexivity |].
      split; [split; [intros [d Hd]; discriminate | intros; nra] |].
      split; [split; [intros _; exact Hgt | eauto] |].
      split; [discriminate | intros [? ?]; nra].
    + apply PyFacts.Qlt_bool_false_iff in Hgt.
      assert (Hno : ~ (a * (1 + u) < b)%Q).
      { intros H. apply Hiff in H. lra. }
      eexists. split; [reflexivity |].
      split; [split; [intros [d Hd]; discriminate | intros; nra] |].
      split; [split; [intros [d Hd]; discriminate | intros; contradiction] |].
      split; [intros _; split; nra | reflexivity].
Qed.

(** When both directions have vehicles and positive mean speeds, the
    direction that is reported as faster is the one with the strictly
    larger mean, and equal means are reported as similar (for a
    threshold that is not negative). *)
Theorem faster_direction_has_the_larger_mean
    (speeds_rtl speeds_ltr : list Q) (thresh a b : Q) :
  mean speeds_rtl = Py.Ok a ->
  mean speeds_ltr = Py.Ok b ->
  (0 < a)%Q -> (0 < b)%Q -> (0 <= thresh)%Q ->
  exists r,
    directional_comparison speeds_rtl speeds_ltr thresh = Py.Ok (Some r)
    /\ (forall d, r = Faster RTL d -> (b < a)%Q)
    /\ (forall d, r = Faster LTR d -> (a < b)%Q)
    /\ ((a == b)%Q -> r = Similar).
Proof.
  intros Ha Hb Hapos Hbpos Ht.
  destruct (directional_comparison_cases _ _ _ _ _ Ha Hb Hapos Hbpos Ht)
    as (r & Hr & Hrtl & Hltr & Hsim).
  assert (Hu : (0 <= thresh / 100)%Q).
  { apply Qle_shift_div_l; [reflexivity | lra]. }
  assert (Hau : (0 <= a * (thresh / 100))%Q)
    by (apply Qmult_le_0_compat; lra).
  assert (Hbu : (0 <= b * (thresh / 100))%Q)
    by (apply Qmult_le_0_compat; lra).
  exists r. split; [exact Hr |].
  split; [intros d Hd; assert (H : (b * (1 + thresh / 100) < a)%Q)
            by (apply Hrtl; eauto); lra |].
  split; [intros d Hd; assert (H : (a * (1 + thresh / 100) < b)%Q)
            by (apply Hltr; eauto); lra |].
  intros E. apply Hsim. split; lra.
Qed.

Lemma faster_direction_has_the_larger_mean_witness :
  exists r,
    directional_comparison [120; 130]%Q [100]%Q 10 = Py.Ok (Some r)
    /\ forall d, r <> Faster LTR d.
Proof.
  destruct (faster_direction_has_the_larger_mean
              [120; 130]%Q [100]%Q 10 (250 / 2) (100 / 1))
    as (r & Hr & _ & Hltr & _).
  - reflexivity.
  - reflexivity.
  - reflexivity.
  - reflexivity.
  - discriminate.
  - exists r. split; [exact Hr |]. intros d Hd.
    apply Hltr in Hd. revert Hd. apply Qle_not_lt. discriminate.
Defined.

(** ** When the whole report is written *)

Lemma write_report_succeeds vehicles cfg :
  (4 <= length vehicles)%nat ->
  (0 <= percentile_low cfg)%Q -> (percentile_low cfg < 100)%Q ->
  (0 <= percentile_high cfg)%Q -> (percentile_high cfg < 100)%Q ->
  normal_range_bins cfg <> 0%nat ->
  exists rep, write_report vehicles cfg = Py.Ok (Some rep).
Proof.
  intros Hlen Hl0 Hl100 Hh0 Hh100 Hbins.
  set (speeds := map speed_normalized vehicles).
  assert (Hn : (1 <= length speeds)%nat).
  { unfold speeds. rewrite length_map. lia. }
  destruct (AnalyzerFacts.percentile_lookup speeds _ Hn Hl0 Hl100)
    as (lo & Hget_lo & _).
  destruct (AnalyzerFacts.percentile_lookup speeds _ Hn Hh0 Hh100)
    as (hi & Hget_hi & _).
  unfold write_report.
  destruct (Nat.ltb_spec (length vehicles) 4) as [? | _]; [lia |].
  fold speeds. rewrite Hget_lo, Hget_hi. cbn.
  unfold Py.truediv.
  destruct (Qeq_bool (inject_Z (Z.of_nat (normal_range_bins cfg))) 0) eqn:Hz.
  { apply Qeq_bool_iff in Hz. exfalso. apply Hbins.
    unfold Qeq in Hz. simpl in Hz. lia. }
  cbn. eexists. reflexivity.
Qed.

Lemma fsum_positive (l : list Q) :
  l <> [] -> Forall (fun x => (0 < x)%Q) l -> (0 < fsum l)%Q.
Proof.
  intros Hne Hall. induction Hall as [| x l Hx Hall IH]; [contradiction |].
  rewrite fsum_cons. destruct l as [| y l].
  - unfold fsum. simpl. lra.
  - assert (H : (0 < fsum (y :: l))%Q) by (apply IH; discriminate). lra.
Qed.

Lemma mean_positive (l : list Q) :
  l <> [] -> Forall (fun x => (0 < x)%Q) l ->
  exists mu, mean l = Py.Ok mu /\ (0 < mu)%Q.
Proof.
  intros Hne Hall. unfold mean, Py.truediv.
  assert (Hn : (0 < inject_Z (Z.of_nat (length l)))%Q).
  { rewrite <- (Zlt_Qlt 0). destruct l; [contradiction | simpl; lia]. }
  destruct (Qeq_bool (inject_Z (Z.of_nat (length l))) 0) eqn:Hz.
  { apply Qeq_bool_iff in Hz. lra. }
  eexists. split; [reflexivity |].
  apply Qlt_shift_div_l; [exact Hn |]. rewrite Qmult_0_l.
  apply fsum_positive; assumption.
Qed.

Lemma speeds_of_positive d vehicles :
  Forall (fun v => (0 < speed_normalized v)%Q) vehicles ->
  Forall (fun x => (0 < x)%Q) (speeds_of d vehicles).
Proof.
  intros Hall. unfold speeds_of. apply List.Forall_forall. intros x Hx.
  apply in_map_iff in Hx. destruct Hx as (v & <- & Hv).
  apply filter_In in Hv. destruct Hv as [Hv _].
  rewrite List.Forall_forall in Hall. apply Hall, Hv.
Qed.

Lemma directional_comparison_positive (rtl ltr : list Q) (thresh : Q) :
  Forall (fun x => (0 < x)%Q) rtl ->
  Forall (fun x => (0 < x)%Q) ltr ->
  exists r, directional_comparison rtl ltr thresh = Py.Ok r.
Proof.
  intros H1 H2. unfold directional_comparison.
  destruct rtl as [| x1 l1]; [eexists; reflexivity |].
  destruct ltr as [| x2 l2]; [eexists; reflexivity |].
  destruct (mean_positive (x1 :: l1)) as (a & -> & Ha);
    [discriminate | exact H1 |].
  destruct (mean_positive (x2 :: l2)) as (b & -> & Hb);
    [discriminate | exact H2 |].
  cbn [mbind result_bind Py.bind].
  assert (Hm : (0 < min2 a b)%Q) by (unfold min2; destruct (Py.Qlt_bool b a); assumption).
  unfold Py.truediv.
  destruct (Qeq_bool (min2 a b) 0) eqn:Hz;
    [apply Qeq_bool_iff in Hz; lra |].
  cbn [mbind result_bind Py.bind].
  destruct (Py.Qlt_bool thresh _); eexists; reflexivity.
Qed.



End SummaryFacts.

(** * The two stages over one queue *)

Module Pipeline.
Import Analyzer Tracks.

Lemma built_numbers cfg taken vs :
  Forall2 (built cfg) taken vs ->
  map v_vehicle_number vs = map vehicle_number taken.
Proof.
  induction 1 as [| d v taken vs Hb _ IH]; simpl; [reflexivity |].
  destruct (AnalyzerFacts.build_vehicle_ok _ _ _ Hb) as (_ & _ & _ & _ & _ & _ & Hn).
  rewrite Hn, IH. reflexivity.
Qed.

(** The records built from what a run of the detector has put on the
    queue are, in order, the records of its first crossings. *)
Lemma analyzed_prefix dcfg w cfg :
  exists taken rest,
    events (fst (Detector.run_detection dcfg w)) = taken ++ rest
    /\ Forall2 (built cfg) taken
         (fst (fst (analyze_stream cfg (fst (Detector.run_detection dcfg w))))).
Proof.
  set (queue := fst (Detector.run_detection dcfg w)).
  rewrite StreamFacts.analyze_stream_loop.
  destruct (analyze_loop cfg queue [] None) as [[vs file] e] eqn:H.
  destruct (StreamFacts.analyze_loop_prefix _ _ _ _ _ _ _ H)
    as (taken & rest & new & E1 & E2 & F & _).
  simpl in E2. subst new.
  destruct (StreamFacts.before_sentinel_events queue) as [more E].
  exists taken, (rest ++ more).
  rewrite E, E1, <- app_assoc. split; [reflexivity | exact F].
Qed.

(** The vehicle records that the analyzer builds from the queue of a run
    of the detector are numbered 1, 2, 3, ... in the order in which they
    are built, without a gap. *)
Theorem records_are_numbered_in_order dcfg w cfg :
  let vehicles :=
    fst (fst (analyze_stream cfg (fst (Detector.run_detection dcfg w)))) in
  map v_vehicle_number vehicles = seq 1 (length vehicles).
Proof.
  intros vehicles. subst vehicles.
  destruct (analyzed_prefix dcfg w cfg) as (taken & rest & E & F).
  destruct (DetectorFacts.run_detection_emits dcfg w) as [st' Hem].
  pose proof (Detector.em_numbers _ _ _ _ Hem) as Hn.
  rewrite E, map_app, length_app, seq_app in Hn. simpl in Hn.
  apply app_inj_1 in Hn; [| rewrite length_map, length_seq; reflexivity].
  destruct Hn as [Hn _].
  rewrite (built_numbers _ _ _ F), Hn, (Forall2_length _ _ _ F).
  reflexivity.
Qed.

Lemma built_speeds_not_negative rtl_factor data v :
  (0 <= rtl_factor)%Q ->
  (0 < time_elapsed data)%Q ->
  (0 <= distance_pixels data)%Q ->
  build_vehicle rtl_factor data = Py.Ok v ->
  (0 <= speed_raw v)%Q /\ (0 <= speed_normalized v)%Q.
Proof.
  intros Hf Ht Hd Hb.
  destruct (AnalyzerFacts.build_vehicle_ok _ _ _ Hb)
    as (Hraw & Hnorm & _ & Ed & Et & _).
  assert (H0 : (0 <= speed_raw v)%Q).
  { rewrite Hraw, Ed, Et. apply Qle_shift_div_l; [exact Ht |].
    rewrite Qmult_0_l. exact Hd. }
  split; [exact H0 |]. rewrite Hnorm.
  destruct (v_direction v); [exact H0 |].
  apply Qmult_le_0_compat; assumption.
Qed.

Lemma analyzed_speeds_not_negative dcfg w cfg :
  (0 <= Detector.min_time_before_count dcfg)%Q ->
  (0 <= rtl_correction_factor cfg)%Q ->
  Forall (fun v => (0 <= speed_raw v)%Q /\ (0 <= speed_normalized v)%Q)
    (fst (fst (analyze_stream cfg (fst (Detector.run_detection dcfg w))))).
Proof.
  intros Hmin Hf.
  destruct (analyzed_prefix dcfg w cfg) as (taken & rest & E & F).
  pose proof (DetectorInvariants.run_detection_measures dcfg w) as Hm.
  rewrite E in Hm. apply Forall_app in Hm. destruct Hm as [Hm _].
  clear E. revert Hm. induction F as [| d v taken vs Hb _ IH]; intros Hm;
    [constructor |].
  inversion Hm as [| ? ? [Ht Hd] Hm']; subst.
  constructor; [| apply IH, Hm'].
  eapply built_speeds_not_negative; [exact Hf | | exact Hd | exact Hb].
  exact (Qle_lt_trans _ _ _ Hmin Ht).
Qed.

(** When the minimum tracking time and the correction factor are not
    negative, every record that the analyzer builds from the queue of a
    run of the detector has a raw and a normalized speed that are not
    negative. *)
Theorem detected_speeds_are_not_negative dcfg w cfg :
  (0 <= Detector.min_time_before_count dcfg)%Q ->
  (0 <= rtl_correction_factor cfg)%Q ->
  Forall (fun v => (0 <= speed_raw v)%Q /\ (0 <= speed_normalized v)%Q)
    (fst (fst (analyze_stream cfg (fst (Detector.run_detection dcfg w))))).
Proof. apply analyzed_speeds_not_negative. Qed.

Lemma detected_speeds_are_not_negative_witness :
  Forall (fun v => (0 <= speed_raw v)%Q /\ (0 <= speed_normalized v)%Q)
    (fst (fst (analyze_stream Desk.quartiles
                 (fst (Detector.run_detection Scene.config
                         (Scene.camera Scene.four_crossings)))))).
Proof.
  apply (detected_speeds_are_not_negative Scene.config
           (Scene.camera Scene.four_crossings) Desk.quartiles).
  - discriminate.
  - discriminate.
Defined.

End Pipeline.
